(** * ByteMason: the code-generation endpoint and its schemas

    A shallow embedding of the archived Next.js generation endpoint
    (the [POST] handler with [sanitizeRoutePath]), of the zod schemas
    [SpecSchema] and [GeneratedCodeSchema], and of the module-level
    credential guard of [openai.ts], followed by the properties the
    specification states about them; then of the specification
    endpoint and of the client page that calls both endpoints and
    mounts the generated files ([convertToWebContainerFS],
    [handlePromptSubmit], [initializeWebContainer]), with further
    properties of the whole.

    JavaScript strings are sequences of UTF-16 code units.  A [string]
    here is a sequence of code units below 256; every character test
    the embedded code performs (braces, slash, [\w], [\s], lower-casing)
    acts on one code unit at a time. *)

From Equations Require Import Equations.
From Stdlib Require Import String Ascii List Arith Lia Bool.
From Stdlib Require Import DecimalString DecimalNat DecimalFacts NArith Permutation.

Set Warnings "-register-all".
Import ListNotations.

Open Scope string_scope.

(* ===================================================================== *)
(** * Strings *)
(* ===================================================================== *)

Module Str.

(** The regular-expression class [\w] (no [u] or [i] flag): [A-Za-z0-9_]. *)
Definition isWordChar (c : ascii) : bool :=
  let n := nat_of_ascii c in
  (((65 <=? n) && (n <=? 90)) || ((97 <=? n) && (n <=? 122))
   || ((48 <=? n) && (n <=? 57)) || (n =? 95))%nat.

(** The class [\s] on code units below 256: TAB, LF, VT, FF, CR, SP, NBSP. *)
Definition isWhiteSpace (c : ascii) : bool :=
  let n := nat_of_ascii c in
  (((9 <=? n) && (n <=? 13)) || (n =? 32) || (n =? 160))%nat.

Definition lbrace : ascii := "{".
Definition rbrace : ascii := "}".
Definition lbracket : ascii := "[".
Definition rbracket : ascii := "]".
Definition slash : ascii := "/".
Definition dquote : ascii := "034".
Definition backslash : ascii := "092".

Definition isEmpty (s : string) : bool :=
  match s with "" => true | _ => false end.

(** Every character of [s] satisfies [p]. *)
Fixpoint all (p : ascii -> bool) (s : string) : bool :=
  match s with
  | "" => true
  | String c t => p c && all p t
  end.

(** [Array.prototype.join]. *)
Fixpoint join (sep : string) (l : list string) : string :=
  match l with
  | [] => ""
  | [x] => x
  | x :: rest => x ++ sep ++ join sep rest
  end.

(** [s.startsWith(p)], returning what follows the prefix. *)
Fixpoint stripPrefix (p s : string) : option string :=
  match p, s with
  | "", _ => Some s
  | String a p', String b s' =>
      if Ascii.eqb a b then stripPrefix p' s' else None
  | _, "" => None
  end.

(** [s.replace(pat, rep)] with a string pattern: only the first
    occurrence is replaced ([rep] holds no [$]). *)
Fixpoint replaceFirst (pat rep s : string) : string :=
  match stripPrefix pat s with
  | Some rest => rep ++ rest
  | None =>
      match s with
      | "" => ""
      | String c t => String c (replaceFirst pat rep t)
      end
  end.

(** [s.split(sep)] for a one-character separator: never empty. *)
Fixpoint split (sep : ascii) (s : string) : list string :=
  match s with
  | "" => [""]
  | String c t =>
      if Ascii.eqb c sep then "" :: split sep t
      else match split sep t with
           | [] => [String c ""]
           | x :: rest => String c x :: rest
           end
  end.

(** [`${n}`] for a non-negative integer. *)
Definition ofNat (n : nat) : string :=
  NilZero.string_of_uint (Nat.to_uint n).

End Str.

(* ===================================================================== *)
(** * sanitizeRoutePath *)
(* ===================================================================== *)

Module Route.
Import Str.

(** The longest run of [\w] characters at the head of [s], and the rest. *)
Fixpoint wordRun (s : string) : string * string :=
  match s with
  | "" => ("", "")
  | String c t =>
      if isWordChar c
      then let (w, r) := wordRun t in (String c w, r)
      else ("", s)
  end.

(** One attempt of [/\{(\w+)\}/] anchored at the head of [s]: the
    capture group and what follows the match.  [\w+] is greedy, and
    giving characters back cannot help since a word character is not
    a closing brace: the attempt succeeds exactly when the longest
    run is non-empty and a closing brace follows it. *)
Definition matchParam (s : string) : option (string * string) :=
  match s with
  | "" => None
  | String c t =>
      if Ascii.eqb c lbrace then
        match wordRun t with
        | (String n name, String d rest) =>
            if Ascii.eqb d rbrace then Some (String n name, rest) else None
        | _ => None
        end
      else None
  end.

Lemma wordRun_length (s : string) :
  String.length (fst (wordRun s)) + String.length (snd (wordRun s))
  = String.length s.
Proof.
  induction s as [|c t IH]; simpl; [reflexivity|].
  destruct (isWordChar c); simpl; [|reflexivity].
  destruct (wordRun t) as [w r]; simpl in *. lia.
Qed.

Lemma matchParam_shorter (s name rest : string) :
  matchParam s = Some (name, rest) ->
  String.length rest < String.length s.
Proof.
  destruct s as [|c t]; simpl; [discriminate|].
  destruct (Ascii.eqb c lbrace); [|discriminate].
  pose proof (wordRun_length t) as L.
  destruct (wordRun t) as [[|n w] [|d r]]; try discriminate.
  destruct (Ascii.eqb d rbrace); [|discriminate].
  intros E; injection E as _ <-. simpl in L. lia.
Qed.

Definition inspect {A} (a : A) : { b : A | a = b } := exist _ a eq_refl.

(** [path.replace(/\{(\w+)\}/g, '[$1]')]: scan from the left; at a
    match emit the bracketed capture and resume after the match,
    otherwise copy one character and resume at the next one. *)
Equations? replaceParams (s : string) : string by wf (String.length s) lt :=
  replaceParams "" := "";
  replaceParams (String c t) with inspect (matchParam (String c t)) := {
    | exist _ (Some (name, rest)) _ =>
        String lbracket (name ++ String rbracket (replaceParams rest));
    | exist _ None _ => String c (replaceParams t) }.
Proof.
  apply (matchParam_shorter (String c t) name rest). assumption.
Qed.

Definition sanitizeRoutePath (path : string) : string :=
  replaceParams path.

(** ** Notions used to state the properties of the rewrite *)

(** [p] holds of the first character of [s]; false on the empty string. *)
Definition startsWith1 (p : ascii -> bool) (s : string) : bool :=
  match s with "" => false | String c _ => p c end.

Definition notLbrace (c : ascii) : bool := negb (Ascii.eqb c lbrace).
Definition notBrace (c : ascii) : bool :=
  negb (Ascii.eqb c lbrace) && negb (Ascii.eqb c rbrace).
Definition isRbrace (c : ascii) : bool := Ascii.eqb c rbrace.

(** No match can span the boundary when what follows begins with
    neither a word character nor a closing brace. *)
Definition wordOrRbrace (c : ascii) : bool := isWordChar c || isRbrace c.

(** What the scan makes of one brace segment. *)
Definition convertSegment (seg : string) : string :=
  if negb (isEmpty seg) && all isWordChar seg
  then String lbracket (seg ++ String rbracket "")
  else String lbrace (seg ++ String rbrace "").

(** [p] holds a brace-delimited parameter: a non-empty run of word
    characters between an opening and a closing brace. *)
Definition ParamSegment (p : string) : Prop :=
  exists a name b,
    p = a ++ String lbrace (name ++ String rbrace b)
    /\ name <> "" /\ all isWordChar name = true.

(** The same as a test: some position of [p] starts a match. *)
Fixpoint hasParam (p : string) : bool :=
  match p with
  | "" => false
  | String c t =>
      match matchParam p with Some _ => true | None => hasParam t end
  end.

(** Positions [i] and [j] of [p] hold the opening and the closing
    brace of one parameter segment. *)
Definition Delimits (p : string) (i j : nat) : Prop :=
  exists a name b,
    p = a ++ String lbrace (name ++ String rbrace b)
    /\ name <> "" /\ all isWordChar name = true
    /\ i = String.length a
    /\ j = String.length a + String.length name + 1.

(** At position [k] the result equals the source, or [k] is a
    delimiter of a parameter segment and holds the bracket. *)
Definition FrameAt (p out : string) (k : nat) : Prop :=
  String.get k out = String.get k p
  \/ exists i j, Delimits p i j
       /\ ((k = i /\ String.get k p = Some lbrace
                  /\ String.get k out = Some lbracket)
           \/ (k = j /\ String.get k p = Some rbrace
                     /\ String.get k out = Some rbracket)).

End Route.

(* ===================================================================== *)
(** * JavaScript values *)
(* ===================================================================== *)

Module Js.

(** The values the handler builds and walks.  Every object it creates
    is a plain object: own properties in insertion order, and a
    prototype, which is [Object.prototype] until an assignment to the
    key [__proto__] replaces it.  No object is stored in two places,
    so the heap is a tree and an update in place is an update of the
    enclosing value. *)
Inductive value : Type :=
| VUndefined
| VString (s : string)
| VObjectPrototype                 (* the intrinsic Object.prototype *)
| VFunction (name : string)        (* a method inherited from it *)
| VObject (proto : value) (props : list (string * value)).

(** An object literal. *)
Definition obj (props : list (string * value)) : value :=
  VObject VObjectPrototype props.

Definition truthy (v : value) : bool :=
  match v with
  | VUndefined => false
  | VString s => negb (Str.isEmpty s)
  | _ => true
  end.

(** The data properties of [Object.prototype]; [__proto__] is its one
    accessor and is treated where properties are read and written. *)
Definition objectPrototypeMethods : list string :=
  [ "constructor"; "__defineGetter__"; "__defineSetter__";
    "hasOwnProperty"; "__lookupGetter__"; "__lookupSetter__";
    "isPrototypeOf"; "propertyIsEnumerable"; "toString"; "valueOf";
    "toLocaleString" ].

Definition protoKey : string := "__proto__".

Fixpoint inList (k : string) (l : list string) : bool :=
  match l with
  | [] => false
  | x :: rest => String.eqb k x || inList k rest
  end.

(** Own property lookup. *)
Fixpoint ownProp (k : string) (props : list (string * value))
  : option value :=
  match props with
  | [] => None
  | (k', v) :: rest => if String.eqb k k' then Some v else ownProp k rest
  end.

(** Define or overwrite an own property; an existing key keeps its
    place in the property order, a new key goes last. *)
Fixpoint putOwn (k : string) (v : value) (props : list (string * value))
  : list (string * value) :=
  match props with
  | [] => [(k, v)]
  | (k', v') :: rest =>
      if String.eqb k k' then (k, v) :: rest
      else (k', v') :: putOwn k v rest
  end.

(** Reading property [k] of [o] for a key other than [__proto__]: the
    value found along the prototype chain, and how to rebuild [o]
    around a new state of that value. *)
Fixpoint focusChain (o : value) (k : string) : value * (value -> value) :=
  match o with
  | VObject proto props =>
      match ownProp k props with
      | Some v => (v, fun v' => VObject proto (putOwn k v' props))
      | None =>
          let (v, put) := focusChain proto k in
          (v, fun v' => VObject (put v') props)
      end
  | VObjectPrototype =>
      (if inList k objectPrototypeMethods then VFunction k else VUndefined,
       fun _ => o)
  | _ => (VUndefined, fun _ => o)
  end.

(** Reading [o[k]]: the [__proto__] getter answers with the prototype
    of the receiver. *)
Definition focus (o : value) (k : string) : value * (value -> value) :=
  match o with
  | VObject proto props =>
      match ownProp k props with
      | Some v => (v, fun v' => VObject proto (putOwn k v' props))
      | None =>
          if String.eqb k protoKey
          then (proto, fun p' => VObject p' props)
          else focusChain o k
      end
  | _ => focusChain o k
  end.

Definition isObject (v : value) : bool :=
  match v with
  | VObject _ _ | VObjectPrototype | VFunction _ => true
  | _ => false
  end.

(** [o[k]]; [None] is the TypeError of reading a property of
    [undefined].  The receiver is an object this code created or
    [undefined]: the walk reaches no other one ([receiver]). *)
Definition getProp (o : value) (k : string) : option value :=
  match o with
  | VUndefined => None
  | _ => Some (fst (focus o k))
  end.

(** [o[k] = v] on an object this code created; [None] is the
    TypeError of writing a property of [undefined].  The [__proto__]
    setter replaces the prototype when [v] is an object and creates no
    own property; every other key becomes an own property (the
    inherited methods of [Object.prototype] are writable data
    properties). *)
Definition setProp (o : value) (k : string) (v : value) : option value :=
  match o with
  | VObject proto props =>
      match ownProp k props with
      | Some _ => Some (VObject proto (putOwn k v props))
      | None =>
          if String.eqb k protoKey
          then Some (if isObject v then VObject v props else o)
          else Some (VObject proto (putOwn k v props))
      end
  | _ => None
  end.

(** A value built without any write to [__proto__]: every object in
    it has [Object.prototype] as its prototype. *)
Fixpoint plain (v : value) : bool :=
  match v with
  | VString _ => true
  | VObject VObjectPrototype props =>
      forallb (fun kv => plain (snd kv)) props
  | _ => false
  end.

Definition plainProps (props : list (string * value)) : bool :=
  forallb (fun kv => plain (snd kv)) props.

(** The shape of every value this code stores: strings are leaves, the
    prototype of an object is [Object.prototype] or an object of this
    shape, and a property named [directory] holds an object. *)
Fixpoint shaped (v : value) : bool :=
  match v with
  | VString _ => true
  | VObject proto props =>
      match proto with
      | VObjectPrototype => true
      | VObject _ _ => shaped proto
      | _ => false
      end
      && forallb
           (fun kv =>
              shaped (snd kv)
              && (negb (String.eqb (fst kv) "directory")
                  || match snd kv with VObject _ _ => true | _ => false end))
           props
  | _ => false
  end.

(** What [currentPath] can be: an object of that shape, or [undefined]. *)
Definition receiver (v : value) : bool :=
  match v with
  | VUndefined => true
  | VObject _ _ => shaped v
  | _ => false
  end.

Definition isVObject (v : value) : bool :=
  match v with VObject _ _ => true | _ => false end.

Definition okProp (kv : string * value) : bool :=
  shaped (snd kv)
  && (negb (String.eqb (fst kv) "directory") || isVObject (snd kv)).

Definition okProto (proto : value) : bool :=
  match proto with
  | VObjectPrototype => true
  | VObject _ _ => shaped proto
  | _ => false
  end.

(** What a read finds in an object of the shape, and what putting a
    new state of it back gives. *)
Definition goodFocus (k : string) (r : value * (value -> value)) : Prop :=
  (fst r = VUndefined \/ (exists n, fst r = VFunction n)
   \/ fst r = VObjectPrototype \/ shaped (fst r) = true)
  /\ (k = "directory" -> receiver (fst r) = true)
  /\ (forall v', shaped v' = true -> isVObject v' = true ->
        shaped (snd r v') = true /\ isVObject (snd r v') = true).

(** Follow own properties only, as a serialiser does:
    [o[p1].directory[p2].directory ...]. *)
Definition ownOf (o : value) (k : string) : option value :=
  match o with
  | VObject _ props => ownProp k props
  | _ => None
  end.

Fixpoint directoryAt (o : value) (parts : list string) : option value :=
  match parts with
  | [] => Some o
  | p :: rest =>
      match ownOf o p with
      | Some e =>
          match ownOf e "directory" with
          | Some d => directoryAt d rest
          | None => None
          end
      | None => None
      end
  end.

End Js.

(* ===================================================================== *)
(** * JSON documents and JSON.stringify *)
(* ===================================================================== *)

Module Json.
Import Str.

(** A value as [JSON.parse] returns it; the members of an object are
    in property order and their keys are distinct ([wellFormed]). *)
Inductive json : Type :=
| JNull
| JBool (b : bool)
| JNumber (literal : string)
| JString (s : string)
| JArray (items : list json)
| JObject (members : list (string * json)).

Fixpoint member (k : string) (members : list (string * json))
  : option json :=
  match members with
  | [] => None
  | (k', v) :: rest => if String.eqb k k' then Some v else member k rest
  end.

Fixpoint distinct (keys : list string) : bool :=
  match keys with
  | [] => true
  | k :: rest => negb (Js.inList k rest) && distinct rest
  end.

Fixpoint wellFormed (j : json) : bool :=
  match j with
  | JArray items => forallb wellFormed items
  | JObject members =>
      distinct (map fst members)
      && forallb (fun kv => wellFormed (snd kv)) members
  | _ => true
  end.

Definition hexDigit (n : nat) : ascii :=
  ascii_of_nat (if n <? 10 then 48 + n else 87 + n)%nat.

(** QuoteJSONString, one code unit. *)
Definition escapeChar (c : ascii) : string :=
  let n := nat_of_ascii c in
  if (n =? 8)%nat then String backslash "b"
  else if (n =? 9)%nat then String backslash "t"
  else if (n =? 10)%nat then String backslash "n"
  else if (n =? 12)%nat then String backslash "f"
  else if (n =? 13)%nat then String backslash "r"
  else if (n =? 34)%nat then String backslash (String dquote "")
  else if (n =? 92)%nat then String backslash (String backslash "")
  else if (n <? 32)%nat then
    String backslash
      (String "u" (String "0" (String "0"
         (String (hexDigit (n / 16)) (String (hexDigit (n mod 16)) "")))))
  else String c "".

Fixpoint escape (s : string) : string :=
  match s with
  | "" => ""
  | String c t => escapeChar c ++ escape t
  end.

Definition quote (s : string) : string :=
  String dquote (escape s ++ String dquote "").

Definition newline : string := String "010" "".

(** [JSON.stringify(j, null, 2)] below the current indentation. *)
Fixpoint stringifyAt (indent : string) (j : json) : string :=
  let inner := indent ++ "  " in
  let block (opening closing : string) (parts : list string) :=
    match parts with
    | [] => opening ++ closing
    | _ => opening ++ newline ++ inner
           ++ join ("," ++ newline ++ inner) parts
           ++ newline ++ indent ++ closing
    end in
  match j with
  | JNull => "null"
  | JBool true => "true"
  | JBool false => "false"
  | JNumber literal => literal
  | JString s => quote s
  | JArray items => block "[" "]" (map (stringifyAt inner) items)
  | JObject members =>
      block "{" "}"
        (map (fun kv => quote (fst kv) ++ ": " ++ stringifyAt inner (snd kv))
             members)
  end.

Definition stringify2 (j : json) : string := stringifyAt "" j.

End Json.

(* ===================================================================== *)
(** * The zod schemas of lib/schemas *)
(* ===================================================================== *)

Module Schema.
Import Json.

Fixpoint traverse {A B : Type} (f : A -> option B) (l : list A)
  : option (list B) :=
  match l with
  | [] => Some []
  | x :: rest =>
      match f x, traverse f rest with
      | Some y, Some ys => Some (y :: ys)
      | _, _ => None
      end
  end.

(** [z.string()] *)
Definition zString (j : json) : option string :=
  match j with JString s => Some s | _ => None end.

(** [z.array(item)] *)
Definition zArray {A : Type} (item : json -> option A) (j : json)
  : option (list A) :=
  match j with JArray items => traverse item items | _ => None end.

(** [z.record(item)]: every value is validated; the result lists the
    entries in property order, without the key [__proto__], which zod
    never turns into an own property of its result. *)
Definition zRecord {A : Type} (item : json -> option A) (j : json)
  : option (list (string * A)) :=
  match j with
  | JObject members =>
      option_map
        (filter (fun kv => negb (String.eqb (fst kv) Js.protoKey)))
        (traverse
           (fun kv => option_map (pair (fst kv)) (item (snd kv)))
           members)
  | _ => None
  end.

(** One declared key of a [z.object]: a missing key reads as
    [undefined], which every schema used here rejects. *)
Definition field {A : Type} (item : json -> option A) (k : string)
    (members : list (string * json)) : option A :=
  match member k members with
  | Some v => item v
  | None => None
  end.

Module ApiMethod.
Record t : Type := make { code : string; description : string }.
End ApiMethod.

Module ApiRoute.
Record t : Type :=
  make { path : string; methods : list (string * ApiMethod.t) }.
End ApiRoute.

Module Component.
Record t : Type :=
  make { name : string; code : string; description : string;
         dependencies : list string }.
End Component.

Module GeneratedCode.
Record t : Type :=
  make { components : list Component.t; apiRoutes : list ApiRoute.t;
         types : string; utils : list string }.
End GeneratedCode.

Module Spec.
Record t : Type :=
  make { name : string; description : string; frontend : list string;
         api : list (string * list (string * string));
         dataModel : list (string * list (string * string));
         features : list string }.
End Spec.

(** The keys [SpecSchema] declares. *)
Definition declaredKeys : list string :=
  ["name"; "description"; "frontend"; "api"; "dataModel"; "features"].

(** [z.object] keeps the declared keys and strips every other one. *)
Definition ApiMethodSchema (j : json) : option ApiMethod.t :=
  match j with
  | JObject m =>
      match field zString "code" m, field zString "description" m with
      | Some c, Some d => Some (ApiMethod.make c d)
      | _, _ => None
      end
  | _ => None
  end.

Definition ApiRouteSchema (j : json) : option ApiRoute.t :=
  match j with
  | JObject m =>
      match field zString "path" m,
            field (zRecord ApiMethodSchema) "methods" m with
      | Some p, Some ms => Some (ApiRoute.make p ms)
      | _, _ => None
      end
  | _ => None
  end.

Definition ComponentSchema (j : json) : option Component.t :=
  match j with
  | JObject m =>
      match field zString "name" m, field zString "code" m,
            field zString "description" m,
            field (zArray zString) "dependencies" m with
      | Some n, Some c, Some d, Some deps => Some (Component.make n c d deps)
      | _, _, _, _ => None
      end
  | _ => None
  end.

(** [GeneratedCodeSchema.parse]; [None] is the thrown ZodError. *)
Definition GeneratedCodeSchema (j : json) : option GeneratedCode.t :=
  match j with
  | JObject m =>
      match field (zArray ComponentSchema) "components" m,
            field (zArray ApiRouteSchema) "apiRoutes" m,
            field zString "types" m,
            field (zArray zString) "utils" m with
      | Some cs, Some rs, Some ty, Some us =>
          Some (GeneratedCode.make cs rs ty us)
      | _, _, _, _ => None
      end
  | _ => None
  end.

(** [SpecSchema.parse] *)
Definition SpecSchema (j : json) : option Spec.t :=
  match j with
  | JObject m =>
      match field zString "name" m, field zString "description" m,
            field (zArray zString) "frontend" m,
            field (zRecord (zRecord zString)) "api" m,
            field (zRecord (zRecord zString)) "dataModel" m,
            field (zArray zString) "features" m with
      | Some n, Some d, Some fe, Some a, Some dm, Some fs =>
          Some (Spec.make n d fe a dm fs)
      | _, _, _, _, _, _ => None
      end
  | _ => None
  end.

End Schema.

(* ===================================================================== *)
(** * The generation endpoint: assembling the file structure *)
(* ===================================================================== *)

Module Generate.
Import Str Json Js Schema.

Definition nl : string := newline.

Definition bind {A B : Type} (x : option A) (f : A -> option B)
  : option B :=
  match x with Some a => f a | None => None end.

Notation "x <- e ;; k" := (bind e (fun x => k))
  (at level 61, e at next level, right associativity).

(** [array.reduce((acc, x, index) => ..., init)] with a callback that
    may throw. *)
Fixpoint reduceFrom {A : Type} (f : value -> A -> nat -> option value)
    (index : nat) (l : list A) (acc : value) : option value :=
  match l with
  | [] => Some acc
  | x :: rest =>
      acc' <- f acc x index ;; reduceFrom f (S index) rest acc'
  end.

Definition reduce {A : Type} (f : value -> A -> nat -> option value)
    (l : list A) (init : value) : option value :=
  reduceFrom f 0 l init.

(** [{ file: { contents } }] and [{ directory }] *)
Definition fileEntry (contents : string) : value :=
  obj [("file", obj [("contents", VString contents)])].

Definition dirEntry (directory : value) : value :=
  obj [("directory", directory)].

(** [String.prototype.toLowerCase] on code units below 256. *)
Definition lowerChar (c : ascii) : ascii :=
  let n := nat_of_ascii c in
  if (((65 <=? n) && (n <=? 90))
      || ((192 <=? n) && (n <=? 222) && negb (n =? 215)))%nat
  then ascii_of_nat (n + 32) else c.

Fixpoint toLowerCase (s : string) : string :=
  match s with
  | "" => ""
  | String c t => String (lowerChar c) (toLowerCase t)
  end.

(** [s.replace(/\s+/g, '-')]: every maximal run of white space
    becomes one dash; [inRun] tells that the run has begun. *)
Fixpoint dashRuns (inRun : bool) (s : string) : string :=
  match s with
  | "" => ""
  | String c t =>
      if isWhiteSpace c
      then if inRun then dashRuns true t else String "-" (dashRuns true t)
      else String c (dashRuns false t)
  end.

Definition packageName (specName : string) : string :=
  dashRuns false (toLowerCase specName).

Definition packageJson (specName : string) : string :=
  stringify2
    (JObject
       [ ("name", JString (packageName specName));
         ("type", JString "module");
         ("scripts",
          JObject [ ("dev", JString "next dev");
                    ("build", JString "next build");
                    ("start", JString "next start") ]);
         ("dependencies",
          JObject [ ("next", JString "^14.0.0");
                    ("react", JString "^18.2.0");
                    ("react-dom", JString "^18.2.0");
                    ("@types/react", JString "^18.2.0");
                    ("@types/react-dom", JString "^18.2.0");
                    ("typescript", JString "^5.0.0");
                    ("zod", JString "^3.22.0") ]) ]).

(** One exported handler, from an entry of [Object.entries(route.methods)]. *)
Definition handlerSource (entry : string * ApiMethod.t) : string :=
  nl ++ "export async function " ++ fst entry ++ "(request: Request) {"
     ++ nl ++ ApiMethod.code (snd entry) ++ nl ++ "}".

Definition routeMethods (route : ApiRoute.t) : string :=
  join (nl ++ nl) (map handlerSource (ApiRoute.methods route)).

Definition routeSource (methods : string) : string :=
  nl ++ "import { NextResponse } from 'next/server';" ++ nl
     ++ methods ++ nl.

Definition routeDirectory (methods : string) : value :=
  obj [("route.ts", fileEntry (routeSource methods))].

(** The body of [pathParts.forEach]: the last part receives the
    directory holding [route.ts], replacing what was there; an
    earlier part is created as an empty directory unless
    [currentPath[part]] is truthy, and [currentPath] moves to
    [currentPath[part].directory].  The result is [currentPath] as the
    remaining iterations leave it; [None] is a thrown TypeError. *)
Fixpoint forEachPart (methods : string) (pathParts : list string)
    (currentPath : value) : option value :=
  match pathParts with
  | [] => Some currentPath
  | [part] => setProp currentPath part (dirEntry (routeDirectory methods))
  | part :: rest =>
      existing <- getProp currentPath part ;;
      current <- (if truthy existing then Some currentPath
                  else setProp currentPath part (dirEntry (obj []))) ;;
      let (entry, putEntry) := focus current part in
      let (directory, putDirectory) := focus entry "directory" in
      directory' <- forEachPart methods rest directory ;;
      Some (putEntry (putDirectory directory'))
  end.

(** [sanitizeRoutePath(route.path.replace('/api/', '')).split('/')] *)
Definition pathParts (route : ApiRoute.t) : list string :=
  let routePath :=
    Route.sanitizeRoutePath (replaceFirst "/api/" "" (ApiRoute.path route)) in
  split slash routePath.

(** The callback of [generatedCode.apiRoutes.reduce]. *)
Definition addRoute (acc : value) (route : ApiRoute.t) (_ : nat)
  : option value :=
  let methods := routeMethods route in
  if negb (isEmpty methods)
  then forEachPart methods (pathParts route) acc
  else Some acc.

Definition addUtil (acc : value) (util : string) (index : nat)
  : option value :=
  setProp acc ("util" ++ ofNat (index + 1) ++ ".ts") (fileEntry util).

Definition addComponent (acc : value) (component : Component.t) (_ : nat)
  : option value :=
  setProp acc (Component.name component ++ ".tsx")
          (fileEntry (Component.code component)).

Definition quoted (s : string) : string :=
  String dquote (s ++ String dquote "").

Definition pageSource (specName : string) (components : list Component.t)
  : string :=
  nl ++ "import { " ++ join ", " (map Component.name components)
     ++ " } from '@/components';" ++ nl
     ++ nl
     ++ "export default function Home() {" ++ nl
     ++ "  return (" ++ nl
     ++ "    <main className=" ++ quoted "min-h-screen p-8" ++ ">" ++ nl
     ++ "      <h1 className=" ++ quoted "text-3xl font-bold mb-8" ++ ">"
     ++ specName ++ "</h1>" ++ nl
     ++ "      "
     ++ join (nl ++ "      ")
          (map (fun c => "<" ++ Component.name c ++ " />") components)
     ++ nl
     ++ "    </main>" ++ nl
     ++ "  );" ++ nl
     ++ "}".

(** The object literal of [files], around the directories the three
    reduces return. *)
Definition layout (specName : string) (generatedCode : GeneratedCode.t)
    (utilsDir apiDir componentsDir : value) : value :=
  obj
    [ ("package.json", fileEntry (packageJson specName));
      ("types",
       dirEntry
         (obj [("index.ts", fileEntry (GeneratedCode.types generatedCode))]));
      ("utils", dirEntry utilsDir);
      ("app",
       dirEntry
         (obj [ ("api", dirEntry apiDir);
                ("page.tsx",
                 fileEntry
                   (pageSource specName
                      (GeneratedCode.components generatedCode))) ]));
      ("components", dirEntry componentsDir) ].

(** [const files: FileStructure = { ... }]; [None] when a reduce throws. *)
Definition files (specName : string) (generatedCode : GeneratedCode.t)
  : option value :=
  utilsDir <- reduce addUtil (GeneratedCode.utils generatedCode) (obj []) ;;
  apiDir <- reduce addRoute (GeneratedCode.apiRoutes generatedCode) (obj []) ;;
  componentsDir <-
    reduce addComponent (GeneratedCode.components generatedCode) (obj []) ;;
  Some (layout specName generatedCode utilsDir apiDir componentsDir).

(** ** Notions used to state the properties of the assembly *)

(** No part of the path is the key [__proto__]. *)
Definition noProtoKey (parts : list string) : bool :=
  forallb (fun part => negb (String.eqb part protoKey)) parts.

Fixpoint isPrefix (p q : list string) : bool :=
  match p, q with
  | [], _ => true
  | x :: p', y :: q' => String.eqb x y && isPrefix p' q'
  | _ :: _, [] => false
  end.

Fixpoint sameParts (p q : list string) : bool :=
  match p, q with
  | [], [] => true
  | x :: p', y :: q' => String.eqb x y && sameParts p' q'
  | _, _ => false
  end.

(** A later path [p] disturbs the handler file of the path [q]: it
    replaces the directory of [q] or one above it, or it replaces the
    entry [route.ts] inside it. *)
Definition overwrites (p q : list string) : bool :=
  isPrefix p q || sameParts p (q ++ ["route.ts"])%list.

(** No path of the routes has a part [__proto__]. *)
Definition noProtoKeys (routes : list ApiRoute.t) : bool :=
  forallb (fun route => noProtoKey (pathParts route)) routes.

(** A later route leaves the handler file at [q] alone: it has no
    method, or its path does not overwrite [q]. *)
Definition sparesPath (q : list string) (route : ApiRoute.t) : bool :=
  isEmpty (routeMethods route) || negb (overwrites (pathParts route) q).

(** The entry [name] of the directory that [parts] lead to. *)
Definition entryAt (tree : value) (parts : list string) (name : string)
  : option value :=
  match directoryAt tree parts with
  | Some directory => ownOf directory name
  | None => None
  end.

(** ** The handler *)

(** What [openai.chat.completions.create] did for this request. *)
Inductive Completion : Type :=
| CallFailed                          (* the call rejected *)
| Message (content : option string).  (* choices[0]?.message?.content *)

(** All that a run of the handler observes. *)
Record World : Type :=
  { requestBody : option json;     (* await req.json(); None: it threw *)
    completion : Completion }.

Record Response : Type := { status : nat; body : value }.

Definition failure : Response :=
  {| status := 500;
     body := obj [("error",
                   VString "Failed to generate code. Please try again.")] |}.

Definition success (tree : value) : Response :=
  {| status := 200; body := tree |}.

(** [const { spec } = await req.json()]: destructuring [null] throws;
    a body without the key leaves [spec] undefined. *)
Definition destructureSpec (requestBody : option json)
  : option (option json) :=
  match requestBody with
  | None => None
  | Some JNull => None
  | Some (JObject members) => Some (member "spec" members)
  | Some _ => Some None
  end.

(** [spec.name] as the receiver of [toLowerCase]: anything but a
    string throws. *)
Definition specName (spec : option json) : option string :=
  match spec with
  | Some (JObject members) =>
      match member "name" members with
      | Some (JString s) => Some s
      | _ => None
      end
  | _ => None
  end.

Section Handler.

(** [JSON.parse]; [None] is the thrown SyntaxError. *)
Variable JSON_parse : string -> option json.

(** Whether [JSON.stringify(spec, null, 2)] returns.  The serialiser
    recurses into its argument, and on a value nested deeper than the
    stack of the engine allows it throws a RangeError; where that
    depth lies is up to the engine. *)
Variable stringifies : json -> bool.

(** Whether [NextResponse.json(files)] returns: it serialises the tree
    in the same way. *)
Variable responds : value -> bool.

(** The [try] block; [None] is any thrown error.  The specification is
    serialised for the user message before the model is called; the
    response is built last, inside the block. *)
Definition tryBlock (w : World) : option value :=
  spec <- destructureSpec (requestBody w) ;;
  _ <- match spec with
       | Some j => if stringifies j then Some tt else None
       | None => Some tt
       end ;;
  content <- match completion w with
             | CallFailed => None
             | Message None => None
             | Message (Some text) =>
                 if isEmpty text then None else Some text
             end ;;
  parsedContent <- JSON_parse content ;;
  generatedCode <- GeneratedCodeSchema parsedContent ;;
  name <- specName spec ;;
  tree <- files name generatedCode ;;
  if responds tree then Some tree else None.

Definition POST (w : World) : Response :=
  match tryBlock w with
  | Some tree => success tree
  | None => failure
  end.

End Handler.

End Generate.

(* ===================================================================== *)
(** * lib/openai: the module-level credential guard *)
(* ===================================================================== *)

Module OpenAI.

(** [process.env] *)
Definition Env : Type := string -> option string.

(** The outcome of evaluating a module. *)
Inductive Evaluated (A : Type) : Type :=
| Threw (message : string)
| Exports (exports : A).
Arguments Threw {A} message.
Arguments Exports {A} exports.

Record Client : Type := { apiKey : string }.

(** [!process.env.OPENAI_API_KEY]: unset, or set to the empty string. *)
Definition missing (v : option string) : bool :=
  match v with
  | None => true
  | Some s => Str.isEmpty s
  end.

(** Evaluation of [lib/openai]. *)
Definition evaluate (env : Env) : Evaluated Client :=
  if missing (env "OPENAI_API_KEY")
  then Threw "Missing OPENAI_API_KEY environment variable"
  else Exports {| apiKey := match env "OPENAI_API_KEY" with
                            | Some k => k
                            | None => ""
                            end |}.

(** Evaluation of the route module, which imports [openai] from
    [lib/openai] before it defines [POST]: a module whose dependency
    threw is not evaluated and exports nothing. *)
Definition evaluateRoute {Handler : Type} (POST : Client -> Handler)
    (env : Env) : Evaluated Handler :=
  match evaluate env with
  | Threw message => Threw message
  | Exports openai => Exports (POST openai)
  end.

End OpenAI.

(* ===================================================================== *)
(** * The repair loop *)
(* ===================================================================== *)

Module RepairLoop.

(** The controller belongs to the command-line tool.  Its verifier,
    analyzer and agent are collaborators and stay abstract. *)
Section Controller.

Variables Tree Diagnostics Report Action : Type.

(** BuildVerifier: [None] when the build exits zero, the raw
    diagnostics otherwise.  The outcome may depend on the number of
    the pass as well as on the tree, so that every sequence of
    build outcomes is covered. *)
Variable verify : nat -> Tree -> option Diagnostics.

(** ErrorAnalyzer *)
Variable analyze : Diagnostics -> Report.

(** RepairAgent: one step, the actions it logged and the new tree. *)
Variable repairStep : Report -> Tree -> list Action * Tree.

(** The configured bound. *)
Variable maxAttempts : nat.

Record Session : Type := { attempt : nat; actionLog : list Action }.

Inductive State : Type :=
| Verifying (session : Session) (tree : Tree)
| Analyzing (session : Session) (tree : Tree) (raw : Diagnostics)
| Repairing (session : Session) (tree : Tree) (report : Report)
| Succeeded (session : Session) (tree : Tree)
| Exhausted (session : Session) (tree : Tree) (report : Report).

Definition initial (tree : Tree) : State :=
  Verifying {| attempt := 0; actionLog := [] |} tree.

Definition sessionOf (s : State) : Session :=
  match s with
  | Verifying session _ | Analyzing session _ _ | Repairing session _ _
  | Succeeded session _ | Exhausted session _ _ => session
  end.

Definition terminal (s : State) : bool :=
  match s with
  | Succeeded _ _ | Exhausted _ _ _ => true
  | _ => false
  end.

(** Modelled from the spec: the RepairLoop controller, which is part of
    the command-line tool and has no source among the files of the
    web application; these are the transitions of its state machine
    (section 4.7).  A failed verification goes on to analysis while the
    attempt counter is below the bound and exhausts the session
    otherwise; the counter grows by one per Verifying-Repairing cycle,
    whatever the reports say. *)
Definition step (s : State) : State :=
  match s with
  | Verifying session tree =>
      match verify (attempt session) tree with
      | None => Succeeded session tree
      | Some raw =>
          if (attempt session <? maxAttempts)%nat
          then Analyzing session tree raw
          else Exhausted session tree (analyze raw)
      end
  | Analyzing session tree raw => Repairing session tree (analyze raw)
  | Repairing session tree report =>
      let (actions, tree') := repairStep report tree in
      Verifying {| attempt := S (attempt session);
                   actionLog := actionLog session ++ actions |} tree'
  | Succeeded _ _ | Exhausted _ _ _ => s
  end.

Fixpoint run (steps : nat) (s : State) : State :=
  match steps with
  | 0 => s
  | S n => run n (step s)
  end.

End Controller.

Arguments attempt {Action} _.
Arguments actionLog {Action} _.
Arguments Verifying {Tree Diagnostics Report Action} session tree.
Arguments Analyzing {Tree Diagnostics Report Action} session tree raw.
Arguments Repairing {Tree Diagnostics Report Action} session tree report.
Arguments Succeeded {Tree Diagnostics Report Action} session tree.
Arguments Exhausted {Tree Diagnostics Report Action} session tree report.
Arguments initial {Tree Diagnostics Report Action} tree.
Arguments sessionOf {Tree Diagnostics Report Action} s.
Arguments terminal {Tree Diagnostics Report Action} s.
Arguments step {Tree Diagnostics Report Action} verify analyze repairStep
  maxAttempts s.
Arguments run {Tree Diagnostics Report Action} verify analyze repairStep
  maxAttempts steps s.

End RepairLoop.

(* ===================================================================== *)
(** * The cross-references of a project specification *)
(* ===================================================================== *)

Module ProjectSpec.
Import Json.

(** The conditions the specification states for a ProjectSpec document,
    read off a JSON document: [pages] with the components and the api
    routes each page refers to, and the top-level lists [components]
    and [apiRoutes]. *)

(** The array under key [k], empty when there is none. *)
Definition items (k : string) (j : json) : list json :=
  match j with
  | JObject members =>
      match member k members with
      | Some (JArray l) => l
      | _ => []
      end
  | _ => []
  end.

Definition text (k : string) (j : json) : option string :=
  match j with
  | JObject members =>
      match member k members with
      | Some (JString s) => Some s
      | _ => None
      end
  | _ => None
  end.

Fixpoint strings (l : list json) : list string :=
  match l with
  | [] => []
  | JString s :: rest => s :: strings rest
  | _ :: rest => strings rest
  end.

Fixpoint somes (l : list (option string)) : list string :=
  match l with
  | [] => []
  | Some s :: rest => s :: somes rest
  | None :: rest => somes rest
  end.

Definition componentNames (doc : json) : list string :=
  somes (map (text "name") (items "components" doc)).

Definition routePaths (doc : json) : list string :=
  somes (map (text "path") (items "apiRoutes" doc)).

(** Every component and every api route a page refers to is in the
    corresponding top-level list. *)
Definition referencesClosed (doc : json) : bool :=
  forallb
    (fun page =>
       forallb (fun c => Js.inList c (componentNames doc))
               (strings (items "components" page))
       && forallb (fun r => Js.inList r (routePaths doc))
                  (strings (items "apiRoutes" page)))
    (items "pages" doc).

(** A document with the six fields of [SpecSchema], and with a page
    that refers to a component and to a route that no list holds. *)
Definition openReferences : json :=
  JObject
    [ ("name", JString "Todo");
      ("description", JString "A list of things to do");
      ("frontend", JArray [JString "TodoList"]);
      ("api", JObject [("/api/todos", JObject [("GET", JString "all todos")])]);
      ("dataModel", JObject [("Todo", JObject [("title", JString "string")])]);
      ("features", JArray [JString "lists"]);
      ("pages",
       JArray [JObject [ ("path", JString "/todos");
                         ("components", JArray [JString "Ghost"]);
                         ("apiRoutes", JArray [JString "/api/ghost"]) ]]);
      ("components", JArray []);
      ("apiRoutes", JArray []) ].

End ProjectSpec.

(* ===================================================================== *)
(** * Property order and the JSON a client receives *)
(* ===================================================================== *)

Module Wire.
Import Str Js Json.

Definition isDigit (c : ascii) : bool :=
  let n := nat_of_ascii c in ((48 <=? n) && (n <=? 57))%nat.

(** The number a string of digits writes. *)
Fixpoint digitsValue (acc : N) (s : string) : N :=
  match s with
  | "" => acc
  | String c t => digitsValue (acc * 10 + N.of_nat (nat_of_ascii c - 48)) t
  end.

Definition indexOf (k : string) : N := digitsValue 0 k.

(** An array index: the canonical decimal text of an integer below
    [2^32 - 1]. *)
Definition isArrayIndex (k : string) : bool :=
  match k with
  | "" => false
  | String c t =>
      all isDigit k
      && (negb (Ascii.eqb c "0") || isEmpty t)
      && (indexOf k <? 4294967295)%N
  end.

Fixpoint insertIndex {A : Type} (kv : string * A) (l : list (string * A))
  : list (string * A) :=
  match l with
  | [] => [kv]
  | x :: rest =>
      if (indexOf (fst kv) <=? indexOf (fst x))%N then kv :: l
      else x :: insertIndex kv rest
  end.

Fixpoint sortIndices {A : Type} (l : list (string * A)) : list (string * A) :=
  match l with
  | [] => []
  | kv :: rest => insertIndex kv (sortIndices rest)
  end.

(** OrdinaryOwnPropertyKeys: the array indices in ascending order, then
    the other keys in the order of their creation. *)
Definition propertyOrder {A : Type} (props : list (string * A))
  : list (string * A) :=
  (sortIndices (filter (fun kv => isArrayIndex (fst kv)) props)
   ++ filter (fun kv => negb (isArrayIndex (fst kv))) props)%list.

Fixpoint present {A : Type} (l : list (string * option A))
  : list (string * A) :=
  match l with
  | [] => []
  | (k, Some a) :: rest => (k, a) :: present rest
  | (_, None) :: rest => present rest
  end.

(** What [JSON.parse] gives for the text the serialiser writes for [v],
    where it writes one.  Own properties are written in property
    order; a property holding [undefined] or a function is left out;
    prototypes are not written.  [None]: nothing is written for [v]
    itself. *)
Fixpoint roundTrip (v : value) : option json :=
  match v with
  | VUndefined => None
  | VFunction _ => None
  | VString s => Some (JString s)
  | VObjectPrototype => Some (JObject [])
  | VObject _ props =>
      Some (JObject
              (propertyOrder
                 (present
                    (map (fun kv => (fst kv, roundTrip (snd kv))) props))))
  end.

(** What [await response.json()] gives a client for
    [NextResponse.json(v)]: the value as written, where the
    serialisation returns ([serialises]); where it throws no such
    response exists, and the client receives none ([None]). *)
Definition wire (serialises : value -> bool) (v : value) : option json :=
  if serialises v then roundTrip v else None.

(** Truthiness of a parsed value.  A number is carried as
    [Number.prototype.toString] writes it, so zero of either sign is
    the text [0]; [JSON.parse] gives no NaN. *)
Definition truthyJson (j : json) : bool :=
  match j with
  | JNull => false
  | JBool b => b
  | JNumber literal => negb (String.eqb literal "0")
  | JString s => negb (isEmpty s)
  | JArray _ | JObject _ => true
  end.

(** [j.k] on a parsed value other than [null]: objects answer with
    their member; [undefined] ([None]) otherwise, the keys read here
    being no property of arrays, strings, numbers or booleans. *)
Definition prop (k : string) (j : json) : option json :=
  match j with
  | JObject members => member k members
  | _ => None
  end.

Definition truthyOpt (j : option json) : bool :=
  match j with
  | Some v => truthyJson v
  | None => false
  end.

End Wire.

(* ===================================================================== *)
(** * The specification endpoint *)
(* ===================================================================== *)

Module SpecEndpoint.
Import Str Json Schema Wire.

Definition defaultPrompt : string := "Create a todo list application".

(** [ToString] as a template literal applies it.  An array is joined
    with commas, [null] elements giving the empty text; an object is
    [[object Object]] unless it has an own key [toString], which is no
    function in a parsed value and leaves no way to a primitive: a
    TypeError ([None]). *)
Fixpoint toText (j : json) : option string :=
  match j with
  | JNull => Some "null"
  | JBool true => Some "true"
  | JBool false => Some "false"
  | JNumber literal => Some literal
  | JString s => Some s
  | JArray items =>
      option_map (join ",")
        (traverse (fun item => match item with
                               | JNull => Some ""
                               | _ => toText item
                               end) items)
  | JObject members =>
      match member "toString" members with
      | Some _ => None
      | None => Some "[object Object]"
      end
  end.

(** The content of the user message:
    [`Generate ... app: ${prompt || "Create a todo list application"}`]. *)
Definition userContent (prompt : option json) : option string :=
  option_map
    (fun text =>
       "Generate a JSON specification for the following app: " ++ text)
    (if truthyOpt prompt
     then match prompt with Some j => toText j | None => None end
     else Some defaultPrompt).

(** The parsed spec as the client receives it: the keys of the schema
    in the order of their declaration, the keys of a record in
    property order. *)
Definition texts (l : list string) : json := JArray (map JString l).

Definition record (r : list (string * string)) : json :=
  JObject (propertyOrder (map (fun kv => (fst kv, JString (snd kv))) r)).

Definition records (r : list (string * list (string * string))) : json :=
  JObject (propertyOrder (map (fun kv => (fst kv, record (snd kv))) r)).

Definition specToJson (s : Spec.t) : json :=
  JObject
    [ ("name", JString (Spec.name s));
      ("description", JString (Spec.description s));
      ("frontend", texts (Spec.frontend s));
      ("api", records (Spec.api s));
      ("dataModel", records (Spec.dataModel s));
      ("features", texts (Spec.features s)) ].

Record World : Type :=
  { requestBody : option json;            (* await req.json(); None: it threw *)
    completion : Generate.Completion }.

(** A response, by the body the client receives. *)
Record Response : Type := { status : nat; payload : json }.

Definition failure : Response :=
  {| status := 500;
     payload :=
       JObject [("error",
                 JString "Failed to generate specification. Please try again.")] |}.

Definition success (spec : Spec.t) : Response :=
  {| status := 200; payload := specToJson spec |}.

(** [const { prompt } = await req.json()] *)
Definition destructurePrompt (requestBody : option json)
  : option (option json) :=
  match requestBody with
  | None => None
  | Some JNull => None
  | Some j => Some (prop "prompt" j)
  end.

Section Handler.

Variable JSON_parse : string -> option json.

(** The [try] block; [None] is any thrown error. *)
Definition tryBlock (w : World) : option Spec.t :=
  Generate.bind (destructurePrompt (requestBody w)) (fun prompt =>
  Generate.bind (userContent prompt) (fun _ =>
  Generate.bind (match completion w with
                 | Generate.CallFailed => None
                 | Generate.Message None => None
                 | Generate.Message (Some text) =>
                     if isEmpty text then None else Some text
                 end) (fun content =>
  Generate.bind (JSON_parse content) (fun parsedContent =>
  SpecSchema parsedContent)))).

Definition POST (w : World) : Response :=
  match tryBlock w with
  | Some spec => success spec
  | None => failure
  end.

End Handler.

End SpecEndpoint.

(* ===================================================================== *)
(** * The client page: from the responses to the mounted file system *)
(* ===================================================================== *)

Module Client.
Import Str Json Wire.

(** An entry of a WebContainerFileSystem: [{ file: { contents } }],
    where [contents] is what was read and may be [undefined], or
    [{ directory: ... }], the object [convertToWebContainerFS]
    returned: its prototype, when an entry named [__proto__] replaced
    it, and its own entries in the order of their creation. *)
Inductive node : Type :=
| File (contents : option json)
| Directory (proto : option node) (entries : list (string * node)).

Definition fileSystem : Type := (option node * list (string * node))%type.

(** [const result = {}] *)
Definition emptyFS : fileSystem := (None, []).

Fixpoint putEntry (name : string) (x : node) (entries : list (string * node))
  : list (string * node) :=
  match entries with
  | [] => [(name, x)]
  | (name', x') :: rest =>
      if String.eqb name name' then (name, x) :: rest
      else (name', x') :: putEntry name x rest
  end.

(** [result[name] = x]: the key [__proto__] sets the prototype. *)
Definition assign (result : fileSystem) (name : string) (x : node)
  : fileSystem :=
  if String.eqb name Js.protoKey then (Some x, snd result)
  else (fst result, putEntry name x (snd result)).

Fixpoint lookup {A : Type} (k : string) (l : list (string * A)) : option A :=
  match l with
  | [] => None
  | (k', a) :: rest => if String.eqb k k' then Some a else lookup k rest
  end.

(** The body of the loop for one entry; [converted] is the conversion
    of [content.directory] where [content] is an object that has this
    member.  [None] is a thrown TypeError: reading [file] of [null], or
    a throw of the conversion below. *)
Definition convertEntry (name : string) (content : json)
    (converted : option (option fileSystem)) (result : fileSystem)
  : option fileSystem :=
  match content with
  | JNull => None
  | _ =>
      let file := prop "file" content in
      if truthyOpt file
      then Some (assign result name
                   (File (match file with
                          | Some f => prop "contents" f
                          | None => None
                          end)))
      else if truthyOpt (prop "directory" content)
      then match converted with
           | Some (Some fs) =>
               Some (assign result name (Directory (fst fs) (snd fs)))
           | _ => None
           end
      else Some result
  end.

Section Entries.

(** The conversion applied to [content.directory]. *)
Variable convert : json -> option fileSystem.

Definition convertDirectory (content : json) : option (option fileSystem) :=
  match content with
  | JObject inner =>
      lookup "directory" (map (fun kv => (fst kv, convert (snd kv))) inner)
  | _ => None
  end.

(** The loop over the entries of an object. *)
Fixpoint convertMembers (entries : list (string * json))
    (result : fileSystem) : option fileSystem :=
  match entries with
  | [] => Some result
  | (name, content) :: rest =>
      match convertEntry name content (convertDirectory content) result with
      | Some result' => convertMembers rest result'
      | None => None
      end
  end.

(** The loop over the entries of an array, from [index]. *)
Fixpoint convertItems (index : nat) (entries : list json)
    (result : fileSystem) : option fileSystem :=
  match entries with
  | [] => Some result
  | content :: rest =>
      match
        convertEntry (ofNat index) content (convertDirectory content) result
      with
      | Some result' => convertItems (S index) rest result'
      | None => None
      end
  end.

End Entries.

(** [convertToWebContainerFS]: [Object.entries] of an object are its
    members, of an array its items under their indices; those of a
    string are its characters, which are no entries, and a number or a
    boolean has none; [Object.entries(null)] throws. *)
Fixpoint convertToWebContainerFS (structure : json) : option fileSystem :=
  match structure with
  | JNull => None
  | JObject members =>
      convertMembers convertToWebContainerFS members emptyFS
  | JArray items => convertItems convertToWebContainerFS 0 items emptyFS
  | _ => Some emptyFS
  end.

(** The component state the two handlers write, and the container:
    whether [webcontainerInstance.current] holds one, and the file
    systems mounted into it, the latest first.  [spec] and [files]
    hold what a response carried, [null] at first. *)
Record State : Type :=
  { spec : json;
    files : json;
    loading : bool;
    error : option string;
    instance : bool;
    mounts : list fileSystem;
    showDevEnv : bool }.

Definition initialState : State :=
  {| spec := JNull; files := JNull; loading := false; error := None;
     instance := false; mounts := []; showDevEnv := false |}.

Section Handlers.

(** [await (await fetch(url, { body: JSON.stringify(body) })).json()]
    for the two endpoints; [None]: the fetch or the parse rejected. *)
Variable fetchSpec : json -> option json.
Variable fetchGenerate : json -> option json.

(** Whether [WebContainer.boot()] resolves, and whether [mount] does
    for a file system. *)
Variable boot : bool.
Variable mount : fileSystem -> bool.

Definition processFailed : string :=
  "Failed to process prompt. Please try again.".

Definition initializeFailed : string :=
  "Failed to initialize development environment. Please try again.".

(** [handlePromptSubmit], with the prompt the state holds. *)
Definition handlePromptSubmit (prompt : string) (s : State) : State :=
  match fetchSpec (JObject [("prompt", JString prompt)]) with
  | None =>
      {| spec := spec s; files := files s; loading := false;
         error := Some processFailed;
         instance := instance s; mounts := mounts s;
         showDevEnv := showDevEnv s |}
  | Some specData =>
      match fetchGenerate (JObject [("spec", specData)]) with
      | None =>
          {| spec := specData; files := files s; loading := false;
             error := Some processFailed;
             instance := instance s; mounts := mounts s;
             showDevEnv := showDevEnv s |}
      | Some generatedFiles =>
          {| spec := specData; files := generatedFiles; loading := false;
             error := None;
             instance := instance s; mounts := mounts s;
             showDevEnv := showDevEnv s |}
      end
  end.

(** [initializeWebContainer] *)
Definition initializeWebContainer (s : State) : State :=
  let failed (instance' : bool) :=
    {| spec := spec s; files := files s; loading := false;
       error := Some initializeFailed;
       instance := instance'; mounts := mounts s;
       showDevEnv := showDevEnv s |} in
  if negb (truthyJson (files s)) then s
  else if negb (instance s) && negb boot then failed false
  else
    match convertToWebContainerFS (files s) with
    | None => failed true
    | Some fs =>
        if mount fs
        then {| spec := spec s; files := files s; loading := false;
                error := None;
                instance := true; mounts := fs :: mounts s;
                showDevEnv := true |}
        else failed true
    end.

End Handlers.

(** The file system as a structure again: each entry by its shape. *)
Fixpoint asStructure (x : node) : json :=
  match x with
  | File contents =>
      JObject [("file",
                JObject (match contents with
                         | Some c => [("contents", c)]
                         | None => []
                         end))]
  | Directory _ entries =>
      JObject [("directory",
                JObject (map (fun kv => (fst kv, asStructure (snd kv)))
                             entries))]
  end.

Definition structureOf (fs : fileSystem) : json :=
  JObject (map (fun kv => (fst kv, asStructure (snd kv))) (snd fs)).

End Client.

(* ===================================================================== *)
(** * Notions used to state further properties *)
(* ===================================================================== *)

Module Notions.
Import Str Js Json Schema Generate Wire.

(** No character of a path part is a slash. *)
Definition noSlash (part : string) : bool :=
  all (fun c => negb (Ascii.eqb c slash)) part.

(** An upper-case letter that [toLowerCase] changes. *)
Definition isUpper (c : ascii) : bool :=
  let n := nat_of_ascii c in
  (((65 <=? n) && (n <=? 90))
   || ((192 <=? n) && (n <=? 222) && negb (n =? 215)))%nat.

Definition packageSafe (c : ascii) : bool :=
  negb (isWhiteSpace c) && negb (isUpper c).

(** [`util${index + 1}.ts`] *)
Definition utilName (index : nat) : string :=
  "util" ++ ofNat (index + 1) ++ ".ts".

(** The entries the reduce over the utilities creates, from [index]. *)
Fixpoint numbered (index : nat) (utils : list string)
  : list (string * value) :=
  match utils with
  | [] => []
  | util :: rest =>
      (utilName index, fileEntry util) :: numbered (S index) rest
  end.

(** The last component of the list that has the name. *)
Fixpoint lastNamed (name : string) (components : list Component.t)
  : option Component.t :=
  match components with
  | [] => None
  | c :: rest =>
      match lastNamed name rest with
      | Some c' => Some c'
      | None => if String.eqb name (Component.name c) then Some c else None
      end
  end.

(** A path part that is no inherited method name, not [__proto__] and
    not the name of the handler file. *)
Definition ordinaryPart (part : string) : bool :=
  negb (inList part objectPrototypeMethods)
  && negb (String.eqb part protoKey)
  && negb (String.eqb part "route.ts").

Definition ordinaryRoute (route : ApiRoute.t) : bool :=
  forallb ordinaryPart (pathParts route).

(** [{ contents: s }] *)
Definition isContents (v : value) : bool :=
  match v with
  | VObject VObjectPrototype [(c, VString _)] => String.eqb c "contents"
  | _ => false
  end.

(** What [routeTree] asks of one own property. *)
Definition routeEntry (routeTree : value -> bool) (kv : string * value)
  : bool :=
  match snd kv with
  | VObject VObjectPrototype [(k, d)] =>
      if String.eqb (fst kv) "route.ts"
      then String.eqb k "file" && isContents d
      else String.eqb k "directory" && routeTree d
  | _ => false
  end.

(** A tree of directories and handler files as the walk builds it from
    ordinary parts: under [route.ts] a file, under any other key a
    directory of the same kind. *)
Fixpoint routeTree (v : value) : bool :=
  match v with
  | VObject VObjectPrototype props => forallb (routeEntry routeTree) props
  | _ => false
  end.

(** What [structured] asks of one own property. *)
Definition structuredEntry (structured : value -> bool) (kv : string * value)
  : bool :=
  negb (String.eqb (fst kv) protoKey)
  && match snd kv with
     | VObject VObjectPrototype [(k, d)] =>
         (String.eqb k "file" && isContents d)
         || (String.eqb k "directory" && structured d)
     | _ => false
     end.

(** A tree of the handler in which every entry is exactly a file with
    its contents or a directory of such entries. *)
Fixpoint structured (v : value) : bool :=
  match v with
  | VObject VObjectPrototype props =>
      distinct (map fst props) && forallb (structuredEntry structured) props
  | _ => false
  end.

(** [{ contents: s }] as a client receives it. *)
Definition isFileBody (j : json) : bool :=
  match j with
  | JObject [(c, JString _)] => String.eqb c "contents"
  | _ => false
  end.

(** What [canonical] asks of one member. *)
Definition structureEntry (canonical : json -> bool) (kv : string * json)
  : bool :=
  negb (String.eqb (fst kv) protoKey)
  && match snd kv with
     | JObject [(k, d)] =>
         (String.eqb k "file" && isFileBody d)
         || (String.eqb k "directory" && canonical d)
     | _ => false
     end.

(** A file structure in which every entry is exactly a file with its
    contents or a directory of such entries, under distinct names none
    of which is [__proto__]. *)
Fixpoint canonical (j : json) : bool :=
  match j with
  | JObject members =>
      distinct (map fst members) && forallb (structureEntry canonical) members
  | _ => false
  end.

(** What the conversion of a canonical structure gives. *)
Definition converts (j : json) : Prop :=
  canonical j = true ->
  exists entries,
    Client.convertToWebContainerFS j = Some (None, entries)
    /\ Client.structureOf (None, entries) = j.

(** What a client receives for a structured tree. *)
Definition wires (v : value) : Prop :=
  structured v = true ->
  exists members,
    roundTrip v = Some (JObject members)
    /\ canonical (JObject members) = true.

(** A record of records with the keys of both levels in property
    order. *)
Definition ordered (r : list (string * list (string * string)))
  : list (string * list (string * string)) :=
  map (fun kv => (fst kv, propertyOrder (snd kv))) (propertyOrder r).

(** No key of a record is [__proto__]. *)
Definition noProto {A : Type} (r : list (string * A)) : bool :=
  forallb (fun kv => negb (String.eqb (fst kv) protoKey)) r.

End Notions.

(* ===================================================================== *)
(** * Facts about strings *)
(* ===================================================================== *)

Module StrFacts.
Import Str.

Lemma app_nil_r (s : string) : s ++ "" = s.
Proof. induction s; simpl; congruence. Qed.

Lemma app_assoc (a b c : string) : (a ++ b) ++ c = a ++ b ++ c.
Proof. induction a; simpl; congruence. Qed.

Lemma length_app (a b : string) :
  String.length (a ++ b) = String.length a + String.length b.
Proof. induction a; simpl; congruence. Qed.

Lemma get_app_lt (a b : string) (k : nat) :
  k < String.length a -> String.get k (a ++ b) = String.get k a.
Proof.
  revert k; induction a as [|c a IH]; simpl; intros k Hk; [lia|].
  destruct k; [reflexivity|]. apply IH. lia.
Qed.

Lemma get_app_ge (a b : string) (k : nat) :
  String.get (String.length a + k) (a ++ b) = String.get k b.
Proof. induction a as [|c a IH]; simpl; auto. Qed.

Lemma all_app (p : ascii -> bool) (a b : string) :
  all p (a ++ b) = all p a && all p b.
Proof.
  induction a as [|c a IH]; simpl; [reflexivity|].
  rewrite IH. apply andb_assoc.
Qed.

Lemma all_impl (p q : ascii -> bool) (s : string) :
  (forall c, p c = true -> q c = true) ->
  all p s = true -> all q s = true.
Proof.
  intros Hpq. induction s as [|c s IH]; simpl; [reflexivity|].
  intros H. apply andb_prop in H as [Hc Hs].
  rewrite (Hpq _ Hc), (IH Hs). reflexivity.
Qed.

End StrFacts.

(* ===================================================================== *)
(** * Facts about the scan of sanitizeRoutePath *)
(* ===================================================================== *)

Module RouteFacts.
Import Str StrFacts Route.


Lemma word_notLbrace (c : ascii) : isWordChar c = true -> notLbrace c = true.
Proof.
  unfold notLbrace. destruct (Ascii.eqb_spec c lbrace) as [->|]; auto.
Qed.

Lemma word_notBrace (c : ascii) : isWordChar c = true -> notBrace c = true.
Proof.
  unfold notBrace.
  destruct (Ascii.eqb_spec c lbrace) as [->|]; [discriminate|].
  destruct (Ascii.eqb_spec c rbrace) as [->|]; [discriminate|auto].
Qed.

(** ** The word run *)

Lemma wordRun_spec (s : string) :
  s = fst (wordRun s) ++ snd (wordRun s)
  /\ all isWordChar (fst (wordRun s)) = true
  /\ startsWith1 isWordChar (snd (wordRun s)) = false.
Proof.
  induction s as [|c t IH]; simpl; [auto|].
  destruct (isWordChar c) eqn:Hc; simpl; [|auto].
  destruct (wordRun t) as [w r]; simpl in *.
  destruct IH as (-> & Hw & Hr). rewrite Hc, Hw. auto.
Qed.

Lemma wordRun_app (w r : string) :
  all isWordChar w = true -> startsWith1 isWordChar r = false ->
  wordRun (w ++ r) = (w, r).
Proof.
  intros Hw Hr. induction w as [|c w IH]; simpl in *.
  - destruct r as [|d r]; simpl in *; [reflexivity|]. rewrite Hr. reflexivity.
  - apply andb_prop in Hw as [Hc Hw]. rewrite Hc, (IH Hw). reflexivity.
Qed.

(** ** One match attempt *)

Lemma matchParam_param (name rest : string) :
  name <> "" -> all isWordChar name = true ->
  matchParam (String lbrace (name ++ String rbrace rest)) = Some (name, rest).
Proof.
  intros Hne Hw. unfold matchParam.
  rewrite Ascii.eqb_refl, wordRun_app by (auto; reflexivity).
  destruct name; [congruence|]. rewrite Ascii.eqb_refl. reflexivity.
Qed.

Lemma matchParam_inv (s name rest : string) :
  matchParam s = Some (name, rest) ->
  s = String lbrace (name ++ String rbrace rest)
  /\ name <> "" /\ all isWordChar name = true.
Proof.
  destruct s as [|c t]; simpl; [discriminate|].
  destruct (Ascii.eqb_spec c lbrace) as [->|]; [|discriminate].
  destruct (wordRun_spec t) as (Ht & Hw & _).
  destruct (wordRun t) as [[|n w] [|d r]]; try discriminate.
  destruct (Ascii.eqb_spec d rbrace) as [->|]; [|discriminate].
  intros E; injection E as <- <-. simpl in *. rewrite Ht.
  split; [reflexivity|]. split; [discriminate | assumption].
Qed.

Lemma matchParam_other (c : ascii) (t : string) :
  Ascii.eqb c lbrace = false -> matchParam (String c t) = None.
Proof. intros H; simpl; rewrite H; reflexivity. Qed.

(** A failed attempt at an opening brace, read off the word run. *)
Lemma matchParam_lbrace (t : string) :
  matchParam (String lbrace t) =
  if negb (isEmpty (fst (wordRun t)))
     && startsWith1 isRbrace (snd (wordRun t))
  then Some (fst (wordRun t),
             match snd (wordRun t) with "" => "" | String _ r => r end)
  else None.
Proof.
  unfold matchParam. rewrite Ascii.eqb_refl.
  destruct (wordRun t) as [[|n w] [|d r]]; simpl; reflexivity.
Qed.

(** ** The defining equations of the scan *)

Lemma replaceParams_clause (c : ascii) (t : string)
    (r : { b | matchParam (String c t) = b }) :
  replaceParams_unfold_clause_2 c t r =
  match proj1_sig r with
  | Some (name, rest) =>
      String lbracket (name ++ String rbracket (replaceParams rest))
  | None => String c (replaceParams t)
  end.
Proof. destruct r as [[[n r']|] e]; reflexivity. Qed.

Lemma replaceParams_step (c : ascii) (t : string) :
  replaceParams (String c t) =
  match matchParam (String c t) with
  | Some (name, rest) =>
      String lbracket (name ++ String rbracket (replaceParams rest))
  | None => String c (replaceParams t)
  end.
Proof. rewrite replaceParams_equation_2, replaceParams_clause. reflexivity. Qed.

Lemma replaceParams_copy (c : ascii) (t : string) :
  matchParam (String c t) = None ->
  replaceParams (String c t) = String c (replaceParams t).
Proof. intros H. rewrite replaceParams_step, H. reflexivity. Qed.

Lemma replaceParams_param (name rest : string) :
  name <> "" -> all isWordChar name = true ->
  replaceParams (String lbrace (name ++ String rbrace rest))
  = String lbracket (name ++ String rbracket (replaceParams rest)).
Proof.
  intros Hne Hw. rewrite replaceParams_step, matchParam_param by assumption.
  reflexivity.
Qed.

(** Induction along the scan: the empty string, a copied character,
    a replaced parameter. *)
Lemma scan_ind (P : string -> Prop) :
  P "" ->
  (forall c t, matchParam (String c t) = None -> P t -> P (String c t)) ->
  (forall name rest, name <> "" -> all isWordChar name = true ->
      P rest -> P (String lbrace (name ++ String rbrace rest))) ->
  forall s, P s.
Proof.
  intros Hnil Hcopy Hparam s.
  remember (String.length s) as n eqn:Hn. revert s Hn.
  induction n as [n IH] using lt_wf_ind. intros s ->.
  destruct s as [|c t]; [exact Hnil|].
  destruct (matchParam (String c t)) as [[name rest]|] eqn:E.
  - pose proof (matchParam_shorter _ _ _ E) as Hlt.
    apply matchParam_inv in E as (-> & Hne & Hw).
    apply Hparam; auto. eapply IH; [exact Hlt | reflexivity].
  - apply Hcopy; [exact E|]. eapply IH; [|reflexivity]. simpl; lia.
Qed.

(** ** Text without an opening brace is copied *)

Lemma replaceParams_notLbrace (u r : string) :
  all notLbrace u = true ->
  replaceParams (u ++ r) = u ++ replaceParams r.
Proof.
  induction u as [|c u IH]; simpl; intros H; [reflexivity|].
  apply andb_prop in H as [Hc Hu].
  rewrite replaceParams_copy, (IH Hu); [reflexivity|].
  apply matchParam_other. unfold notLbrace in Hc.
  destruct (Ascii.eqb c lbrace); [discriminate|reflexivity].
Qed.

Lemma replaceParams_word (w r : string) :
  all isWordChar w = true ->
  replaceParams (w ++ r) = w ++ replaceParams r.
Proof.
  intros H. apply replaceParams_notLbrace.
  revert H. apply all_impl, word_notLbrace.
Qed.

(** ** The first character of the result *)

Lemma replaceParams_head (s : string) :
  match s with
  | "" => replaceParams s = ""
  | String c t =>
      exists u, replaceParams s = String c u
                \/ (c = lbrace /\ replaceParams s = String lbracket u)
  end.
Proof.
  destruct s as [|c t]; [reflexivity|].
  rewrite replaceParams_step.
  destruct (matchParam (String c t)) as [[name rest]|] eqn:E.
  - apply matchParam_inv in E as (E & _ & _). injection E as -> _.
    eexists; right; split; reflexivity.
  - eexists; left; reflexivity.
Qed.

Lemma startsWith1_replaceParams (p : ascii -> bool) (s : string) :
  p lbrace = false -> p lbracket = false ->
  startsWith1 p (replaceParams s) = startsWith1 p s.
Proof.
  intros H1 H2. pose proof (replaceParams_head s) as H.
  destruct s as [|c t]; [rewrite H; reflexivity|].
  destruct H as [u [-> | [-> ->]]]; simpl; congruence.
Qed.

(** ** A failed attempt stays failed after the scan of what follows *)

Lemma matchParam_None_replaceParams (c : ascii) (t : string) :
  matchParam (String c t) = None ->
  matchParam (String c (replaceParams t)) = None.
Proof.
  destruct (Ascii.eqb_spec c lbrace) as [->|Hc].
  2:{ intros _. apply matchParam_other. apply Ascii.eqb_neq. exact Hc. }
  rewrite !matchParam_lbrace.
  destruct (wordRun_spec t) as (Ht & Hw & Hr).
  destruct (wordRun t) as [w r]; simpl in *. subst t.
  rewrite replaceParams_word by assumption.
  rewrite wordRun_app; [simpl|assumption|].
  2:{ rewrite startsWith1_replaceParams by reflexivity. assumption. }
  rewrite startsWith1_replaceParams by reflexivity.
  destruct (negb (isEmpty w) && startsWith1 isRbrace r); [discriminate|].
  reflexivity.
Qed.

(** ** Idempotence *)

Lemma replaceParams_idempotent (s : string) :
  replaceParams (replaceParams s) = replaceParams s.
Proof.
  induction s as [|c t Hnone IH|name rest Hne Hw IH] using scan_ind.
  - reflexivity.
  - rewrite (replaceParams_copy _ _ Hnone).
    rewrite replaceParams_copy, IH; [reflexivity|].
    apply matchParam_None_replaceParams, Hnone.
  - rewrite replaceParams_param by assumption.
    rewrite replaceParams_copy by (apply matchParam_other; reflexivity).
    rewrite replaceParams_word by assumption.
    rewrite replaceParams_copy by (apply matchParam_other; reflexivity).
    rewrite IH. reflexivity.
Qed.

(** ** The scan of a concatenation *)

Lemma wordRun_app_rest (t b w r : string) (d : ascii) :
  wordRun t = (w, String d r) -> wordRun (t ++ b) = (w, String d r ++ b).
Proof.
  revert w. induction t as [|c t IH]; simpl; intros w; [discriminate|].
  destruct (isWordChar c).
  - destruct (wordRun t) as [w' r'] eqn:E. intros H; injection H as <- ->.
    rewrite (IH w' eq_refl). reflexivity.
  - intros H; injection H as <- <- <-. reflexivity.
Qed.


Lemma matchParam_None_app (c : ascii) (t b : string) :
  startsWith1 wordOrRbrace b = false ->
  matchParam (String c t) = None ->
  matchParam (String c (t ++ b)) = None.
Proof.
  intros Hb. destruct (Ascii.eqb_spec c lbrace) as [->|Hc].
  2:{ intros _. apply matchParam_other. apply Ascii.eqb_neq. exact Hc. }
  rewrite !matchParam_lbrace.
  destruct (wordRun_spec t) as (Ht & Hw & Hr).
  destruct (wordRun t) as [w [|d r]] eqn:E; simpl in *.
  - rewrite StrFacts.app_nil_r in Ht. subst t.
    assert (Hb1 : startsWith1 isWordChar b = false).
    { destruct b; simpl in *; [reflexivity|].
      unfold wordOrRbrace in Hb. apply orb_false_elim in Hb. tauto. }
    assert (Hb2 : startsWith1 isRbrace b = false).
    { destruct b; simpl in *; [reflexivity|].
      unfold wordOrRbrace in Hb. apply orb_false_elim in Hb. tauto. }
    rewrite wordRun_app by assumption. simpl. rewrite Hb2, andb_false_r.
    reflexivity.
  - rewrite (wordRun_app_rest _ b _ _ _ E). simpl.
    destruct (negb (isEmpty w) && isRbrace d); [discriminate|reflexivity].
Qed.

Lemma replaceParams_app (a b : string) :
  startsWith1 wordOrRbrace b = false ->
  replaceParams (a ++ b) = replaceParams a ++ replaceParams b.
Proof.
  intros Hb.
  induction a as [|c t Hnone IH|name rest Hne Hw IH] using scan_ind.
  - reflexivity.
  - simpl. rewrite (replaceParams_copy _ _ Hnone).
    rewrite replaceParams_copy by (apply matchParam_None_app; assumption).
    rewrite IH. reflexivity.
  - simpl. rewrite StrFacts.app_assoc. simpl.
    rewrite !replaceParams_param by assumption.
    rewrite IH. simpl. rewrite StrFacts.app_assoc. reflexivity.
Qed.

(** ** Brace segments *)

Lemma wordRun_all (w : string) :
  all isWordChar w = true -> wordRun w = (w, "").
Proof.
  intros H. rewrite <- (StrFacts.app_nil_r w) at 1.
  apply wordRun_app; auto.
Qed.

(** A brace segment whose text holds no brace and is not a non-empty
    run of word characters does not match. *)
Lemma matchParam_not_word (seg b : string) :
  all notBrace seg = true ->
  negb (isEmpty seg) && all isWordChar seg = false ->
  matchParam (String lbrace (seg ++ String rbrace b)) = None.
Proof.
  intros Hnb Hnw. rewrite matchParam_lbrace.
  destruct (wordRun_spec seg) as (Hs & Hw & Hr).
  destruct (wordRun seg) as [w [|d r]] eqn:E; simpl in *.
  - rewrite StrFacts.app_nil_r in Hs. subst w. rewrite Hw in Hnw.
    destruct seg; [reflexivity|discriminate].
  - rewrite (wordRun_app_rest _ _ _ _ _ E). simpl.
    rewrite Hs, all_app in Hnb. apply andb_prop in Hnb as [_ Hnb].
    simpl in Hnb. apply andb_prop in Hnb as [Hd _].
    unfold notBrace in Hd. apply andb_prop in Hd as [_ Hd].
    unfold isRbrace. destruct (Ascii.eqb d rbrace); [discriminate|].
    rewrite andb_false_r. reflexivity.
Qed.


Lemma replaceParams_segment (a seg b : string) :
  all notBrace seg = true ->
  replaceParams (a ++ String lbrace (seg ++ String rbrace b))
  = replaceParams a ++ convertSegment seg ++ replaceParams b.
Proof.
  intros Hnb. rewrite replaceParams_app by reflexivity. f_equal.
  unfold convertSegment.
  destruct (negb (isEmpty seg) && all isWordChar seg) eqn:Hc.
  - apply andb_prop in Hc as [Hne Hw].
    rewrite replaceParams_param; [|destruct seg; [discriminate|congruence]|assumption].
    simpl. rewrite StrFacts.app_assoc. reflexivity.
  - rewrite replaceParams_copy by (apply matchParam_not_word; assumption).
    simpl. f_equal.
    change (String rbrace b) with (String rbrace "" ++ b).
    rewrite <- !StrFacts.app_assoc.
    apply replaceParams_notLbrace.
    rewrite all_app. simpl. rewrite andb_true_r.
    revert Hnb. apply all_impl. unfold notBrace, notLbrace. intros c H.
    apply andb_prop in H as [H _]. exact H.
Qed.

(** ** Paths without a parameter *)


Lemma hasParam_spec (p : string) : hasParam p = true <-> ParamSegment p.
Proof.
  split.
  - induction p as [|c t IH]; [discriminate|].
    cbn [hasParam].
    destruct (matchParam (String c t)) as [[name rest]|] eqn:E.
    + intros _. apply matchParam_inv in E as (E & Hne & Hw).
      exists "", name, rest. auto.
    + intros H. destruct (IH H) as (a & name & b & -> & Hne & Hw).
      exists (String c a), name, b. auto.
  - intros (a & name & b & -> & Hne & Hw).
    induction a as [|c a IH]; cbn [hasParam append].
    + rewrite matchParam_param by assumption. reflexivity.
    + destruct (matchParam _); [reflexivity|exact IH].
Qed.

Lemma replaceParams_unchanged (p : string) :
  ~ ParamSegment p -> replaceParams p = p.
Proof.
  induction p as [|c t Hnone IH|name rest Hne Hw IH] using scan_ind;
    intros Hno.
  - reflexivity.
  - rewrite (replaceParams_copy _ _ Hnone), IH; [reflexivity|].
    intros (a & name & b & -> & Hne & Hw). apply Hno.
    exists (String c a), name, b. auto.
  - exfalso. apply Hno. exists "", name, rest. auto.
Qed.

(** ** The frame of the rewrite *)


Lemma Delimits_cons (c : ascii) (t : string) (i j : nat) :
  Delimits t i j -> Delimits (String c t) (S i) (S j).
Proof.
  intros (a & name & b & -> & Hne & Hw & -> & ->).
  exists (String c a), name, b. simpl. auto.
Qed.

Lemma Delimits_after (name rest : string) (i j : nat) :
  name <> "" -> all isWordChar name = true ->
  Delimits rest i j ->
  Delimits (String lbrace (name ++ String rbrace rest))
           (String.length name + 2 + i) (String.length name + 2 + j).
Proof.
  intros Hn Hwn (a & nm & b & -> & Hne & Hw & -> & ->).
  exists (String lbrace (name ++ String rbrace a)), nm, b.
  repeat split; auto.
  - simpl. rewrite StrFacts.app_assoc. reflexivity.
  - simpl. rewrite length_app. simpl. lia.
  - simpl. rewrite length_app. simpl. lia.
Qed.

Lemma replaceParams_frame (p : string) :
  String.length (replaceParams p) = String.length p
  /\ forall k, FrameAt p (replaceParams p) k.
Proof.
  induction p as [|c t Hnone [IHl IH]|name rest Hne Hw [IHl IH]]
    using scan_ind.
  - split; [reflexivity|]. intros k; left; reflexivity.
  - rewrite (replaceParams_copy _ _ Hnone). split; [simpl; congruence|].
    intros [|k]; [left; reflexivity|].
    destruct (IH k) as [E | (i & j & D & H)]; [left; exact E|].
    right. exists (S i), (S j). split; [apply Delimits_cons, D|].
    simpl. destruct H as [(-> & H)|(-> & H)]; [left|right]; auto.
  - rewrite replaceParams_param by assumption. split.
    { simpl. rewrite !length_app. simpl. congruence. }
    assert (D0 : Delimits (String lbrace (name ++ String rbrace rest))
                   0 (String.length name + 1)).
    { exists "", name, rest. simpl. auto. }
    intros [|k].
    { right. exists 0, (String.length name + 1). split; [exact D0|].
      left. auto. }
    destruct (Nat.lt_ge_cases k (String.length name)) as [Hlt|Hge].
    { left. cbn [String.get]. rewrite !get_app_lt by assumption.
      reflexivity. }
    replace k with (String.length name + (k - String.length name)) by lia.
    remember (k - String.length name) as m eqn:Hm. clear Hm Hge k.
    unfold FrameAt. cbn [String.get].
    rewrite !get_app_ge. destruct m as [|m].
    { right. exists 0, (String.length name + 1). split; [exact D0|].
      right. split; [lia|]. split; reflexivity. }
    cbn [String.get].
    destruct (IH m) as [E | (i & j & D & H)]; [left; exact E|].
    right. exists (String.length name + 2 + i), (String.length name + 2 + j).
    split; [apply Delimits_after; assumption|].
    destruct H as [(-> & H)|(-> & H)]; [left|right]; (split; [lia|exact H]).
Qed.

End RouteFacts.

(* ===================================================================== *)
(** * Facts about objects *)
(* ===================================================================== *)

Module JsFacts.
Import Js.

Lemma plain_obj (props : list (string * value)) :
  plain (VObject VObjectPrototype props) = plainProps props.
Proof. reflexivity. Qed.

Lemma plain_inv (v : value) :
  plain v = true ->
  (exists s, v = VString s)
  \/ (exists props, v = VObject VObjectPrototype props
                    /\ plainProps props = true).
Proof.
  destruct v as [|s| |n|proto props]; try discriminate.
  - intros _. left. eauto.
  - destruct proto; try discriminate. intros H. right. eauto.
Qed.

Lemma ownProp_putOwn_same (k : string) (v : value)
    (props : list (string * value)) :
  ownProp k (putOwn k v props) = Some v.
Proof.
  induction props as [|[k' v'] rest IH]; simpl.
  - rewrite String.eqb_refl. reflexivity.
  - destruct (String.eqb k k') eqn:E; simpl.
    + rewrite String.eqb_refl. reflexivity.
    + rewrite E. exact IH.
Qed.

Lemma ownProp_putOwn_other (k k' : string) (v : value)
    (props : list (string * value)) :
  String.eqb k' k = false ->
  ownProp k' (putOwn k v props) = ownProp k' props.
Proof.
  intros Hk. induction props as [|[k0 v0] rest IH]; simpl.
  - rewrite Hk. reflexivity.
  - destruct (String.eqb k k0) eqn:E; simpl.
    + apply String.eqb_eq in E. subst k0. rewrite Hk. reflexivity.
    + rewrite IH. reflexivity.
Qed.

Lemma plainProps_putOwn (k : string) (v : value)
    (props : list (string * value)) :
  plain v = true -> plainProps props = true ->
  plainProps (putOwn k v props) = true.
Proof.
  intros Hv. unfold plainProps.
  induction props as [|[k' v'] rest IH]; simpl.
  - rewrite Hv. reflexivity.
  - intros H. apply andb_prop in H as [H1 H2].
    destruct (String.eqb k k'); simpl.
    + rewrite Hv, H2. reflexivity.
    + rewrite H1, (IH H2). reflexivity.
Qed.

Lemma plainProps_ownProp (k : string) (v : value)
    (props : list (string * value)) :
  plainProps props = true -> ownProp k props = Some v -> plain v = true.
Proof.
  unfold plainProps. induction props as [|[k' v'] rest IH]; simpl.
  - discriminate.
  - intros H. apply andb_prop in H as [H1 H2].
    destruct (String.eqb k k').
    + intros E; injection E as <-. exact H1.
    + apply IH, H2.
Qed.

(** Writing a key other than [__proto__] on a plain object. *)
Lemma setProp_plain (o : value) (k : string) (v o' : value) :
  plain o = true -> String.eqb k protoKey = false ->
  setProp o k v = Some o' ->
  exists props, o = VObject VObjectPrototype props
                /\ plainProps props = true
                /\ o' = VObject VObjectPrototype (putOwn k v props).
Proof.
  intros Hp Hk. destruct (plain_inv o Hp) as [[s ->]|(props & -> & Hps)].
  - discriminate.
  - unfold setProp. rewrite Hk.
    destruct (ownProp k props); intros E; injection E as <-; eauto.
Qed.

(** Reading a key other than [__proto__] on a plain object finds an own
    property, a method of [Object.prototype], or nothing. *)
Lemma focus_plain (props : list (string * value)) (k : string) :
  String.eqb k protoKey = false ->
  focus (VObject VObjectPrototype props) k =
  match ownProp k props with
  | Some v => (v, fun v' => VObject VObjectPrototype (putOwn k v' props))
  | None =>
      (if inList k objectPrototypeMethods then VFunction k else VUndefined,
       fun _ => VObject VObjectPrototype props)
  end.
Proof.
  intros Hk. unfold focus. simpl. rewrite Hk.
  destruct (ownProp k props); reflexivity.
Qed.

Lemma directory_not_inherited :
  inList "directory" objectPrototypeMethods = false.
Proof. reflexivity. Qed.

End JsFacts.

(* ===================================================================== *)
(** * Facts about the assembly *)
(* ===================================================================== *)

Module GenerateFacts.
Import Str Js JsFacts Schema Generate.

Lemma bind_Some {A B : Type} (x : option A) (f : A -> option B) (b : B) :
  bind x f = Some b -> exists a, x = Some a /\ f a = Some b.
Proof. destruct x; simpl; [eauto|discriminate]. Qed.

Lemma forEachPart_undefined (methods : string) (parts : list string) :
  parts <> [] -> forEachPart methods parts VUndefined = None.
Proof. destruct parts as [|part [|part2 rest]]; [congruence| |]; reflexivity. Qed.

Lemma forEachPart_cons2 (methods part part2 : string) (rest : list string)
    (cur : value) :
  forEachPart methods (part :: part2 :: rest) cur =
  bind (getProp cur part) (fun existing =>
  bind (if truthy existing then Some cur
        else setProp cur part (dirEntry (obj []))) (fun current =>
  let (entry, putEntry) := focus current part in
  let (directory, putDirectory) := focus entry "directory" in
  bind (forEachPart methods (part2 :: rest) directory) (fun directory' =>
  Some (putEntry (putDirectory directory'))))).
Proof. reflexivity. Qed.

(** Nothing can be done with [undefined], a string or an intrinsic
    where one more part is to be placed. *)
Lemma forEachPart_object (methods : string) (parts : list string)
    (cur cur' : value) :
  parts <> [] -> forEachPart methods parts cur = Some cur' ->
  exists proto props, cur = VObject proto props.
Proof.
  destruct parts as [|part [|part2 rest]]; [congruence| |]; intros _.
  - destruct cur; simpl; try discriminate. eauto.
  - rewrite forEachPart_cons2.
    destruct cur as [|s| |n|proto props]; [| | | |eauto];
      cbn [getProp focus focusChain fst bind truthy setProp];
      try discriminate.
    destruct (inList part objectPrototypeMethods) eqn:E;
      cbn [truthy bind setProp]; [|discriminate].
    cbn [focus focusChain]. rewrite E. cbn [focus focusChain].
    rewrite forEachPart_undefined by discriminate. discriminate.
Qed.

(** One step of the walk on a plain object, for a part other than
    [__proto__] that is not the last one: the part is or becomes an own
    property holding a plain object with an own [directory], the walk
    goes on inside that directory and the result is put back. *)
Lemma forEachPart_step (methods part part2 : string) (rest : list string)
    (cur cur' : value) :
  plain cur = true -> String.eqb part protoKey = false ->
  forEachPart methods (part :: part2 :: rest) cur = Some cur' ->
  exists props0 props eprops d d',
    cur = VObject VObjectPrototype props0
    /\ (props = props0
        \/ ((forall v, ownProp part props0 = Some v -> truthy v = false)
            /\ props = putOwn part (dirEntry (obj [])) props0))
    /\ plainProps props = true
    /\ ownProp part props = Some (VObject VObjectPrototype eprops)
    /\ plainProps eprops = true
    /\ ownProp "directory" eprops = Some d
    /\ plain d = true
    /\ forEachPart methods (part2 :: rest) d = Some d'
    /\ cur' = VObject VObjectPrototype
                (putOwn part
                   (VObject VObjectPrototype (putOwn "directory" d' eprops))
                   props).
Proof.
  intros Hp Hk H.
  destruct (plain_inv cur Hp) as [[s ->]|(props0 & -> & Hps0)].
  { apply forEachPart_object in H as (? & ? & ?); [discriminate|congruence]. }
  rewrite forEachPart_cons2 in H.
  apply bind_Some in H as (existing & Hget & H).
  apply bind_Some in H as (current & Hcur & H).
  cbn [getProp] in Hget. rewrite focus_plain in Hget by assumption.
  assert (Hcurrent : exists props,
             current = VObject VObjectPrototype props
             /\ (props = props0
                 \/ ((forall v, ownProp part props0 = Some v -> truthy v = false)
                     /\ props = putOwn part (dirEntry (obj [])) props0))
             /\ plainProps props = true
             /\ (truthy existing = true ->
                 fst (focus current part) = existing)
             /\ (truthy existing = false ->
                 ownProp part props = Some (dirEntry (obj [])))).
  { destruct (truthy existing) eqn:Ht.
    - injection Hcur as <-. exists props0.
      repeat split; auto; [|discriminate].
      intros _. rewrite focus_plain by assumption.
      injection Hget as <-. reflexivity.
    - assert (Hc : current = VObject VObjectPrototype
                                (putOwn part (dirEntry (obj [])) props0)).
      { unfold setProp in Hcur. rewrite Hk in Hcur.
        destruct (ownProp part props0); congruence. }
      eexists. split; [exact Hc|]. split.
      { right. split; [|reflexivity]. intros v Hv. rewrite Hv in Hget.
        simpl in Hget. congruence. }
      split; [apply plainProps_putOwn; auto|].
      split; [discriminate|]. intros _. apply ownProp_putOwn_same. }
  destruct Hcurrent as (props & -> & Hrel & Hps & Htrue & Hfalse).
  rewrite focus_plain in H by assumption.
  rewrite focus_plain in Htrue by assumption.
  destruct (ownProp part props) as [entry|] eqn:Hown.
  2:{ (* an inherited method: it has no directory *)
      destruct (truthy existing); [|specialize (Hfalse eq_refl); discriminate].
      destruct (inList part objectPrototypeMethods);
        cbn [focus focusChain] in H;
        rewrite forEachPart_undefined in H by discriminate; discriminate. }
  pose proof (plainProps_ownProp _ _ _ Hps Hown) as Hpe.
  destruct (plain_inv entry Hpe) as [[s ->]|(eprops & -> & Hpes)].
  { cbn [focus focusChain] in H.
    rewrite forEachPart_undefined in H by discriminate. discriminate. }
  rewrite focus_plain in H by reflexivity.
  destruct (ownProp "directory" eprops) as [d|] eqn:Hdir.
  2:{ rewrite directory_not_inherited in H.
      rewrite forEachPart_undefined in H by discriminate. discriminate. }
  apply bind_Some in H as (d' & Hrec & H). injection H as <-.
  exists props0, props, eprops, d, d'.
  repeat split; auto.
  eapply plainProps_ownProp; eassumption.
Qed.

Lemma forEachPart_last (methods part : string) (cur cur' : value) :
  plain cur = true -> String.eqb part protoKey = false ->
  forEachPart methods [part] cur = Some cur' ->
  exists props, cur = VObject VObjectPrototype props
                /\ plainProps props = true
                /\ cur' = VObject VObjectPrototype
                            (putOwn part (dirEntry (routeDirectory methods))
                                    props).
Proof. intros Hp Hk H. exact (setProp_plain _ _ _ _ Hp Hk H). Qed.

Lemma noProtoKey_cons (part : string) (rest : list string) :
  noProtoKey (part :: rest) = true ->
  String.eqb part protoKey = false /\ noProtoKey rest = true.
Proof.
  unfold noProtoKey. simpl. intros H. apply andb_prop in H as [H1 H2].
  split; [|exact H2]. destruct (String.eqb part protoKey); [discriminate|auto].
Qed.

Lemma directoryAt_cons (proto : value) (props : list (string * value))
    (p : string) (q : list string) :
  directoryAt (VObject proto props) (p :: q) =
  match ownProp p props with
  | Some e =>
      match ownOf e "directory" with
      | Some d => directoryAt d q
      | None => None
      end
  | None => None
  end.
Proof. reflexivity. Qed.

(** ** Where a route lands *)

Lemma forEachPart_lands (methods : string) (parts : list string) :
  forall cur cur',
    plain cur = true -> noProtoKey parts = true -> parts <> [] ->
    forEachPart methods parts cur = Some cur' ->
    plain cur' = true
    /\ directoryAt cur' parts = Some (routeDirectory methods).
Proof.
  induction parts as [|part rest IH]; intros cur cur' Hp Hn Hne H;
    [congruence|].
  apply noProtoKey_cons in Hn as [Hk Hn].
  destruct rest as [|part2 rest].
  - apply forEachPart_last in H as (props & -> & Hps & ->); auto.
    split.
    + rewrite plain_obj. apply plainProps_putOwn; auto.
    + rewrite directoryAt_cons, ownProp_putOwn_same. reflexivity.
  - apply forEachPart_step in H
      as (props0 & props & eprops & d & d' & -> & _ & Hps & Hown & Hpes
          & Hdir & Hpd & Hrec & ->); auto.
    destruct (IH d d' Hpd Hn ltac:(discriminate) Hrec) as [Hpd' Hat].
    split.
    + rewrite plain_obj. apply plainProps_putOwn; auto.
      rewrite plain_obj. apply plainProps_putOwn; auto.
    + rewrite directoryAt_cons, ownProp_putOwn_same.
      cbn [ownOf]. rewrite ownProp_putOwn_same. exact Hat.
Qed.

(** ** What a later route leaves in place *)

Lemma entryAt_nil (proto : value) (props : list (string * value))
    (name : string) :
  entryAt (VObject proto props) [] name = ownProp name props.
Proof. reflexivity. Qed.

Lemma entryAt_cons (proto : value) (props : list (string * value))
    (p : string) (q : list string) (name : string) :
  entryAt (VObject proto props) (p :: q) name =
  match ownProp p props with
  | Some e =>
      match ownOf e "directory" with
      | Some d => entryAt d q name
      | None => None
      end
  | None => None
  end.
Proof.
  unfold entryAt. rewrite directoryAt_cons.
  destruct (ownProp p props) as [e|]; [|reflexivity].
  destruct (ownOf e "directory"); reflexivity.
Qed.

Lemma entryAt_putOwn_other (props : list (string * value))
    (part p : string) (v : value) (q : list string) (name : string) :
  String.eqb p part = false ->
  entryAt (VObject VObjectPrototype (putOwn part v props)) (p :: q) name
  = entryAt (VObject VObjectPrototype props) (p :: q) name.
Proof.
  intros H. rewrite !entryAt_cons, ownProp_putOwn_other by assumption.
  reflexivity.
Qed.

Lemma overwrites_cons (a b : string) (p q : list string) :
  overwrites (a :: p) (b :: q) = String.eqb a b && overwrites p q.
Proof.
  unfold overwrites. simpl. symmetry. apply andb_orb_distrib_r.
Qed.

Lemma overwrites_nil (q : list string) : overwrites [] q = true.
Proof. reflexivity. Qed.

Lemma overwrites_last_nil (part : string) :
  overwrites [part] [] = String.eqb part "route.ts".
Proof. unfold overwrites. simpl. apply andb_true_r. Qed.

Lemma forEachPart_keeps (methods contents : string) (parts : list string) :
  forall cur cur' q,
    plain cur = true -> noProtoKey parts = true -> parts <> [] ->
    forEachPart methods parts cur = Some cur' ->
    overwrites parts q = false ->
    entryAt cur q "route.ts" = Some (fileEntry contents) ->
    entryAt cur' q "route.ts" = Some (fileEntry contents).
Proof.
  induction parts as [|part rest IH]; intros cur cur' q Hp Hn Hne H Hov Hat;
    [congruence|].
  apply noProtoKey_cons in Hn as [Hk Hn].
  destruct rest as [|part2 rest].
  - apply forEachPart_last in H as (props & -> & Hps & ->); auto.
    destruct q as [|p q].
    + rewrite overwrites_last_nil in Hov.
      rewrite entryAt_nil in *.
      rewrite ownProp_putOwn_other; [exact Hat|].
      rewrite String.eqb_sym. exact Hov.
    + rewrite overwrites_cons, overwrites_nil, andb_true_r in Hov.
      rewrite entryAt_putOwn_other; [exact Hat|].
      rewrite String.eqb_sym. exact Hov.
  - apply forEachPart_step in H
      as (props0 & props & eprops & d & d' & -> & Hrel & Hps & Hown & Hpes
          & Hdir & Hpd & Hrec & ->); auto.
    destruct q as [|p q].
    + rewrite entryAt_nil in *.
      destruct (String.eqb part "route.ts") eqn:Epart.
      * apply String.eqb_eq in Epart. subst part. exfalso.
        destruct Hrel as [->|[Hfalsy _]].
        -- rewrite Hat in Hown. injection Hown as <-. discriminate.
        -- specialize (Hfalsy _ Hat). discriminate.
      * rewrite ownProp_putOwn_other by (rewrite String.eqb_sym; exact Epart).
        destruct Hrel as [->|[_ ->]]; [exact Hat|].
        rewrite ownProp_putOwn_other by (rewrite String.eqb_sym; exact Epart).
        exact Hat.
    + rewrite overwrites_cons in Hov.
      destruct (String.eqb p part) eqn:Ep.
      * apply String.eqb_eq in Ep. subst p.
        rewrite String.eqb_refl in Hov. simpl in Hov.
        rewrite entryAt_cons in Hat.
        destruct (ownProp part props0) as [e|] eqn:He; [|discriminate].
        destruct (ownOf e "directory") as [dd|] eqn:Hdd; [|discriminate].
        assert (He' : truthy e = true).
        { destruct e; try discriminate; reflexivity. }
        destruct Hrel as [->|[Hfalsy _]].
        2:{ specialize (Hfalsy _ eq_refl). congruence. }
        rewrite He in Hown. injection Hown as ->.
        cbn [ownOf] in Hdd. rewrite Hdir in Hdd. injection Hdd as <-.
        rewrite entryAt_cons, ownProp_putOwn_same.
        cbn [ownOf]. rewrite ownProp_putOwn_same.
        apply (IH d d' q); auto. discriminate.
      * rewrite entryAt_putOwn_other by assumption.
        destruct Hrel as [->|[_ ->]]; [exact Hat|].
        rewrite entryAt_putOwn_other by assumption. exact Hat.
Qed.

(** ** The reduce over the routes *)

Lemma reduceFrom_app {A : Type} (f : value -> A -> nat -> option value)
    (l1 l2 : list A) :
  forall index acc,
    reduceFrom f index (l1 ++ l2) acc =
    bind (reduceFrom f index l1 acc)
         (reduceFrom f (index + List.length l1) l2).
Proof.
  induction l1 as [|x l1 IH]; intros index acc; simpl.
  - rewrite Nat.add_0_r. reflexivity.
  - destruct (f acc x index) as [acc'|]; simpl; [|reflexivity].
    rewrite IH. replace (S index + List.length l1)
      with (index + S (List.length l1)) by lia. reflexivity.
Qed.

(** The callback for the routes does not look at the index. *)
Lemma reduceFrom_addRoute_index (routes : list ApiRoute.t) :
  forall i j acc,
    reduceFrom addRoute i routes acc = reduceFrom addRoute j routes acc.
Proof.
  induction routes as [|r routes IH]; intros i j acc; simpl; [reflexivity|].
  change (addRoute acc r i) with (addRoute acc r j).
  destruct (addRoute acc r j); simpl; [apply IH|reflexivity].
Qed.

Lemma split_not_nil (sep : ascii) (s : string) : split sep s <> [].
Proof.
  destruct s as [|c t]; simpl; [discriminate|].
  destruct (Ascii.eqb c sep); [discriminate|].
  destruct (split sep t); discriminate.
Qed.

Lemma pathParts_not_nil (route : ApiRoute.t) : pathParts route <> [].
Proof. apply split_not_nil. Qed.

Lemma join_empty (sep : string) (l : list string) :
  (forall x, In x l -> isEmpty x = false) ->
  isEmpty (join sep l) = match l with [] => true | _ => false end.
Proof.
  destruct l as [|x [|y rest]]; intros H; simpl; [reflexivity| |].
  - apply H. simpl. auto.
  - specialize (H x ltac:(simpl; auto)).
    destruct x; [discriminate|reflexivity].
Qed.

(** [if (routeMethods)] tests that the method map is not empty. *)
Lemma routeMethods_empty (route : ApiRoute.t) :
  isEmpty (routeMethods route) =
  match ApiRoute.methods route with [] => true | _ => false end.
Proof.
  unfold routeMethods. rewrite join_empty.
  - destruct (ApiRoute.methods route); reflexivity.
  - intros x Hx. apply in_map_iff in Hx as (entry & <- & _). reflexivity.
Qed.

Lemma addRoute_plain (acc acc' : value) (route : ApiRoute.t) (i : nat) :
  plain acc = true -> noProtoKey (pathParts route) = true ->
  addRoute acc route i = Some acc' -> plain acc' = true.
Proof.
  intros Hp Hn. unfold addRoute.
  destruct (negb (isEmpty (routeMethods route))).
  - intros H.
    apply (forEachPart_lands _ _ _ _ Hp Hn (pathParts_not_nil route) H).
  - intros E; injection E as <-. exact Hp.
Qed.

Lemma reduceFrom_addRoute_plain (routes : list ApiRoute.t) :
  forall i acc acc',
    plain acc = true -> noProtoKeys routes = true ->
    reduceFrom addRoute i routes acc = Some acc' -> plain acc' = true.
Proof.
  induction routes as [|r routes IH]; intros i acc acc' Hp Hn; simpl.
  - intros E; injection E as <-. exact Hp.
  - simpl in Hn. apply andb_prop in Hn as [Hr Hn]. intros H.
    apply bind_Some in H as (acc1 & H1 & H2).
    apply (IH _ _ _ (addRoute_plain _ _ _ _ Hp Hr H1) Hn H2).
Qed.

Lemma reduceFrom_addRoute_keeps (contents : string) (q : list string)
    (routes : list ApiRoute.t) :
  forall i acc acc',
    plain acc = true -> noProtoKeys routes = true ->
    forallb (sparesPath q) routes = true ->
    reduceFrom addRoute i routes acc = Some acc' ->
    entryAt acc q "route.ts" = Some (fileEntry contents) ->
    entryAt acc' q "route.ts" = Some (fileEntry contents).
Proof.
  induction routes as [|r routes IH]; intros i acc acc' Hp Hn Hs; simpl.
  - intros E; injection E as <-. auto.
  - simpl in Hn, Hs. apply andb_prop in Hn as [Hr Hn].
    apply andb_prop in Hs as [Hsr Hs]. intros H Hat.
    apply bind_Some in H as (acc1 & H1 & H2).
    apply (IH _ _ _ (addRoute_plain _ _ _ _ Hp Hr H1) Hn Hs H2).
    unfold addRoute in H1. unfold sparesPath in Hsr.
    destruct (isEmpty (routeMethods r)); simpl in H1, Hsr.
    + injection H1 as <-. exact Hat.
    + apply (forEachPart_keeps _ _ _ _ _ _ Hp Hr (pathParts_not_nil r) H1);
        [|exact Hat].
      destruct (overwrites (pathParts r) q); [discriminate|reflexivity].
Qed.

(** Each route with a method becomes the file [route.ts] in the
    directory its path names, and stays there unless a later route
    overwrites that place. *)
Lemma reduce_addRoute_layout (before after : list ApiRoute.t)
    (route : ApiRoute.t) (tree : value) :
  reduce addRoute (before ++ route :: after) (obj []) = Some tree ->
  noProtoKeys (before ++ route :: after) = true ->
  isEmpty (routeMethods route) = false ->
  forallb (sparesPath (pathParts route)) after = true ->
  entryAt tree (pathParts route) "route.ts"
  = Some (fileEntry (routeSource (routeMethods route))).
Proof.
  unfold reduce. intros H Hn Hm Hs.
  rewrite reduceFrom_app in H. apply bind_Some in H as (acc & Hb & H).
  unfold noProtoKeys in Hn. rewrite forallb_app in Hn.
  apply andb_prop in Hn as [Hnb Hn]. simpl in Hn.
  apply andb_prop in Hn as [Hnr Hna].
  assert (Hp0 : plain (obj []) = true) by reflexivity.
  pose proof (reduceFrom_addRoute_plain _ _ _ _ Hp0 Hnb Hb) as Hp.
  simpl in H. apply bind_Some in H as (acc1 & H1 & H2).
  pose proof (addRoute_plain _ _ _ _ Hp Hnr H1) as Hp1.
  apply (reduceFrom_addRoute_keeps _ _ _ _ _ _ Hp1 Hna Hs H2).
  unfold addRoute in H1. rewrite Hm in H1. simpl in H1.
  destruct (forEachPart_lands _ _ _ _ Hp Hnr (pathParts_not_nil route) H1)
    as [_ Hat].
  unfold entryAt. rewrite Hat. reflexivity.
Qed.

(** ** The reduces over utilities and components never throw *)

Lemma setProp_object (proto : value) (props : list (string * value))
    (k : string) (v : value) :
  exists proto' props',
    setProp (VObject proto props) k v = Some (VObject proto' props').
Proof.
  unfold setProp. destruct (ownProp k props); [eauto|].
  destruct (String.eqb k protoKey); [|eauto].
  destruct (isObject v); eauto.
Qed.

Lemma reduceFrom_setProp {A : Type} (key : A -> nat -> string)
    (val : A -> value) (l : list A) :
  forall index proto props,
    exists proto' props',
      reduceFrom (fun acc x i => setProp acc (key x i) (val x)) index l
                 (VObject proto props)
      = Some (VObject proto' props').
Proof.
  induction l as [|x l IH]; intros index proto props; cbn [reduceFrom];
    [eauto|].
  destruct (setProp_object proto props (key x index) (val x))
    as (proto1 & props1 & ->). cbn [bind]. apply IH.
Qed.

Lemma reduce_addUtil (utils : list string) :
  exists proto props, reduce addUtil utils (obj []) = Some (VObject proto props).
Proof.
  apply (reduceFrom_setProp
           (fun _ index => "util" ++ ofNat (index + 1) ++ ".ts") fileEntry).
Qed.

Lemma reduce_addComponent (components : list Component.t) :
  exists proto props,
    reduce addComponent components (obj []) = Some (VObject proto props).
Proof.
  apply (reduceFrom_setProp
           (fun c _ => Component.name c ++ ".tsx")
           (fun c => fileEntry (Component.code c))).
Qed.

End GenerateFacts.

(* ===================================================================== *)
(** * The receivers of the walk *)
(* ===================================================================== *)

Module ReceiverFacts.
Import Js JsFacts Generate GenerateFacts.

Lemma shaped_object (proto : value) (props : list (string * value)) :
  shaped (VObject proto props) = okProto proto && forallb okProp props.
Proof. reflexivity. Qed.

Lemma okProps_putOwn (k : string) (v : value)
    (props : list (string * value)) :
  shaped v = true -> isVObject v = true ->
  forallb okProp props = true ->
  forallb okProp (putOwn k v props) = true.
Proof.
  intros Hv Ho.
  assert (Hkv : okProp (k, v) = true).
  { unfold okProp. simpl. rewrite Hv, Ho, orb_true_r. reflexivity. }
  induction props as [|[k' v'] rest IH]; simpl.
  - rewrite Hkv. reflexivity.
  - intros H. apply andb_prop in H as [H1 H2].
    destruct (String.eqb k k'); simpl.
    + rewrite Hkv, H2. reflexivity.
    + rewrite H1, (IH H2). reflexivity.
Qed.

Lemma okProps_ownProp (k : string) (v : value)
    (props : list (string * value)) :
  forallb okProp props = true -> ownProp k props = Some v ->
  shaped v = true /\ (k = "directory" -> isVObject v = true).
Proof.
  induction props as [|[k' v'] rest IH]; simpl; [discriminate|].
  intros H. apply andb_prop in H as [H1 H2].
  destruct (String.eqb_spec k k') as [->|Hne]; [|auto].
  intros E; injection E as <-. unfold okProp in H1. simpl in H1.
  apply andb_prop in H1 as [Hs Hd]. split; [exact Hs|].
  intros ->. simpl in Hd. exact Hd.
Qed.

Lemma focusChain_good (k : string) (o : value) :
  okProto o = true -> String.eqb k protoKey = false ->
  (fst (focusChain o k) = VUndefined
   \/ (exists n, fst (focusChain o k) = VFunction n)
   \/ shaped (fst (focusChain o k)) = true)
  /\ (k = "directory" -> receiver (fst (focusChain o k)) = true)
  /\ (forall v', shaped v' = true -> isVObject v' = true ->
        okProto (snd (focusChain o k) v') = true).
Proof.
  intros Ho Hk. induction o as [| | | |proto IH props]; try discriminate.
  - cbn [focusChain fst snd]. split; [|split].
    + destruct (inList k objectPrototypeMethods); eauto.
    + intros ->. reflexivity.
    + auto.
  - change (shaped (VObject proto props) = true) in Ho.
    rewrite shaped_object in Ho.
    apply andb_prop in Ho as [Hp Hps]. cbn [focusChain].
    destruct (ownProp k props) as [v|] eqn:Hown.
    + destruct (okProps_ownProp _ _ _ Hps Hown) as [Hv Hd].
      cbn [fst snd]. split; [right; right; exact Hv|]. split.
      * intros E. specialize (Hd E). destruct v; try discriminate. exact Hv.
      * intros v' Hv' Ho'. cbn [okProto]. rewrite shaped_object, Hp.
        apply okProps_putOwn; auto.
    + destruct (focusChain proto k) as [v put] eqn:F. cbn [fst snd] in *.
      destruct (IH Hp) as (H1 & H2 & H3).
      split; [exact H1|]. split; [exact H2|].
      intros v' Hv' Ho'. cbn [okProto]. rewrite shaped_object, Hps, andb_true_r.
      apply H3; auto.
Qed.

Lemma focus_good (k : string) (proto : value) (props : list (string * value)) :
  shaped (VObject proto props) = true ->
  goodFocus k (focus (VObject proto props) k).
Proof.
  intros Hs. pose proof Hs as Hs'. rewrite shaped_object in Hs'.
  apply andb_prop in Hs' as [Hp Hps]. unfold focus.
  destruct (ownProp k props) as [v|] eqn:Hown.
  - destruct (okProps_ownProp _ _ _ Hps Hown) as [Hv Hd].
    unfold goodFocus. cbn [fst snd]. split; [right; right; right; exact Hv|].
    split.
    + intros E. specialize (Hd E). destruct v; try discriminate. exact Hv.
    + intros v' Hv' Ho'. split; [|reflexivity].
      rewrite shaped_object, Hp. apply okProps_putOwn; auto.
  - destruct (String.eqb k protoKey) eqn:Hk.
    + unfold goodFocus. cbn [fst snd]. split; [|split].
      * destruct proto; try discriminate; auto.
      * intros ->. discriminate.
      * intros v' Hv' Ho'. split; [|reflexivity].
        rewrite shaped_object, Hps, andb_true_r.
        destruct v'; try discriminate. exact Hv'.
    + assert (Ho : okProto (VObject proto props) = true) by exact Hs.
      destruct (focusChain_good k _ Ho Hk) as (H1 & H2 & H3).
      unfold goodFocus. split; [tauto|]. split; [exact H2|].
      intros v' Hv' Ho'. specialize (H3 v' Hv' Ho').
      cbn [focusChain] in *. rewrite Hown in *.
      destruct (focusChain proto k) as [v put]. cbn [snd] in *.
      split; [exact H3|reflexivity].
Qed.

Lemma setProp_shaped (o : value) (k : string) (v o' : value) :
  receiver o = true -> shaped v = true -> isVObject v = true ->
  setProp o k v = Some o' ->
  shaped o' = true /\ isVObject o' = true.
Proof.
  intros Hr Hv Ho. destruct o as [| | | |proto props]; try discriminate.
  cbn [receiver] in Hr. pose proof Hr as Hs. rewrite shaped_object in Hs.
  apply andb_prop in Hs as [Hp Hps]. unfold setProp.
  assert (Hput : shaped (VObject proto (putOwn k v props)) = true).
  { rewrite shaped_object, Hp. apply okProps_putOwn; auto. }
  destruct (ownProp k props).
  - intros E; injection E as <-. auto.
  - destruct (String.eqb k protoKey).
    + destruct v; try discriminate. cbn [isObject].
      intros E; injection E as <-. split; [|reflexivity].
      rewrite shaped_object, Hps, andb_true_r. exact Hv.
    + intros E; injection E as <-. auto.
Qed.

(** From a receiver the walk reads and writes properties of receivers
    only, and what it returns is again an object of the shape. *)
Lemma forEachPart_receiver (methods : string) (parts : list string) :
  forall cur cur',
    receiver cur = true -> parts <> [] ->
    forEachPart methods parts cur = Some cur' ->
    shaped cur' = true /\ isVObject cur' = true.
Proof.
  induction parts as [|part rest IH]; intros cur cur' Hr Hne H; [congruence|].
  destruct rest as [|part2 rest].
  - apply (setProp_shaped _ _ _ _ Hr) in H; auto.
  - rewrite forEachPart_cons2 in H.
    apply bind_Some in H as (existing & Hget & H).
    apply bind_Some in H as (current & Hcur & H).
    assert (Hc : shaped current = true /\ isVObject current = true).
    { destruct (truthy existing).
      - injection Hcur as <-.
        destruct cur; try discriminate. auto.
      - apply (setProp_shaped _ _ _ _ Hr) in Hcur; auto. }
    destruct Hc as [Hcs Hco].
    destruct current as [| | | |cproto cprops]; try discriminate.
    pose proof (focus_good part _ _ Hcs) as (He & _ & Hpe).
    destruct (focus (VObject cproto cprops) part) as [entry putEntry].
    cbn [fst snd] in *.
    destruct (focus entry "directory") as [directory putDirectory] eqn:Fd.
    apply bind_Some in H as (d' & Hrec & H). injection H as <-.
    assert (Hne2 : part2 :: rest <> []) by discriminate.
    destruct (forEachPart_object _ _ _ _ Hne2 Hrec) as (dp & dprops & ->).
    assert (Fd1 : fst (focus entry "directory") = VObject dp dprops)
      by (rewrite Fd; reflexivity).
    destruct entry as [|s| |n|eproto eprops];
      try (cbv in Fd1; discriminate Fd1).
    assert (Hes : shaped (VObject eproto eprops) = true).
    { cbn [fst] in He.
      destruct He as [E|[[n E]|[E|E]]]; try discriminate. exact E. }
    pose proof (focus_good "directory" _ _ Hes) as (_ & Hdr & Hpd).
    rewrite Fd in Hdr, Hpd. cbn [fst snd] in *.
    specialize (Hdr eq_refl).
    destruct (IH _ _ Hdr Hne2 Hrec) as [Hd's Hd'o].
    destruct (Hpd d' Hd's Hd'o) as [H1 H2].
    cbn [snd] in Hpe. apply Hpe; assumption.
Qed.

(** The value [currentPath] moves to is a receiver. *)
Lemma next_receiver (current : value) (part : string) :
  receiver current = true ->
  receiver (fst (focus (fst (focus current part)) "directory")) = true.
Proof.
  intros Hr. destruct current as [| | | |proto props]; try discriminate.
  - reflexivity.
  - pose proof (focus_good part _ _ Hr) as (He & _ & _).
    destruct (fst (focus (VObject proto props) part))
      as [|s| |n|eproto eprops] eqn:E; try reflexivity.
    destruct He as [H|[[n H]|[H|H]]]; try discriminate.
    apply (focus_good "directory" _ _ H). reflexivity.
Qed.

(** Every accumulator of the reduce over the routes is a receiver. *)
Lemma reduceFrom_addRoute_receiver (routes : list Schema.ApiRoute.t) :
  forall index acc acc',
    shaped acc = true -> isVObject acc = true ->
    reduceFrom addRoute index routes acc = Some acc' ->
    shaped acc' = true /\ isVObject acc' = true.
Proof.
  induction routes as [|r routes IH]; intros index acc acc' Hs Ho;
    cbn [reduceFrom].
  - intros E; injection E as <-. auto.
  - intros H. apply bind_Some in H as (acc1 & H1 & H2).
    assert (H : shaped acc1 = true /\ isVObject acc1 = true).
    { unfold addRoute in H1.
      destruct (negb (Str.isEmpty (routeMethods r))).
      - apply (forEachPart_receiver (routeMethods r) (pathParts r) acc acc1);
          auto.
        + destruct acc; try discriminate. exact Hs.
        + apply pathParts_not_nil.
      - injection H1 as <-. auto. }
    destruct H as [Hs1 Ho1]. apply (IH _ _ _ Hs1 Ho1 H2).
Qed.

End ReceiverFacts.

(* ===================================================================== *)
(** * Properties of the path rewrite *)
(* ===================================================================== *)

Import Str Route.

(** C1.  The rewrite of dynamic segments is idempotent and preserves
    the frame: rewriting twice gives what rewriting once gives; the
    result has the length of the path; and at every position the result
    holds the character of the path, unless the position is the opening
    or the closing brace of a parameter segment, where it holds the
    corresponding bracket. *)
Theorem sanitizeRoutePath_idempotent_frame (p : string) :
  sanitizeRoutePath (sanitizeRoutePath p) = sanitizeRoutePath p
  /\ String.length (sanitizeRoutePath p) = String.length p
  /\ forall k, FrameAt p (sanitizeRoutePath p) k.
Proof.
  unfold sanitizeRoutePath. split.
  - apply RouteFacts.replaceParams_idempotent.
  - apply RouteFacts.replaceParams_frame.
Qed.

(** C2.  Scenario D: [tasks/{taskId}] is rewritten to [tasks/[taskId]],
    and a path that holds no brace-delimited parameter is returned as
    it is. *)
Theorem sanitizeRoutePath_scenario_D :
  sanitizeRoutePath "tasks/{taskId}" = "tasks/[taskId]"
  /\ forall p, ~ ParamSegment p -> sanitizeRoutePath p = p.
Proof.
  split; [reflexivity|]. intros p. apply RouteFacts.replaceParams_unchanged.
Qed.

Lemma sanitizeRoutePath_scenario_D_witness :
  ~ ParamSegment "tasks" /\ sanitizeRoutePath "tasks" = "tasks".
Proof.
  assert (H : ~ ParamSegment "tasks").
  { intros H. apply RouteFacts.hasParam_spec in H. discriminate H. }
  split; [exact H|].
  exact (proj2 sanitizeRoutePath_scenario_D "tasks" H).
Defined.

(** C9.  Only a brace segment that is a non-empty run of word
    characters is converted, wherever it stands in the path; a brace
    segment that is empty or holds another character keeps its text and
    its braces.  The text between the braces is taken to hold no brace
    itself; what precedes and what follows the segment is rewritten on
    its own. *)
Theorem sanitizeRoutePath_converts_word_segments (a seg b : string) :
  Str.all notBrace seg = true ->
  sanitizeRoutePath (a ++ String lbrace (seg ++ String rbrace b))
  = sanitizeRoutePath a
    ++ (if negb (isEmpty seg) && Str.all isWordChar seg
        then String lbracket (seg ++ String rbracket "")
        else String lbrace (seg ++ String rbrace ""))
    ++ sanitizeRoutePath b.
Proof.
  intros H. apply (RouteFacts.replaceParams_segment a seg b H).
Qed.

Lemma sanitizeRoutePath_converts_word_segments_witness :
  sanitizeRoutePath "a/{task-id}/{a.b}/{id_1}/{}"
  = "a/{task-id}/{a.b}/[id_1]/{}"
  /\ sanitizeRoutePath ("x/" ++ String lbrace ("task-id" ++ String rbrace "/y"))
     = sanitizeRoutePath "x/" ++ "{task-id}" ++ sanitizeRoutePath "/y".
Proof.
  split; [reflexivity|].
  apply (sanitizeRoutePath_converts_word_segments "x/" "task-id" "/y").
  reflexivity.
Defined.

(* ===================================================================== *)
(** * Properties of the assembly *)
(* ===================================================================== *)

Module FilesFacts.
Import Js JsFacts Schema Generate GenerateFacts.

Lemma files_inv (specName : string) (g : GeneratedCode.t) (tree : value) :
  files specName g = Some tree ->
  exists utilsDir apiDir componentsDir,
    reduce addUtil (GeneratedCode.utils g) (obj []) = Some utilsDir
    /\ reduce addRoute (GeneratedCode.apiRoutes g) (obj []) = Some apiDir
    /\ reduce addComponent (GeneratedCode.components g) (obj [])
       = Some componentsDir
    /\ tree = layout specName g utilsDir apiDir componentsDir.
Proof.
  unfold files. intros H.
  apply bind_Some in H as (u & Hu & H).
  apply bind_Some in H as (a & Ha & H).
  apply bind_Some in H as (c & Hc & H).
  injection H as <-. exists u, a, c. auto.
Qed.

Lemma files_intro (specName : string) (g : GeneratedCode.t)
    (apiDir : value) :
  reduce addRoute (GeneratedCode.apiRoutes g) (obj []) = Some apiDir ->
  exists utilsDir componentsDir,
    reduce addUtil (GeneratedCode.utils g) (obj []) = Some utilsDir
    /\ reduce addComponent (GeneratedCode.components g) (obj [])
       = Some componentsDir
    /\ files specName g
       = Some (layout specName g utilsDir apiDir componentsDir).
Proof.
  intros Ha. unfold files.
  destruct (reduce_addUtil (GeneratedCode.utils g)) as (pu & u & Hu).
  destruct (reduce_addComponent (GeneratedCode.components g))
    as (pc & c & Hc).
  rewrite Hu, Ha, Hc. simpl. eauto.
Qed.

Lemma layout_api (specName : string) (g : GeneratedCode.t)
    (u a c : value) (parts : list string) (name : string) :
  entryAt (layout specName g u a c) ("app" :: "api" :: parts) name
  = entryAt a parts name.
Proof. reflexivity. Qed.

Lemma layout_components (specName : string) (g : GeneratedCode.t)
    (u a c : value) :
  directoryAt (layout specName g u a c) ["components"] = Some c.
Proof. reflexivity. Qed.

Lemma layout_api_directory (specName : string) (g : GeneratedCode.t)
    (u a c : value) :
  directoryAt (layout specName g u a c) ["app"; "api"] = Some a.
Proof. reflexivity. Qed.

(** A route without a method does not change the reduce. *)
Lemma reduce_addRoute_skip (before after : list ApiRoute.t) (path : string) :
  reduce addRoute (before ++ ApiRoute.make path [] :: after) (obj [])
  = reduce addRoute (before ++ after) (obj []).
Proof.
  unfold reduce. rewrite !reduceFrom_app.
  destruct (reduceFrom addRoute 0 before (obj [])) as [acc|];
    cbn [bind reduceFrom]; [|reflexivity].
  change (addRoute acc (ApiRoute.make path []) (0 + List.length before))
    with (Some acc).
  cbn [bind]. apply reduceFrom_addRoute_index.
Qed.

(** The text of a handler file with the one handler [GET]. *)
Lemma routeSource_GET (m : ApiMethod.t) :
  routeSource (handlerSource ("GET", m))
  = nl ++ "import { NextResponse } from 'next/server';" ++ nl ++ nl
       ++ "export async function GET(request: Request) {"
       ++ nl ++ ApiMethod.code m ++ nl ++ "}" ++ nl.
Proof.
  unfold routeSource, handlerSource. simpl.
  rewrite !StrFacts.app_assoc. reflexivity.
Qed.

End FilesFacts.

Import Js Json Schema Generate.

(** The values and texts the properties below speak of, written out. *)
Local Abbreviation lineFeed := (String "010" EmptyString).

Local Abbreviation fileOf contents :=
  (VObject VObjectPrototype
     [("file", VObject VObjectPrototype [("contents", VString contents)])]).

Local Abbreviation directoryOf entries :=
  (VObject VObjectPrototype
     [("directory", VObject VObjectPrototype entries)]).

Local Abbreviation handlerOf method code :=
  (lineFeed ++ "export async function " ++ method ++ "(request: Request) {"
            ++ lineFeed ++ code ++ lineFeed ++ "}").

Local Abbreviation routeFileOf handlers :=
  (fileOf (lineFeed ++ "import { NextResponse } from 'next/server';"
                    ++ lineFeed ++ handlers ++ lineFeed)).

(** C3.  Scenario A is as the claim says: for one route [GET /api/todos]
    and one component [TodoList] the assembled structure holds under
    [app/api] exactly the directory [todos], which holds exactly the
    file [route.ts], whose text is the import line followed by the one
    exported [GET] handler; and under [components] exactly the file of
    the component, [TodoList.tsx].  The general part fails: the last
    part of a path is assigned a new directory, which replaces the one
    that is there.  For [/api/users/{id}] followed by [/api/users],
    each with a [GET] handler, the endpoint answers 200 with a tree in
    which [app/api] holds [users/route.ts] alone: the handler of
    [/api/users/{id}] is in no file.  With the two routes in the other
    order both files are there. *)
Theorem later_route_replaces_nested_route :
  (forall name code cdesc deps body mdesc types utils,
      exists tree,
        files name
          (GeneratedCode.make
             [Component.make "TodoList" code cdesc deps]
             [ApiRoute.make "/api/todos" [("GET", ApiMethod.make body mdesc)]]
             types utils) = Some tree
        /\ directoryAt tree ["app"; "api"]
           = Some (VObject VObjectPrototype
                     [("todos",
                       directoryOf
                         [("route.ts", routeFileOf (handlerOf "GET" body))])])
        /\ directoryAt tree ["components"]
           = Some (VObject VObjectPrototype [("TodoList.tsx", fileOf code)]))
  /\ (let one :=
        ApiRoute.make "/api/users/{id}"
          [("GET", ApiMethod.make "return one" "read")] in
      let all :=
        ApiRoute.make "/api/users"
          [("GET", ApiMethod.make "return all" "list")] in
      let method (code description : string) :=
        JObject [("GET", JObject [ ("code", JString code);
                                   ("description", JString description) ])] in
      let document :=
        JObject
          [ ("components", JArray []);
            ("apiRoutes",
             JArray [ JObject [ ("path", JString "/api/users/{id}");
                                ("methods", method "return one" "read") ];
                      JObject [ ("path", JString "/api/users");
                                ("methods", method "return all" "list") ] ]);
            ("types", JString "");
            ("utils", JArray []) ] in
      let w :=
        {| requestBody :=
             Some (JObject [("spec", JObject [("name", JString "Shop")])]);
           completion := Message (Some "{}") |} in
      (exists tree,
          GeneratedCodeSchema document
          = Some (GeneratedCode.make [] [one; all] "" [])
          /\ files "Shop" (GeneratedCode.make [] [one; all] "" []) = Some tree
          /\ POST (fun _ => Some document) (fun _ => true) (fun _ => true) w
             = {| status := 200; body := tree |}
          /\ directoryAt tree ["app"; "api"]
             = Some (VObject VObjectPrototype
                       [("users",
                         directoryOf
                           [("route.ts",
                             routeFileOf (handlerOf "GET" "return all"))])]))
      /\ (exists tree,
             files "Shop" (GeneratedCode.make [] [all; one] "" []) = Some tree
             /\ directoryAt tree ["app"; "api"]
                = Some (VObject VObjectPrototype
                          [("users",
                            VObject VObjectPrototype
                              [("directory",
                                VObject VObjectPrototype
                                  [ ("route.ts",
                                     routeFileOf (handlerOf "GET" "return all"));
                                    ("[id]",
                                     directoryOf
                                       [("route.ts",
                                         routeFileOf
                                           (handlerOf "GET" "return one"))]) ])])]))).
Proof.
  split.
  - intros name code cdesc deps body mdesc types utils.
    set (g := GeneratedCode.make _ _ types utils).
    destruct (FilesFacts.files_intro name g
                (obj [("todos",
                       dirEntry (routeDirectory
                                   (handlerSource
                                      ("GET", ApiMethod.make body mdesc))))]))
      as (u & c & Hu & Hc & Hf).
    { reflexivity. }
    exists (layout name g u
              (obj [("todos",
                     dirEntry (routeDirectory
                                 (handlerSource
                                    ("GET", ApiMethod.make body mdesc))))]) c).
    split; [exact Hf|]. split.
    { rewrite FilesFacts.layout_api_directory. reflexivity. }
    rewrite FilesFacts.layout_components.
    injection Hc as <-. reflexivity.
  - intros one all method document w. split.
    + eexists. split; [reflexivity |]. split; [reflexivity |].
      split; reflexivity.
    + eexists. split; reflexivity.
Qed.

(** C10.  A route whose method map is empty leaves the accumulator of
    the reduce as it is: no file and no directory is created for it;
    the assembled structure is the one assembled without that route. *)
Theorem route_without_methods_is_omitted (path : string) :
  (forall acc index, addRoute acc (ApiRoute.make path []) index = Some acc)
  /\ (forall name components before after types utils,
         files name
           (GeneratedCode.make components
              (before ++ ApiRoute.make path [] :: after) types utils)
         = files name
             (GeneratedCode.make components (before ++ after) types utils)).
Proof.
  split; [reflexivity|].
  intros name components before after types utils.
  unfold files. cbn [GeneratedCode.apiRoutes GeneratedCode.utils
                     GeneratedCode.components GeneratedCode.types].
  rewrite FilesFacts.reduce_addRoute_skip. reflexivity.
Qed.

(* ===================================================================== *)
(** * Properties of the credential guard *)
(* ===================================================================== *)

(** C8.  Without [OPENAI_API_KEY] in the environment the evaluation of
    [lib/openai] throws, and so does the evaluation of the route module
    that imports it: the module exports no handler, so that no
    generation can start. *)
Theorem missing_api_key_fails_at_load {Handler : Type}
    (POST : OpenAI.Client -> Handler) (env : OpenAI.Env) :
  env "OPENAI_API_KEY" = None ->
  OpenAI.evaluate env
  = OpenAI.Threw "Missing OPENAI_API_KEY environment variable"
  /\ OpenAI.evaluateRoute POST env
     = OpenAI.Threw "Missing OPENAI_API_KEY environment variable"
  /\ forall handler, OpenAI.evaluateRoute POST env <> OpenAI.Exports handler.
Proof.
  intros H. unfold OpenAI.evaluateRoute, OpenAI.evaluate. rewrite H.
  cbn [OpenAI.missing]. repeat split. discriminate.
Qed.

Lemma missing_api_key_fails_at_load_witness :
  OpenAI.evaluateRoute (fun _ : OpenAI.Client => tt)
    (fun k => if String.eqb k "HOME" then Some "/root" else None)
  = OpenAI.Threw "Missing OPENAI_API_KEY environment variable".
Proof.
  apply (missing_api_key_fails_at_load (fun _ : OpenAI.Client => tt)
           (fun k => if String.eqb k "HOME" then Some "/root" else None)).
  reflexivity.
Defined.

(* ===================================================================== *)
(** * Properties of the repair loop *)
(* ===================================================================== *)

Section RepairLoopFacts.

Variables Tree Diagnostics Report Action : Type.
Variable verify : nat -> Tree -> option Diagnostics.
Variable analyze : Diagnostics -> Report.
Variable repairStep : Report -> Tree -> list Action * Tree.
Variable maxAttempts : nat.

Local Abbreviation State := (RepairLoop.State Tree Diagnostics Report Action).
Local Abbreviation run :=
  (RepairLoop.run verify analyze repairStep maxAttempts).
Local Abbreviation terminal :=
  (@RepairLoop.terminal Tree Diagnostics Report Action).
Local Abbreviation sessionOf :=
  (@RepairLoop.sessionOf Tree Diagnostics Report Action).

Lemma run_add (m n : nat) (s : State) : run (m + n) s = run n (run m s).
Proof. revert s. induction m as [|m IH]; intros s; simpl; auto. Qed.

Lemma run_terminal (n : nat) (s : State) :
  terminal s = true -> run n s = s.
Proof.
  induction n as [|n IH]; intros H; simpl; [reflexivity|].
  destruct s; try discriminate; simpl; apply IH; reflexivity.
Qed.

(** One Verifying-Repairing cycle takes three transitions. *)
Lemma cycle (session : RepairLoop.Session Action) (tree : Tree)
    (raw : Diagnostics) (actions : list Action) (tree' : Tree) :
  verify (RepairLoop.attempt session) tree = Some raw ->
  RepairLoop.attempt session < maxAttempts ->
  repairStep (analyze raw) tree = (actions, tree') ->
  run 3 (RepairLoop.Verifying session tree)
  = RepairLoop.Verifying
      {| RepairLoop.attempt := S (RepairLoop.attempt session);
         RepairLoop.actionLog :=
           (RepairLoop.actionLog session ++ actions)%list |} tree'.
Proof.
  intros V Hlt R. cbn [RepairLoop.run RepairLoop.step]. rewrite V.
  apply Nat.ltb_lt in Hlt. rewrite Hlt. cbn [RepairLoop.step]. rewrite R.
  reflexivity.
Qed.

(** From a verification with [budget] attempts left, a terminal state
    is reached within [3 * budget + 1] transitions, and the attempt
    counter does not pass the bound. *)
Lemma verifying_terminates (budget : nat) :
  forall session tree,
    RepairLoop.attempt session + budget = maxAttempts ->
    exists n,
      n <= 3 * budget + 1
      /\ terminal (run n (RepairLoop.Verifying session tree)) = true
      /\ RepairLoop.attempt
           (sessionOf (run n (RepairLoop.Verifying session tree)))
         <= maxAttempts.
Proof.
  induction budget as [|budget IH]; intros session tree Hb.
  - exists 1. split; [lia|]. simpl.
    destruct (verify (RepairLoop.attempt session) tree) as [raw|];
      [|simpl; split; [reflexivity|lia]].
    replace (RepairLoop.attempt session <? maxAttempts)%nat with false
      by (symmetry; apply Nat.ltb_ge; lia).
    simpl. split; [reflexivity|lia].
  - destruct (verify (RepairLoop.attempt session) tree) as [raw|] eqn:V.
    + destruct (repairStep (analyze raw) tree) as [actions tree'] eqn:R.
      destruct (IH {| RepairLoop.attempt := S (RepairLoop.attempt session);
                      RepairLoop.actionLog :=
                        (RepairLoop.actionLog session ++ actions)%list |}
                   tree') as (n & Hn & Ht & Ha).
      { simpl. lia. }
      exists (3 + n). split; [lia|].
      rewrite run_add.
      rewrite (cycle session tree raw actions tree') by (auto; lia).
      auto.
    + exists 1. split; [lia|]. simpl. rewrite V. simpl.
      split; [reflexivity|lia].
Qed.

(** C7.  The repair loop terminates: from the initial state, whatever
    the verifier, the analyzer and the agent answer, a terminal state
    (Succeeded or Exhausted) is reached after at most [maxAttempts]
    Verifying-Repairing cycles, that is within [3 * maxAttempts + 1]
    transitions, and it is kept from then on; when every verification
    fails, with reports that may all be the same, the loop ends in
    Exhausted after exactly [maxAttempts] cycles. *)
Theorem repair_loop_terminates (tree : Tree) :
  (exists n,
      n <= 3 * maxAttempts + 1
      /\ forall m, n <= m ->
           terminal (run m (RepairLoop.initial tree)) = true
           /\ RepairLoop.attempt (sessionOf (run m (RepairLoop.initial tree)))
              <= maxAttempts)
  /\ ((forall pass t, verify pass t <> None) ->
      exists session t report,
        run (3 * maxAttempts + 1) (RepairLoop.initial tree)
        = RepairLoop.Exhausted session t report
        /\ RepairLoop.attempt session = maxAttempts).
Proof.
  split.
  - destruct (verifying_terminates maxAttempts
                {| RepairLoop.attempt := 0; RepairLoop.actionLog := [] |} tree)
      as (n & Hn & Ht & Ha); [reflexivity|].
    exists n. split; [exact Hn|]. intros m Hm.
    replace m with (n + (m - n)) by lia. rewrite run_add.
    unfold RepairLoop.initial. rewrite run_terminal by exact Ht. auto.
  - intros Hfail. unfold RepairLoop.initial.
    assert (G : forall budget session t,
               RepairLoop.attempt session + budget = maxAttempts ->
               exists session' t' report,
                 run (3 * budget + 1) (RepairLoop.Verifying session t)
                 = RepairLoop.Exhausted session' t' report
                 /\ RepairLoop.attempt session' = maxAttempts).
    { induction budget as [|budget IH]; intros session t Hb.
      - simpl. destruct (verify (RepairLoop.attempt session) t) as [raw|] eqn:V;
          [|exfalso; exact (Hfail _ _ V)].
        replace (RepairLoop.attempt session <? maxAttempts)%nat with false
          by (symmetry; apply Nat.ltb_ge; lia).
        exists session, t, (analyze raw). split; [reflexivity|lia].
      - replace (3 * S budget + 1) with (3 + (3 * budget + 1)) by lia.
        rewrite run_add.
        destruct (verify (RepairLoop.attempt session) t) as [raw|] eqn:V;
          [|exfalso; exact (Hfail _ _ V)].
        destruct (repairStep (analyze raw) t) as [actions t'] eqn:R.
        rewrite (cycle session t raw actions t') by (auto; lia).
        apply IH. simpl. lia. }
    apply G. reflexivity.
Qed.

End RepairLoopFacts.

(** Scenario C: three attempts, every verification fails with the same
    diagnostics. *)
Lemma repair_loop_terminates_witness :
  exists session tree report,
    RepairLoop.run (fun (_ : nat) (_ : nat) => Some "Cannot find module")
                   (fun raw : string => raw)
                   (fun (_ : string) (tree : nat) => (["write-file"], S tree))
                   3 10 (RepairLoop.initial 0)
    = RepairLoop.Exhausted session tree report
    /\ RepairLoop.attempt session = 3.
Proof.
  apply (proj2 (repair_loop_terminates nat string string string
                  (fun _ _ => Some "Cannot find module") (fun raw => raw)
                  (fun _ tree => (["write-file"], S tree)) 3 0)).
  intros pass t. discriminate.
Defined.

(* ===================================================================== *)
(** * Properties of the schemas *)
(* ===================================================================== *)

Module SchemaFacts.
Import Js Json Schema.

Lemma inList_filter (p : string -> bool) (k : string) (l : list string) :
  inList k (filter p l) = true -> inList k l = true.
Proof.
  induction l as [|x l IH]; simpl; [auto|].
  destruct (p x); simpl.
  - destruct (String.eqb k x); simpl; auto.
  - intros H. rewrite (IH H). apply orb_true_r.
Qed.

Lemma distinct_filter (p : string -> bool) (l : list string) :
  distinct l = true -> distinct (filter p l) = true.
Proof.
  induction l as [|x l IH]; simpl; [auto|].
  intros H. apply andb_prop in H as [Hx Hl].
  destruct (p x); simpl; [|auto].
  rewrite (IH Hl), andb_true_r.
  destruct (inList x (filter p l)) eqn:E; [|reflexivity].
  apply inList_filter in E. rewrite E in Hx. discriminate.
Qed.

Lemma map_fst_filter {A : Type} (p : string -> bool)
    (l : list (string * A)) :
  map fst (filter (fun kv => p (fst kv)) l) = filter p (map fst l).
Proof.
  induction l as [|[k v] l IH]; simpl; [reflexivity|].
  destruct (p k); simpl; congruence.
Qed.

Lemma traverse_keys {A : Type} (item : json -> option A)
    (members : list (string * json)) :
  forall l,
    traverse (fun kv => option_map (pair (fst kv)) (item (snd kv))) members
    = Some l ->
    map fst l = map fst members.
Proof.
  induction members as [|[k v] members IH]; simpl; intros l.
  - intros E; injection E as <-. reflexivity.
  - destruct (item v) as [y|]; simpl; [|discriminate].
    destruct (traverse _ members) as [ys|]; [|discriminate].
    intros E; injection E as <-. simpl. rewrite (IH ys eq_refl). reflexivity.
Qed.

Lemma traverse_In {A B : Type} (f : A -> option B) (l : list A) :
  forall l' y,
    traverse f l = Some l' -> In y l' ->
    exists x, In x l /\ f x = Some y.
Proof.
  induction l as [|x l IH]; simpl; intros l' y.
  - intros E; injection E as <-. intros [].
  - destruct (f x) as [b|] eqn:Fx; [|discriminate].
    destruct (traverse f l) as [bs|]; [|discriminate].
    intros E; injection E as <-. intros [<-|Hy].
    + exists x. auto.
    + destruct (IH bs y eq_refl Hy) as (x' & Hx' & Fx'). exists x'. auto.
Qed.

Lemma wellFormed_object (members : list (string * json)) :
  wellFormed (JObject members) =
  distinct (map fst members)
  && forallb (fun kv => wellFormed (snd kv)) members.
Proof. reflexivity. Qed.

Lemma member_In (k : string) (members : list (string * json)) (v : json) :
  member k members = Some v -> In (k, v) members.
Proof.
  induction members as [|[k' v'] members IH]; simpl; [discriminate|].
  destruct (String.eqb_spec k k') as [->|].
  - intros E; injection E as <-. auto.
  - auto.
Qed.

Lemma wellFormed_member (k : string) (members : list (string * json))
    (v : json) :
  wellFormed (JObject members) = true -> member k members = Some v ->
  wellFormed v = true.
Proof.
  rewrite wellFormed_object. intros H Hm.
  apply andb_prop in H as [_ H]. rewrite forallb_forall in H.
  apply (H (k, v)), member_In, Hm.
Qed.

(** The keys of a parsed record are distinct. *)
Lemma zRecord_distinct {A : Type} (item : json -> option A) (j : json)
    (l : list (string * A)) :
  wellFormed j = true -> zRecord item j = Some l ->
  distinct (map fst l) = true.
Proof.
  destruct j as [| | | | |members]; try discriminate.
  rewrite wellFormed_object. intros H. apply andb_prop in H as [Hd _].
  unfold zRecord.
  destruct (traverse _ members) as [l0|] eqn:T; [|discriminate].
  intros E; injection E as <-.
  rewrite (map_fst_filter (fun k => negb (String.eqb k protoKey))).
  apply distinct_filter. rewrite (traverse_keys _ _ _ T). exact Hd.
Qed.

(** Every value of a parsed record is the parse of a member. *)
Lemma zRecord_In {A : Type} (item : json -> option A) (j : json)
    (l : list (string * A)) (k : string) (y : A) :
  zRecord item j = Some l -> In (k, y) l ->
  exists members v,
    j = JObject members /\ In (k, v) members /\ item v = Some y.
Proof.
  destruct j as [| | | | |members]; try discriminate.
  unfold zRecord.
  destruct (traverse _ members) as [l0|] eqn:T; [|discriminate].
  intros E; injection E as <-. intros Hin.
  apply filter_In in Hin as [Hin _].
  destruct (traverse_In _ _ _ _ T Hin) as ([k' v] & Hm & Hv).
  simpl in Hv. destruct (item v) as [y'|] eqn:Iv; [|discriminate].
  injection Hv as <- <-. exists members, v. auto.
Qed.

Lemma field_inv {A : Type} (item : json -> option A) (k : string)
    (members : list (string * json)) (a : A) :
  field item k members = Some a ->
  exists v, member k members = Some v /\ item v = Some a.
Proof.
  unfold field. destruct (member k members) as [v|]; [eauto|discriminate].
Qed.

Lemma field_cons {A : Type} (item : json -> option A) (k k' : string)
    (v : json) (members : list (string * json)) :
  String.eqb k' k = false ->
  field item k ((k', v) :: members) = field item k members.
Proof.
  intros H. unfold field. simpl. rewrite String.eqb_sym, H. reflexivity.
Qed.

End SchemaFacts.

(** C6, as stated, fails: [SpecSchema] accepts a document in which a
    page refers to a component and to an api route that the top-level
    lists do not hold. *)
Lemma SpecSchema_accepts_open_references :
  wellFormed ProjectSpec.openReferences = true
  /\ SpecSchema ProjectSpec.openReferences
     = Some (Spec.make "Todo" "A list of things to do" ["TodoList"]
               [("/api/todos", [("GET", "all todos")])]
               [("Todo", [("title", "string")])]
               ["lists"])
  /\ ProjectSpec.referencesClosed ProjectSpec.openReferences = false.
Proof. repeat split. Qed.

(** C6, amended.  [SpecSchema] checks the shape of its six declared
    fields and nothing else: a key it does not declare, such as a list
    of pages with their references, changes neither acceptance nor the
    accepted spec; and in an accepted spec the endpoints of [api] are
    distinct, as are the methods of each endpoint. *)
Theorem SpecSchema_is_structural (doc : json) (s : Spec.t) :
  wellFormed doc = true ->
  SpecSchema doc = Some s ->
  distinct (map fst (Spec.api s)) = true
  /\ (forall endpoint methods,
         In (endpoint, methods) (Spec.api s) ->
         distinct (map fst methods) = true)
  /\ (forall members key v,
         doc = JObject members ->
         Js.inList key declaredKeys = false ->
         SpecSchema (JObject ((key, v) :: members)) = Some s).
Proof.
  intros Hwf Hs.
  destruct doc as [| | | | |members]; try discriminate.
  unfold SpecSchema in Hs.
  destruct (field zString "name" members) as [n|] eqn:Fn; [|discriminate].
  destruct (field zString "description" members) as [d|] eqn:Fd;
    [|discriminate].
  destruct (field (zArray zString) "frontend" members) as [fe|] eqn:Ffe;
    [|discriminate].
  destruct (field (zRecord (zRecord zString)) "api" members) as [a|] eqn:Fa;
    [|discriminate].
  destruct (field (zRecord (zRecord zString)) "dataModel" members)
    as [dm|] eqn:Fdm; [|discriminate].
  destruct (field (zArray zString) "features" members) as [fs|] eqn:Ffs;
    [|discriminate].
  injection Hs as <-. cbn [Spec.api].
  destruct (SchemaFacts.field_inv _ _ _ _ Fa) as (ja & Hja & Hza).
  pose proof (SchemaFacts.wellFormed_member _ _ _ Hwf Hja) as Hwa.
  split; [exact (SchemaFacts.zRecord_distinct _ _ _ Hwa Hza)|]. split.
  - intros endpoint methods Hin.
    destruct (SchemaFacts.zRecord_In _ _ _ _ _ Hza Hin)
      as (ms & jv & -> & Hm & Hv).
    apply (SchemaFacts.zRecord_distinct zString jv methods); [|exact Hv].
    rewrite SchemaFacts.wellFormed_object in Hwa.
    apply andb_prop in Hwa as [_ Hwa]. rewrite forallb_forall in Hwa.
    apply (Hwa (endpoint, jv) Hm).
  - intros members' key v E Hk. injection E as <-.
    unfold declaredKeys in Hk. simpl in Hk.
    repeat (apply orb_false_elim in Hk as [? Hk]).
    unfold SpecSchema.
    rewrite !SchemaFacts.field_cons by assumption.
    rewrite Fn, Fd, Ffe, Fa, Fdm, Ffs. reflexivity.
Qed.

Lemma SpecSchema_is_structural_witness :
  SpecSchema
    (JObject
       [ ("pages",
          JArray [JObject [("components", JArray [JString "Ghost"])]]);
         ("name", JString "Todo"); ("description", JString "none");
         ("frontend", JArray []);
         ("api", JObject [("/api/todos", JObject [("GET", JString "all")])]);
         ("dataModel", JObject []); ("features", JArray []) ])
  = Some (Spec.make "Todo" "none" [] [("/api/todos", [("GET", "all")])] [] []).
Proof.
  apply (proj2 (proj2
           (SpecSchema_is_structural
              (JObject
                 [ ("name", JString "Todo"); ("description", JString "none");
                   ("frontend", JArray []);
                   ("api",
                    JObject [("/api/todos", JObject [("GET", JString "all")])]);
                   ("dataModel", JObject []); ("features", JArray []) ])
              (Spec.make "Todo" "none" [] [("/api/todos", [("GET", "all")])]
                         [] [])
              eq_refl eq_refl)));
    reflexivity.
Defined.

(* ===================================================================== *)
(** * Further properties of the path rewrite *)
(* ===================================================================== *)

Module RouteMore.
Import Str StrFacts Route RouteFacts Notions.

(** A parameter segment does not survive the scan: its opening brace
    is a bracket in the result. *)
Lemma replaceParams_changes (p : string) :
  ParamSegment p -> replaceParams p <> p.
Proof.
  intros (a & name & b & -> & Hne & Hw) E.
  rewrite replaceParams_app in E by reflexivity.
  rewrite replaceParams_param in E by assumption.
  assert (G : String.get (String.length a + 0)
                (replaceParams a
                 ++ String lbracket (name ++ String rbracket (replaceParams b)))
              = String.get (String.length a + 0)
                  (a ++ String lbrace (name ++ String rbrace b)))
    by (rewrite E; reflexivity).
  rewrite get_app_ge in G.
  rewrite <- (proj1 (replaceParams_frame a)) in G.
  rewrite get_app_ge in G. discriminate G.
Qed.

Lemma replaceParams_clean (p : string) : ~ ParamSegment (replaceParams p).
Proof.
  intros H. apply (replaceParams_changes _ H), replaceParams_idempotent.
Qed.

Lemma hasParam_false (p : string) : hasParam p = false <-> ~ ParamSegment p.
Proof.
  rewrite <- hasParam_spec. destruct (hasParam p); split; intros H;
    try discriminate; try reflexivity; try (exfalso; apply H; reflexivity).
Qed.

(** ** split and join *)

Lemma split_join (s : string) :
  join (String slash "") (split slash s) = s.
Proof.
  induction s as [|c t IH]; [reflexivity|]. cbn [split].
  destruct (Ascii.eqb_spec c slash) as [->|Hc].
  - change (join (String slash "") ("" :: split slash t))
      with (match split slash t with
            | [] => ""
            | _ :: _ => "" ++ String slash "" ++ join (String slash "") (split slash t)
            end).
    destruct (split slash t) eqn:E; [destruct (GenerateFacts.split_not_nil _ _ E)|].
    rewrite IH. reflexivity.
  - destruct (split slash t) as [|x rest] eqn:E;
      [destruct (GenerateFacts.split_not_nil _ _ E)|].
    rewrite <- IH. destruct rest; reflexivity.
Qed.

Lemma split_noSlash (s : string) :
  forallb noSlash (split slash s) = true.
Proof.
  induction s as [|c t IH]; [reflexivity|]. cbn [split].
  destruct (Ascii.eqb c slash) eqn:Hc.
  - cbn [forallb]. rewrite IH. reflexivity.
  - destruct (split slash t) as [|x rest].
    + cbn. rewrite Hc. reflexivity.
    + cbn [forallb] in *. apply andb_prop in IH as [Hx Hr].
      unfold noSlash in *. cbn [all]. rewrite Hc, Hx, Hr. reflexivity.
Qed.

Lemma replaceFirst_prefix (pat rest : string) :
  replaceFirst pat "" (pat ++ rest) = rest.
Proof.
  assert (H : forall p s, stripPrefix p (p ++ s) = Some s).
  { induction p as [|a p IH]; intros s; simpl.
    - destruct s; reflexivity.
    - rewrite Ascii.eqb_refl. apply IH. }
  destruct (pat ++ rest) eqn:E.
  - destruct pat; [simpl in E; subst; reflexivity|discriminate].
  - rewrite <- E. unfold replaceFirst. rewrite E. fold replaceFirst.
    rewrite <- E, H. reflexivity.
Qed.

End RouteMore.

(* ===================================================================== *)
(** * Further properties of the assembly *)
(* ===================================================================== *)

Module AssemblyMore.
Import Str StrFacts Js JsFacts Schema Generate GenerateFacts Notions.

(** ** The package name *)

Ltac each_char c :=
  destruct c as [[] [] [] [] [] [] [] []]; reflexivity.

Lemma lowerChar_idem (c : ascii) : lowerChar (lowerChar c) = lowerChar c.
Proof. each_char c. Qed.

Lemma lowerChar_space (c : ascii) :
  isWhiteSpace (lowerChar c) = isWhiteSpace c.
Proof. each_char c. Qed.

Lemma lowerChar_not_upper (c : ascii) : isUpper (lowerChar c) = false.
Proof. each_char c. Qed.

Lemma dash_safe : packageSafe "-" = true /\ lowerChar "-" = "-"%char.
Proof. split; reflexivity. Qed.

Lemma dashRuns_lowered (s : string) :
  forall inRun,
    all packageSafe (dashRuns inRun (toLowerCase s)) = true
    /\ toLowerCase (dashRuns inRun (toLowerCase s))
       = dashRuns inRun (toLowerCase s).
Proof.
  induction s as [|c t IH]; intros inRun; [split; reflexivity|].
  cbn [toLowerCase dashRuns].
  destruct (isWhiteSpace (lowerChar c)) eqn:Hw.
  - destruct inRun; [apply IH|].
    destruct (IH true) as [H1 H2]. cbn [all toLowerCase].
    rewrite H1, H2. split; reflexivity.
  - destruct (IH false) as [H1 H2]. cbn [all toLowerCase].
    unfold packageSafe at 1. rewrite Hw, lowerChar_not_upper, H1, H2.
    rewrite lowerChar_idem. split; reflexivity.
Qed.

Lemma dashRuns_safe (s : string) :
  all packageSafe s = true -> dashRuns false s = s.
Proof.
  induction s as [|c t IH]; [reflexivity|]. cbn [all dashRuns].
  intros H. apply andb_prop in H as [Hc Ht].
  unfold packageSafe in Hc. apply andb_prop in Hc as [Hc _].
  destruct (isWhiteSpace c); [discriminate|]. rewrite (IH Ht). reflexivity.
Qed.

Lemma packageName_normal (s : string) :
  all packageSafe (packageName s) = true
  /\ packageName (packageName s) = packageName s.
Proof.
  unfold packageName. destruct (dashRuns_lowered s false) as [H1 H2].
  split; [exact H1|]. rewrite H2. apply dashRuns_safe, H1.
Qed.

(** ** The utilities *)

Lemma putOwn_absent (k : string) (v : value) (props : list (string * value)) :
  ownProp k props = None -> putOwn k v props = (props ++ [(k, v)])%list.
Proof.
  induction props as [|[k' v'] rest IH]; simpl; [reflexivity|].
  destruct (String.eqb k k'); [discriminate|].
  intros H. rewrite (IH H). reflexivity.
Qed.

Lemma ownProp_app (k : string) (l1 l2 : list (string * value)) :
  ownProp k (l1 ++ l2) =
  match ownProp k l1 with Some v => Some v | None => ownProp k l2 end.
Proof.
  induction l1 as [|[k' v'] rest IH]; simpl; [reflexivity|].
  destruct (String.eqb k k'); [reflexivity|exact IH].
Qed.

Lemma append_same_length (a b s t : string) :
  String.length a = String.length b -> a ++ s = b ++ t -> a = b /\ s = t.
Proof.
  revert b. induction a as [|c a IH]; intros [|d b] L E; try discriminate.
  - auto.
  - simpl in *. injection E as -> E. injection L as L.
    destruct (IH b L E) as [-> ->]. auto.
Qed.

Lemma append_suffix_inj (a b s : string) : a ++ s = b ++ s -> a = b.
Proof.
  intros E. apply (append_same_length a b s s); [|exact E].
  apply (f_equal String.length) in E. rewrite !length_app in E. lia.
Qed.

Lemma to_uint_nonnil (n : nat) : Nat.to_uint n <> Decimal.Nil.
Proof.
  rewrite <- (DecimalNat.Unsigned.of_to n) at 1.
  rewrite DecimalNat.Unsigned.to_of. apply DecimalFacts.unorm_nonnil.
Qed.

Lemma ofNat_inj (m n : nat) : ofNat m = ofNat n -> m = n.
Proof.
  unfold ofNat. intros E.
  apply (f_equal NilZero.uint_of_string) in E.
  rewrite !NilZero.usu in E by apply to_uint_nonnil.
  injection E as E. apply DecimalNat.Unsigned.to_uint_inj, E.
Qed.

Lemma utilName_inj (i j : nat) : utilName i = utilName j -> i = j.
Proof.
  unfold utilName. intros E. simpl in E. injection E as E.
  apply append_suffix_inj, ofNat_inj in E. lia.
Qed.

Lemma utilName_not_proto (i : nat) : String.eqb (utilName i) protoKey = false.
Proof. reflexivity. Qed.

Lemma numbered_absent (k : string) (utils : list string) :
  forall index,
    (forall j, index <= j -> k <> utilName j) ->
    ownProp k (numbered index utils) = None.
Proof.
  induction utils as [|u rest IH]; intros index H; [reflexivity|].
  cbn [numbered ownProp fst snd].
  destruct (String.eqb_spec k (utilName index)) as [E|_].
  - destruct (H index (le_n _) E).
  - apply IH. intros j Hj. apply H. lia.
Qed.

Lemma reduceFrom_addUtil (utils : list string) :
  forall index props,
    (forall j, index <= j -> ownProp (utilName j) props = None) ->
    reduceFrom addUtil index utils (obj props)
    = Some (obj (props ++ numbered index utils)).
Proof.
  induction utils as [|u rest IH]; intros index props H; cbn [reduceFrom numbered].
  - rewrite List.app_nil_r. reflexivity.
  - unfold addUtil at 1. fold (utilName index). unfold obj at 1, setProp.
    rewrite (H index (le_n _)), utilName_not_proto, putOwn_absent
      by (apply H; lia).
    cbn [bind]. fold (obj (props ++ [(utilName index, fileEntry u)])).
    rewrite IH.
    + rewrite <- List.app_assoc. reflexivity.
    + intros j Hj. rewrite ownProp_app, (H j) by lia. cbn [ownProp].
      destruct (String.eqb_spec (utilName j) (utilName index)) as [E|_];
        [|reflexivity].
      apply utilName_inj in E. lia.
Qed.

Lemma numbered_lookup (utils : list string) :
  forall index i u,
    nth_error utils i = Some u ->
    ownProp (utilName (index + i)) (numbered index utils)
    = Some (fileEntry u).
Proof.
  induction utils as [|u0 rest IH]; intros index i u H;
    [destruct i; discriminate|].
  cbn [numbered ownProp]. fold (utilName index). destruct i as [|i].
  - injection H as <-. rewrite Nat.add_0_r, String.eqb_refl. reflexivity.
  - destruct (String.eqb_spec (utilName (index + S i)) (utilName index))
      as [E|_]; [apply utilName_inj in E; lia|].
    replace (index + S i) with (S index + i) by lia. apply IH, H.
Qed.

Lemma numbered_length (utils : list string) :
  forall index, List.length (numbered index utils) = List.length utils.
Proof. induction utils; intros index; simpl; auto. Qed.

(** ** The components *)

Lemma tsx_not_proto (name : string) :
  String.eqb (name ++ ".tsx") protoKey = false.
Proof.
  apply String.eqb_neq. intros E.
  apply (append_same_length name "__pro" ".tsx" "to__") in E;
    [destruct E; discriminate|].
  apply (f_equal String.length) in E. rewrite length_app in E.
  unfold protoKey in E. simpl in *. lia.
Qed.

Lemma lastNamed_In (name : string) (components : list Component.t)
    (component : Component.t) :
  In component components -> Component.name component = name ->
  exists last,
    lastNamed name components = Some last
    /\ In last components /\ Component.name last = name.
Proof.
  induction components as [| c rest IH]; intros Hin Hn.
  - destruct Hin.
  - cbn [lastNamed].
    destruct (lastNamed name rest) as [last |] eqn:El.
    + assert (Hl : In last rest /\ Component.name last = name).
      { clear IH Hin. revert last El.
        induction rest as [| c' rest' IHr]; intros last El.
        - discriminate El.
        - cbn [lastNamed] in El.
          destruct (lastNamed name rest') as [l' |] eqn:E'.
          + injection El as <-. destruct (IHr l' eq_refl) as [H1 H2].
            split; [right; exact H1 | exact H2].
          + destruct (String.eqb_spec name (Component.name c'));
              [| discriminate El].
            injection El as <-. split; [left; reflexivity | congruence]. }
      exists last. split; [reflexivity |].
      split; [right; exact (proj1 Hl) | exact (proj2 Hl)].
    + destruct Hin as [-> | Hin].
      * subst name. rewrite String.eqb_refl. exists component.
        split; [reflexivity |]. split; [left; reflexivity | reflexivity].
      * destruct (IH Hin Hn) as [last [E _]]. discriminate E.
Qed.

Lemma reduceFrom_addComponent (components : list Component.t) :
  forall index props,
    exists props',
      reduceFrom addComponent index components (obj props) = Some (obj props')
      /\ forall name,
           ownProp (name ++ ".tsx") props' =
           match lastNamed name components with
           | Some c => Some (fileEntry (Component.code c))
           | None => ownProp (name ++ ".tsx") props
           end.
Proof.
  induction components as [|c rest IH]; intros index props;
    cbn [reduceFrom lastNamed].
  - exists props. auto.
  - unfold addComponent at 1, obj at 1, setProp.
    rewrite tsx_not_proto.
    assert (E : (match ownProp (Component.name c ++ ".tsx") props with
                 | Some _ =>
                     Some (VObject VObjectPrototype
                             (putOwn (Component.name c ++ ".tsx")
                                     (fileEntry (Component.code c)) props))
                 | None =>
                     Some (VObject VObjectPrototype
                             (putOwn (Component.name c ++ ".tsx")
                                     (fileEntry (Component.code c)) props))
                 end)
                = Some (obj (putOwn (Component.name c ++ ".tsx")
                                    (fileEntry (Component.code c)) props)))
      by (destruct (ownProp _ props); reflexivity).
    rewrite E. cbn [bind].
    destruct (IH (S index)
                (putOwn (Component.name c ++ ".tsx")
                        (fileEntry (Component.code c)) props))
      as (props' & Hr & Hl).
    exists props'. split; [exact Hr|]. intros name. rewrite Hl.
    destruct (lastNamed name rest); [reflexivity|].
    destruct (String.eqb_spec name (Component.name c)) as [->|Hne].
    + apply ownProp_putOwn_same.
    + apply ownProp_putOwn_other. apply String.eqb_neq. intros E'.
      apply append_suffix_inj in E'. congruence.
Qed.

End AssemblyMore.

(* ===================================================================== *)
(** * The walk over ordinary path parts *)
(* ===================================================================== *)

Module WalkFacts.
Import Str Js JsFacts Schema Generate GenerateFacts Notions.

Lemma routeTree_inv (v : value) :
  routeTree v = true ->
  exists props, v = VObject VObjectPrototype props
                /\ forallb (routeEntry routeTree) props = true.
Proof.
  destruct v as [| |  | | proto props]; try discriminate.
  destruct proto; try discriminate.
  intros H. exists props. split; [reflexivity | exact H].
Qed.

Lemma routeEntries_putOwn (k : string) (v : value)
    (props : list (string * value)) :
  routeEntry routeTree (k, v) = true ->
  forallb (routeEntry routeTree) props = true ->
  forallb (routeEntry routeTree) (putOwn k v props) = true.
Proof.
  intros Hv. induction props as [| [k' v'] rest IH]; intros H.
  - cbn [putOwn forallb]. rewrite Hv. reflexivity.
  - cbn [putOwn]. cbn [forallb] in H.
    apply andb_prop in H. destruct H as [H1 H2].
    destruct (String.eqb k k').
    + cbn [forallb]. rewrite Hv, H2. reflexivity.
    + cbn [forallb]. rewrite H1, (IH H2). reflexivity.
Qed.

Lemma routeEntries_ownProp (k : string) (e : value)
    (props : list (string * value)) :
  forallb (routeEntry routeTree) props = true ->
  ownProp k props = Some e ->
  routeEntry routeTree (k, e) = true.
Proof.
  induction props as [| [k' v'] rest IH]; intros H Ho.
  - discriminate Ho.
  - cbn [forallb] in H. apply andb_prop in H. destruct H as [H1 H2].
    cbn [ownProp] in Ho.
    destruct (String.eqb_spec k k') as [-> | _].
    + injection Ho as <-. exact H1.
    + exact (IH H2 Ho).
Qed.

Lemma routeEntry_directory (k : string) (e : value) :
  String.eqb k "route.ts" = false ->
  routeEntry routeTree (k, e) = true ->
  exists d, e = dirEntry d /\ routeTree d = true.
Proof.
  intros Hk H. unfold routeEntry in H. cbn [fst snd] in H.
  rewrite Hk in H.
  destruct e as [| | | | proto eprops]; try discriminate.
  destruct proto; try discriminate.
  destruct eprops as [| [k1 d] [| ? ?]]; try discriminate.
  apply andb_prop in H. destruct H as [H1 H2].
  apply String.eqb_eq in H1. subst k1.
  exists d. split; [reflexivity | exact H2].
Qed.

Lemma routeEntry_dirEntry (k : string) (d : value) :
  String.eqb k "route.ts" = false ->
  routeTree d = true ->
  routeEntry routeTree (k, dirEntry d) = true.
Proof.
  intros Hk Hd. unfold routeEntry, dirEntry, obj. cbn [fst snd].
  rewrite Hk, Hd. reflexivity.
Qed.

Lemma routeTree_routeDirectory (methods : string) :
  routeTree (routeDirectory methods) = true.
Proof. reflexivity. Qed.

Lemma ordinaryPart_inv (part : string) :
  ordinaryPart part = true ->
  inList part objectPrototypeMethods = false
  /\ String.eqb part protoKey = false
  /\ String.eqb part "route.ts" = false.
Proof.
  unfold ordinaryPart. intros H.
  apply andb_prop in H. destruct H as [H H3].
  apply andb_prop in H. destruct H as [H1 H2].
  apply negb_true_iff in H1, H2, H3. auto.
Qed.

(** Moving into the directory of an entry that is there. *)
Lemma descend (part : string) (d : value) (props : list (string * value))
    (k : value -> option value) :
  String.eqb part protoKey = false ->
  ownProp part props = Some (dirEntry d) ->
  (let (entry, putEntry) := focus (VObject VObjectPrototype props) part in
   let (directory, putDirectory) := focus entry "directory" in
   bind (k directory) (fun directory' =>
   Some (putEntry (putDirectory directory'))))
  = bind (k d) (fun d' =>
    Some (VObject VObjectPrototype (putOwn part (dirEntry d') props))).
Proof.
  intros Hp Ho. rewrite (focus_plain props part Hp), Ho.
  reflexivity.
Qed.

(** The walk over ordinary parts throws nowhere and keeps the tree
    a tree of directories and handler files. *)
Lemma forEachPart_total (methods : string) (parts : list string) :
  forall cur,
    routeTree cur = true -> forallb ordinaryPart parts = true ->
    parts <> [] ->
    exists cur', forEachPart methods parts cur = Some cur'
                 /\ routeTree cur' = true.
Proof.
  induction parts as [| part rest IH]; intros cur Hc Hp Hne.
  - contradiction.
  - cbn [forallb] in Hp. apply andb_prop in Hp. destruct Hp as [Hp Hr].
    destruct (ordinaryPart_inv part Hp) as [Hm [Hk Hf]].
    destruct (routeTree_inv cur Hc) as [props [-> Hprops]].
    assert (Hset : forall v,
               setProp (VObject VObjectPrototype props) part v
               = Some (VObject VObjectPrototype (putOwn part v props))).
    { intros v. unfold setProp. rewrite Hk.
      destruct (ownProp part props); reflexivity. }
    destruct rest as [| part2 rest].
    + cbn [forEachPart]. rewrite Hset. eexists. split; [reflexivity |].
      cbn [routeTree]. apply routeEntries_putOwn; [| exact Hprops].
      apply routeEntry_dirEntry; [exact Hf |].
      apply routeTree_routeDirectory.
    + rewrite forEachPart_cons2.
      assert (Hstep : forall props1 d,
                 forallb (routeEntry routeTree) props1 = true ->
                 ownProp part props1 = Some (dirEntry d) ->
                 routeTree d = true ->
                 exists cur',
                   (let (entry, putEntry) :=
                      focus (VObject VObjectPrototype props1) part in
                    let (directory, putDirectory) :=
                      focus entry "directory" in
                    bind (forEachPart methods (part2 :: rest) directory)
                      (fun directory' =>
                         Some (putEntry (putDirectory directory'))))
                   = Some cur'
                   /\ routeTree cur' = true).
      { intros props1 d H1 Ho Hd.
        rewrite (descend part d props1 _ Hk Ho).
        destruct (IH d Hd Hr) as [d' [E Hd']]; [discriminate |].
        rewrite E. cbn [bind]. eexists. split; [reflexivity |].
        cbn [routeTree]. apply routeEntries_putOwn; [| exact H1].
        apply routeEntry_dirEntry; assumption. }
      unfold getProp. rewrite (focus_plain props part Hk).
      destruct (ownProp part props) as [e |] eqn:Ho.
      * pose proof (routeEntries_ownProp part e props Hprops Ho) as He.
        destruct (routeEntry_directory part e Hf He) as [d [-> Hd]].
        cbn [fst bind]. change (truthy (dirEntry d)) with true.
        cbn [bind]. exact (Hstep props d Hprops Ho Hd).
      * rewrite Hm. cbn [fst bind truthy]. rewrite Hset. cbn [bind].
        apply (Hstep _ (obj [])).
        -- apply routeEntries_putOwn; [| exact Hprops].
           apply routeEntry_dirEntry; [exact Hf | reflexivity].
        -- apply ownProp_putOwn_same.
        -- reflexivity.
Qed.

Lemma reduceFrom_addRoute_total (routes : list ApiRoute.t) :
  forall index acc,
    routeTree acc = true -> forallb ordinaryRoute routes = true ->
    exists acc', reduceFrom addRoute index routes acc = Some acc'
                 /\ routeTree acc' = true.
Proof.
  induction routes as [| route rest IH]; intros index acc Ha Hr.
  - exists acc. split; [reflexivity | exact Ha].
  - cbn [forallb] in Hr. apply andb_prop in Hr. destruct Hr as [H1 H2].
    cbn [reduceFrom]. unfold addRoute at 1.
    destruct (negb (isEmpty (routeMethods route))).
    + destruct (forEachPart_total (routeMethods route) (pathParts route)
                  acc Ha H1 (pathParts_not_nil route)) as [acc1 [E Ha1]].
      rewrite E. cbn [bind]. exact (IH (S index) acc1 Ha1 H2).
    + cbn [bind]. exact (IH (S index) acc Ha H2).
Qed.

Lemma directoryAt_app (p q : list string) :
  forall tree,
    directoryAt tree (p ++ q)
    = bind (directoryAt tree p) (fun d => directoryAt d q).
Proof.
  induction p as [| part rest IH]; intros tree.
  - reflexivity.
  - cbn [List.app directoryAt].
    destruct (ownOf tree part) as [e |]; [| reflexivity].
    destruct (ownOf e "directory") as [d |]; [| reflexivity].
    apply IH.
Qed.

(** A directory the walk has just written holds the handler file and
    no directory. *)
Lemma routeDirectory_leaf (methods part : string) (rest : list string) :
  directoryAt (routeDirectory methods) (part :: rest) = None.
Proof.
  unfold routeDirectory, obj. rewrite directoryAt_cons. cbn [ownProp].
  destruct (String.eqb part "route.ts"); reflexivity.
Qed.

End WalkFacts.

(* ===================================================================== *)
(** * Property order *)
(* ===================================================================== *)

Module OrderFacts.
Import Str Js Json Wire.

Section Order.

Context {A : Type}.

Lemma insertIndex_perm (kv : string * A) (l : list (string * A)) :
  Permutation (insertIndex kv l) (kv :: l).
Proof.
  induction l as [| x rest IH]; cbn [insertIndex].
  - apply Permutation_refl.
  - destruct (indexOf (fst kv) <=? indexOf (fst x))%N.
    + apply Permutation_refl.
    + apply perm_trans with (x :: kv :: rest).
      * apply perm_skip. exact IH.
      * apply perm_swap.
Qed.

Lemma sortIndices_perm (l : list (string * A)) :
  Permutation (sortIndices l) l.
Proof.
  induction l as [| kv rest IH]; cbn [sortIndices].
  - apply perm_nil.
  - apply perm_trans with (kv :: sortIndices rest).
    + apply insertIndex_perm.
    + apply perm_skip. exact IH.
Qed.

Lemma partition_perm (f : string * A -> bool) (l : list (string * A)) :
  Permutation (filter f l ++ filter (fun x => negb (f x)) l)%list l.
Proof.
  induction l as [| x rest IH]; cbn [filter].
  - apply perm_nil.
  - destruct (f x); cbn [negb List.app].
    + apply perm_skip. exact IH.
    + apply Permutation_sym.
      apply perm_trans with (x :: filter f rest
                               ++ filter (fun x => negb (f x)) rest)%list.
      * apply perm_skip. apply Permutation_sym. exact IH.
      * apply Permutation_middle.
Qed.

Lemma propertyOrder_perm (l : list (string * A)) :
  Permutation (propertyOrder l) l.
Proof.
  unfold propertyOrder.
  apply perm_trans
    with (filter (fun kv => isArrayIndex (fst kv)) l
          ++ filter (fun kv => negb (isArrayIndex (fst kv))) l)%list.
  - apply Permutation_app_tail. apply sortIndices_perm.
  - apply (partition_perm (fun kv => isArrayIndex (fst kv))).
Qed.

Lemma forallb_propertyOrder (P : string * A -> bool) (l : list (string * A)) :
  forallb P l = true -> forallb P (propertyOrder l) = true.
Proof.
  intros H. apply forallb_forall. intros x Hx.
  rewrite forallb_forall in H. apply H.
  exact (Permutation_in x (propertyOrder_perm l) Hx).
Qed.

End Order.

Section OrderMap.

Context {A B : Type}.
Variable f : A -> B.

Local Abbreviation onValue := (fun kv : string * A => (fst kv, f (snd kv))).

Lemma insertIndex_map (kv : string * A) (l : list (string * A)) :
  insertIndex (onValue kv) (map onValue l) = map onValue (insertIndex kv l).
Proof.
  induction l as [| x rest IH]; cbn [insertIndex map fst].
  - reflexivity.
  - destruct (indexOf (fst kv) <=? indexOf (fst x))%N.
    + reflexivity.
    + cbn [map]. rewrite IH. reflexivity.
Qed.

Lemma sortIndices_map (l : list (string * A)) :
  sortIndices (map onValue l) = map onValue (sortIndices l).
Proof.
  induction l as [| kv rest IH]; cbn [sortIndices map].
  - reflexivity.
  - rewrite IH. apply insertIndex_map.
Qed.

Lemma filter_key_map (p : string -> bool) (l : list (string * A)) :
  filter (fun kv => p (fst kv)) (map onValue l)
  = map onValue (filter (fun kv => p (fst kv)) l).
Proof.
  induction l as [| kv rest IH]; cbn [filter map fst].
  - reflexivity.
  - destruct (p (fst kv)); cbn [map]; rewrite IH; reflexivity.
Qed.

(** The order of the properties depends on their keys only. *)
Lemma propertyOrder_map (l : list (string * A)) :
  propertyOrder (map onValue l) = map onValue (propertyOrder l).
Proof.
  unfold propertyOrder.
  rewrite (filter_key_map isArrayIndex).
  rewrite (filter_key_map (fun k => negb (isArrayIndex k))).
  rewrite sortIndices_map, map_app. reflexivity.
Qed.

End OrderMap.

Lemma filter_all {A : Type} (P : A -> bool) (l : list A) :
  forallb P l = true -> filter P l = l.
Proof.
  induction l as [| x rest IH]; cbn [forallb filter]; intros H.
  - reflexivity.
  - apply andb_prop in H. destruct H as [H1 H2].
    rewrite H1, (IH H2). reflexivity.
Qed.

Lemma forallb_filter {A : Type} (P : A -> bool) (l : list A) :
  forallb P (filter P l) = true.
Proof.
  induction l as [| x rest IH]; cbn [filter].
  - reflexivity.
  - destruct (P x) eqn:E; [cbn [forallb]; rewrite E |]; exact IH.
Qed.

End OrderFacts.

(* ===================================================================== *)
(** * The response of the specification endpoint *)
(* ===================================================================== *)

Module SpecFacts.
Import Str Js Json Schema Wire SpecEndpoint Notions OrderFacts.

Lemma traverse_map {A B C : Type} (g : B -> option C) (h : A -> B)
    (k : A -> C) (l : list A) :
  (forall x, In x l -> g (h x) = Some (k x)) ->
  traverse g (map h l) = Some (map k l).
Proof.
  induction l as [| x rest IH]; intros H.
  - reflexivity.
  - cbn [map traverse]. rewrite (H x (or_introl eq_refl)).
    rewrite IH; [reflexivity |].
    intros y Hy. apply H. right. exact Hy.
Qed.

Lemma zArray_texts (l : list string) :
  zArray zString (texts l) = Some l.
Proof.
  unfold zArray, texts.
  rewrite (traverse_map zString JString (fun s => s)).
  - rewrite map_id. reflexivity.
  - reflexivity.
Qed.

Lemma zRecord_noProto {A : Type} (item : json -> option A) (j : json)
    (r : list (string * A)) :
  zRecord item j = Some r -> noProto r = true.
Proof.
  destruct j; try discriminate. unfold zRecord.
  destruct (traverse _ members) as [l |]; [| discriminate].
  cbn [option_map]. intros H. injection H as <-.
  apply (forallb_filter (fun kv : string * A =>
                           negb (String.eqb (fst kv) protoKey))).
Qed.

Lemma noProto_In {A : Type} (r : list (string * A)) (kv : string * A) :
  noProto r = true -> In kv r -> String.eqb (fst kv) protoKey = false.
Proof.
  unfold noProto. rewrite forallb_forall. intros H Hin.
  apply negb_true_iff. exact (H kv Hin).
Qed.

(** Validating a record the schema has produced gives it back, its
    keys in property order. *)
Lemma zRecord_convert {A : Type} (item : json -> option A)
    (write : A -> json) (norm : A -> A) (r : list (string * A)) :
  noProto r = true ->
  (forall kv, In kv r -> item (write (snd kv)) = Some (norm (snd kv))) ->
  zRecord item
    (JObject (propertyOrder (map (fun kv => (fst kv, write (snd kv))) r)))
  = Some (map (fun kv => (fst kv, norm (snd kv))) (propertyOrder r)).
Proof.
  intros Hn Hi. unfold zRecord.
  rewrite (propertyOrder_map write).
  rewrite (traverse_map _ (fun kv : string * A => (fst kv, write (snd kv)))
             (fun kv => (fst kv, norm (snd kv)))).
  - cbn [option_map]. f_equal. apply filter_all.
    rewrite forallb_forall. intros x Hx.
    apply in_map_iff in Hx. destruct Hx as [kv [<- Hkv]]. cbn [fst].
    apply negb_true_iff. apply (noProto_In r kv Hn).
    exact (Permutation_in kv (propertyOrder_perm r) Hkv).
  - intros kv Hkv. cbn [fst snd].
    rewrite (Hi kv (Permutation_in kv (propertyOrder_perm r) Hkv)).
    reflexivity.
Qed.

Lemma zRecord_record (r : list (string * string)) :
  noProto r = true ->
  zRecord zString (record r) = Some (propertyOrder r).
Proof.
  intros Hn. unfold record.
  rewrite (zRecord_convert zString JString (fun s => s) r Hn).
  - f_equal. rewrite <- (map_id (propertyOrder r)) at 2.
    apply map_ext. intros [k v]. reflexivity.
  - reflexivity.
Qed.

Lemma zRecord_records (r : list (string * list (string * string))) :
  noProto r = true ->
  (forall kv, In kv r -> noProto (snd kv) = true) ->
  zRecord (zRecord zString) (records r) = Some (ordered r).
Proof.
  intros Hn Hi. unfold records, ordered.
  apply (zRecord_convert (zRecord zString) record
           (fun x => propertyOrder x) r Hn).
  intros kv Hkv. apply zRecord_record. exact (Hi kv Hkv).
Qed.

Lemma traverse_all {A B : Type} (f : A -> option B) (l : list A)
    (r : list B) (P : B -> Prop) :
  (forall x y, f x = Some y -> P y) ->
  traverse f l = Some r -> forall y, In y r -> P y.
Proof.
  intros Hf. revert r. induction l as [| x rest IH]; intros r H y Hy.
  - injection H as <-. destruct Hy.
  - cbn [traverse] in H.
    destruct (f x) as [y0 |] eqn:E; [| discriminate].
    destruct (traverse f rest) as [ys |]; [| discriminate].
    injection H as <-. destruct Hy as [<- | Hy].
    + exact (Hf x y0 E).
    + exact (IH ys eq_refl y Hy).
Qed.

Lemma zRecord_inner_noProto (j : json)
    (r : list (string * list (string * string))) :
  zRecord (zRecord zString) j = Some r ->
  forall kv, In kv r -> noProto (snd kv) = true.
Proof.
  destruct j; try discriminate. unfold zRecord at 1.
  destruct (traverse _ members) as [l |] eqn:E; [| discriminate].
  cbn [option_map]. intros H kv Hkv. injection H as <-.
  apply filter_In in Hkv. destruct Hkv as [Hkv _].
  apply (traverse_all _ members l
           (fun kv => noProto (snd kv) = true)) with (y := kv) in E;
    [exact E | | exact Hkv].
  intros x y Hxy.
  destruct (zRecord zString (snd x)) as [inner |] eqn:Ei; [| discriminate].
  cbn [option_map] in Hxy. injection Hxy as <-. cbn [snd].
  exact (zRecord_noProto zString (snd x) inner Ei).
Qed.

Lemma SpecSchema_inv (doc : json) (s : Spec.t) :
  SpecSchema doc = Some s ->
  exists m,
    doc = JObject m
    /\ field zString "name" m = Some (Spec.name s)
    /\ field zString "description" m = Some (Spec.description s)
    /\ field (zArray zString) "frontend" m = Some (Spec.frontend s)
    /\ field (zRecord (zRecord zString)) "api" m = Some (Spec.api s)
    /\ field (zRecord (zRecord zString)) "dataModel" m
       = Some (Spec.dataModel s)
    /\ field (zArray zString) "features" m = Some (Spec.features s).
Proof.
  destruct doc as [| | | | | m]; try discriminate.
  unfold SpecSchema. intros H. exists m.
  destruct (field zString "name" m); [| discriminate].
  destruct (field zString "description" m); [| discriminate].
  destruct (field (zArray zString) "frontend" m); [| discriminate].
  destruct (field (zRecord (zRecord zString)) "api" m); [| discriminate].
  destruct (field (zRecord (zRecord zString)) "dataModel" m);
    [| discriminate].
  destruct (field (zArray zString) "features" m); [| discriminate].
  injection H as <-. cbn. repeat split; reflexivity.
Qed.

Lemma field_Some {A : Type} (item : json -> option A) (k : string)
    (m : list (string * json)) (a : A) :
  field item k m = Some a -> exists v, item v = Some a.
Proof.
  unfold field. destruct (member k m) as [v |]; [| discriminate].
  intros H. exists v. exact H.
Qed.

Lemma SpecSchema_specToJson (s : Spec.t) :
  noProto (Spec.api s) = true ->
  (forall kv, In kv (Spec.api s) -> noProto (snd kv) = true) ->
  noProto (Spec.dataModel s) = true ->
  (forall kv, In kv (Spec.dataModel s) -> noProto (snd kv) = true) ->
  SpecSchema (specToJson s)
  = Some (Spec.make (Spec.name s) (Spec.description s) (Spec.frontend s)
            (ordered (Spec.api s)) (ordered (Spec.dataModel s))
            (Spec.features s)).
Proof.
  intros Ha Hai Hd Hdi. unfold SpecSchema, specToJson, field.
  cbn [member String.eqb Ascii.eqb Bool.eqb].
  cbn [zString]. rewrite !zArray_texts.
  rewrite (zRecord_records _ Ha Hai), (zRecord_records _ Hd Hdi).
  reflexivity.
Qed.

Lemma tryBlock_inv (JSON_parse : string -> option json) (w : World)
    (s : Spec.t) :
  tryBlock JSON_parse w = Some s ->
  exists prompt content text parsed,
    destructurePrompt (requestBody w) = Some prompt
    /\ userContent prompt = Some content
    /\ completion w = Generate.Message (Some text)
    /\ isEmpty text = false
    /\ JSON_parse text = Some parsed
    /\ SpecSchema parsed = Some s.
Proof.
  unfold tryBlock. intros H.
  destruct (destructurePrompt (requestBody w)) as [prompt |] eqn:Eb;
    [| discriminate].
  cbn [Generate.bind] in H.
  destruct (userContent prompt) as [content |] eqn:Eu; [| discriminate].
  cbn [Generate.bind] in H.
  destruct (completion w) as [| [text |]]; try discriminate.
  destruct (isEmpty text) eqn:Et; [discriminate |].
  cbn [Generate.bind] in H.
  destruct (JSON_parse text) as [parsed |] eqn:Ep; [| discriminate].
  cbn [Generate.bind] in H.
  exists prompt, content, text, parsed. repeat split; assumption || reflexivity.
Qed.

End SpecFacts.

(* ===================================================================== *)
(** * The conversion of the client *)
(* ===================================================================== *)

Module ClientFacts.
Import Str Js Json Wire Client Notions.

(** Induction over a parsed value and the values inside it. *)
Lemma json_deep_ind (P : json -> Prop) :
  P JNull -> (forall b, P (JBool b)) -> (forall n, P (JNumber n)) ->
  (forall s, P (JString s)) ->
  (forall items, Forall P items -> P (JArray items)) ->
  (forall members, Forall (fun kv => P (snd kv)) members ->
                   P (JObject members)) ->
  forall j, P j.
Proof.
  intros Hn Hb Hnum Hs Ha Ho. fix IH 1. intros [| b | n | s | items | members].
  - exact Hn.
  - apply Hb.
  - apply Hnum.
  - apply Hs.
  - apply Ha. induction items as [| x rest IHl]; constructor.
    + apply IH.
    + exact IHl.
  - apply Ho. induction members as [| [k v] rest IHl]; constructor.
    + apply IH.
    + exact IHl.
Qed.

Lemma convert_object (members : list (string * json)) :
  convertToWebContainerFS (JObject members)
  = convertMembers convertToWebContainerFS members emptyFS.
Proof. reflexivity. Qed.

Lemma inList_app (k : string) (l1 l2 : list string) :
  inList k (l1 ++ l2) = inList k l1 || inList k l2.
Proof.
  induction l1 as [| x rest IH]; cbn [List.app inList].
  - reflexivity.
  - rewrite IH. apply orb_assoc.
Qed.

Lemma putEntry_absent (name : string) (x : node)
    (entries : list (string * node)) :
  inList name (map fst entries) = false ->
  putEntry name x entries = (entries ++ [(name, x)])%list.
Proof.
  induction entries as [| [k v] rest IH]; cbn [map fst inList putEntry];
    intros H.
  - reflexivity.
  - apply orb_false_elim in H. destruct H as [H1 H2].
    rewrite H1, (IH H2). reflexivity.
Qed.

Lemma distinct_cons_app (k : string) (done rest : list string) :
  distinct (done ++ k :: rest) = true ->
  inList k done = false /\ distinct ((done ++ [k]) ++ rest) = true.
Proof.
  induction done as [| x done' IH]; cbn [List.app distinct]; intros H.
  - split; [reflexivity | exact H].
  - apply andb_prop in H. destruct H as [H1 H2].
    destruct (IH H2) as [Hk Hd].
    apply negb_true_iff in H1. rewrite inList_app in H1.
    apply orb_false_elim in H1. destruct H1 as [Hx1 Hx2].
    cbn [inList] in Hx2. apply orb_false_elim in Hx2.
    destruct Hx2 as [Hxk Hx3].
    split.
    + cbn [inList]. rewrite Hk.
      rewrite String.eqb_sym, Hxk. reflexivity.
    + rewrite Hd, !inList_app. cbn [inList].
      rewrite Hx1, Hxk, Hx3. reflexivity.
Qed.

Lemma convertMembers_canonical (members : list (string * json)) :
  Forall (fun kv => forall k d, snd kv = JObject [(k, d)] -> converts d)
         members ->
  forall done,
    forallb (structureEntry canonical) members = true ->
    distinct (map fst done ++ map fst members) = true ->
    exists entries,
      convertMembers convertToWebContainerFS members (None, done)
      = Some (None, (done ++ entries)%list)
      /\ map (fun kv => (fst kv, asStructure (snd kv))) entries = members.
Proof.
  induction 1 as [| [name content] rest Hx _ IH]; intros done Hs Hd.
  - exists []. rewrite List.app_nil_r. split; reflexivity.
  - cbn [forallb] in Hs. apply andb_prop in Hs. destruct Hs as [He Hs].
    cbn [map fst] in Hd.
    destruct (distinct_cons_app name _ _ Hd) as [Hnew Hd'].
    unfold structureEntry in He. cbn [fst snd] in He.
    apply andb_prop in He. destruct He as [Hp He].
    apply negb_true_iff in Hp.
    destruct content as [| | | | | [| [k d] [| ? ?]]]; try discriminate.
    assert (Hnext : forall x,
               asStructure x = JObject [(k, d)] ->
               exists entries,
                 convertMembers convertToWebContainerFS rest
                   (assign (None, done) name x)
                 = Some (None, (done ++ entries)%list)
                 /\ map (fun kv => (fst kv, asStructure (snd kv))) entries
                    = (name, JObject [(k, d)]) :: rest).
    { intros x Hxs. unfold assign. rewrite Hp. cbn [fst snd].
      rewrite (putEntry_absent name x done Hnew).
      destruct (IH (done ++ [(name, x)])%list Hs) as [entries [E1 E2]].
      - rewrite map_app. exact Hd'.
      - exists ((name, x) :: entries). split.
        + rewrite E1, <- List.app_assoc. reflexivity.
        + cbn [map fst snd]. rewrite Hxs, E2. reflexivity. }
    cbn [convertMembers].
    apply orb_prop in He. destruct He as [He | He];
      apply andb_prop in He; destruct He as [Hk Hbody];
      apply String.eqb_eq in Hk; subst k.
    + destruct d as [| | | | | [| [c [| | | s0 | |]] [| ? ?]]];
        cbn [isFileBody] in Hbody; try discriminate Hbody.
      apply String.eqb_eq in Hbody. subst c.
      apply Hnext. reflexivity.
    + destruct (Hx "directory" d eq_refl Hbody) as [inner [Ec Es]].
      destruct d as [| | | | | dm]; try discriminate.
      unfold convertEntry, convertDirectory.
      cbn [prop member String.eqb Ascii.eqb Bool.eqb truthyOpt truthyJson
           map fst snd lookup].
      rewrite Ec. cbn [fst snd].
      apply Hnext. cbn [asStructure]. unfold structureOf in Es.
      cbn [snd] in Es. rewrite Es. reflexivity.
Qed.

Lemma convert_canonical_strong (j : json) :
  converts j /\ (forall k d, j = JObject [(k, d)] -> converts d).
Proof.
  induction j as [| b | n | s | items _ | members IH] using json_deep_ind;
    try (split; [unfold converts; discriminate | discriminate]).
  split.
  - intros Hc. cbn [canonical] in Hc.
    apply andb_prop in Hc. destruct Hc as [Hd Hs].
    destruct (convertMembers_canonical members) with (done := @nil (string * node))
      as [entries [E1 E2]].
    + apply (Forall_impl _ (P := fun kv => converts (snd kv) /\
               (forall k d, snd kv = JObject [(k, d)] -> converts d)));
        [| exact IH].
      intros kv [_ H]. exact H.
    + exact Hs.
    + exact Hd.
    + exists entries. rewrite convert_object. split.
      * exact E1.
      * unfold structureOf. cbn [snd]. rewrite E2. reflexivity.
  - intros k d Heq. injection Heq as ->.
    inversion IH as [| ? ? [Hd _] _]. exact Hd.
Qed.

Lemma convert_canonical (j : json) : converts j.
Proof. exact (proj1 (convert_canonical_strong j)). Qed.

End ClientFacts.

(* ===================================================================== *)
(** * The shape of the tree the handler sends *)
(* ===================================================================== *)

Module StructureFacts.
Import Str Js JsFacts Json Schema Generate GenerateFacts Wire Notions.
Import OrderFacts ClientFacts.

Lemma inList_In (k : string) (l : list string) :
  inList k l = true <-> In k l.
Proof.
  induction l as [| x rest IH]; cbn [inList In].
  - split; [discriminate | contradiction].
  - rewrite orb_true_iff, IH, String.eqb_eq. split; intros [H | H]; auto.
Qed.

Lemma distinct_NoDup (l : list string) : distinct l = true <-> NoDup l.
Proof.
  induction l as [| x rest IH]; cbn [distinct].
  - split; [constructor | reflexivity].
  - rewrite andb_true_iff, negb_true_iff, IH. split.
    + intros [H1 H2]. constructor; [| exact H2].
      intros Hin. apply inList_In in Hin. congruence.
    + intros H. inversion H as [| ? ? Hn Hd]. subst. split; [| exact Hd].
      destruct (inList x rest) eqn:E; [| reflexivity].
      apply inList_In in E. contradiction.
Qed.

Lemma distinct_propertyOrder {A : Type} (l : list (string * A)) :
  distinct (map fst l) = true ->
  distinct (map fst (propertyOrder l)) = true.
Proof.
  rewrite !distinct_NoDup. intros H.
  apply (Permutation_NoDup (l := map fst l)); [| exact H].
  apply Permutation_map, Permutation_sym, propertyOrder_perm.
Qed.

Lemma inList_putOwn (k k' : string) (v : value)
    (props : list (string * value)) :
  inList k' (map fst (putOwn k v props))
  = inList k' (map fst props) || String.eqb k' k.
Proof.
  induction props as [| [k0 v0] rest IH]; cbn [putOwn map fst inList].
  - rewrite orb_false_r. reflexivity.
  - destruct (String.eqb_spec k k0) as [-> | Hne]; cbn [map fst inList].
    + destruct (String.eqb k' k0); [reflexivity |].
      cbn [orb]. rewrite orb_false_r. reflexivity.
    + rewrite IH. rewrite orb_assoc. reflexivity.
Qed.

Lemma distinct_putOwn (k : string) (v : value)
    (props : list (string * value)) :
  distinct (map fst props) = true ->
  distinct (map fst (putOwn k v props)) = true.
Proof.
  induction props as [| [k0 v0] rest IH]; cbn [putOwn map fst distinct];
    intros H.
  - reflexivity.
  - apply andb_prop in H. destruct H as [H1 H2].
    destruct (String.eqb_spec k k0) as [-> | Hne]; cbn [map fst distinct].
    + rewrite H1, H2. reflexivity.
    + rewrite (IH H2), inList_putOwn.
      apply negb_true_iff in H1. rewrite H1.
      destruct (String.eqb_spec k0 k) as [-> | _]; [contradiction |].
      reflexivity.
Qed.

Lemma structuredEntries_putOwn (k : string) (v : value)
    (props : list (string * value)) :
  structuredEntry structured (k, v) = true ->
  forallb (structuredEntry structured) props = true ->
  forallb (structuredEntry structured) (putOwn k v props) = true.
Proof.
  intros Hv. induction props as [| [k' v'] rest IH]; intros H.
  - cbn [putOwn forallb]. rewrite Hv. reflexivity.
  - cbn [putOwn]. cbn [forallb] in H.
    apply andb_prop in H. destruct H as [H1 H2].
    destruct (String.eqb k k').
    + cbn [forallb]. rewrite Hv, H2. reflexivity.
    + cbn [forallb]. rewrite H1, (IH H2). reflexivity.
Qed.

Lemma structured_obj (props : list (string * value)) :
  structured (VObject VObjectPrototype props)
  = distinct (map fst props) && forallb (structuredEntry structured) props.
Proof. reflexivity. Qed.

Lemma structured_putOwn (k : string) (v : value)
    (props : list (string * value)) :
  structuredEntry structured (k, v) = true ->
  structured (VObject VObjectPrototype props) = true ->
  structured (VObject VObjectPrototype (putOwn k v props)) = true.
Proof.
  rewrite !structured_obj. intros Hv H.
  apply andb_prop in H. destruct H as [H1 H2].
  rewrite (distinct_putOwn k v props H1).
  rewrite (structuredEntries_putOwn k v props Hv H2). reflexivity.
Qed.

Lemma structuredEntries_ownProp (k : string) (e : value)
    (props : list (string * value)) :
  forallb (structuredEntry structured) props = true ->
  ownProp k props = Some e ->
  structuredEntry structured (k, e) = true.
Proof.
  induction props as [| [k' v'] rest IH]; intros H Ho.
  - discriminate Ho.
  - cbn [forallb] in H. apply andb_prop in H. destruct H as [H1 H2].
    cbn [ownProp] in Ho.
    destruct (String.eqb_spec k k') as [-> | _].
    + injection Ho as <-. exact H1.
    + exact (IH H2 Ho).
Qed.

Lemma structuredEntry_file (k contents : string) :
  String.eqb k protoKey = false ->
  structuredEntry structured (k, fileEntry contents) = true.
Proof.
  intros Hk. unfold structuredEntry. cbn [fst snd fileEntry obj].
  rewrite Hk. reflexivity.
Qed.

Lemma structuredEntry_directory (k : string) (d : value) :
  String.eqb k protoKey = false -> structured d = true ->
  structuredEntry structured (k, dirEntry d) = true.
Proof.
  intros Hk Hd. unfold structuredEntry. cbn [fst snd dirEntry obj].
  rewrite Hk, Hd. reflexivity.
Qed.

(** An entry with an own [directory] is a directory entry. *)
Lemma structuredEntry_own_directory (k : string)
    (eprops : list (string * value)) (d : value) :
  structuredEntry structured (k, VObject VObjectPrototype eprops) = true ->
  ownProp "directory" eprops = Some d ->
  eprops = [("directory", d)] /\ structured d = true.
Proof.
  unfold structuredEntry. cbn [fst snd]. intros H Ho.
  apply andb_prop in H. destruct H as [_ H].
  destruct eprops as [| [k1 d1] [| ? ?]]; try discriminate.
  apply orb_prop in H. destruct H as [H | H];
    apply andb_prop in H; destruct H as [Hk Hb];
    apply String.eqb_eq in Hk; subst k1.
  - discriminate Ho.
  - cbn in Ho. injection Ho as ->. split; [reflexivity | exact Hb].
Qed.

Lemma forEachPart_structured (methods : string) (parts : list string) :
  forall cur cur',
    plain cur = true -> structured cur = true ->
    noProtoKey parts = true -> parts <> [] ->
    forEachPart methods parts cur = Some cur' ->
    structured cur' = true.
Proof.
  induction parts as [| part rest IH]; intros cur cur' Hp Hs Hn Hne E.
  - contradiction.
  - destruct (noProtoKey_cons part rest Hn) as [Hk Hn'].
    destruct rest as [| part2 rest].
    + destruct (forEachPart_last methods part cur cur' Hp Hk E)
        as [props [-> [_ ->]]].
      apply structured_putOwn; [| exact Hs].
      apply structuredEntry_directory; [exact Hk | reflexivity].
    + destruct (forEachPart_step methods part part2 rest cur cur' Hp Hk E)
        as [props0 [props [eprops [d [d' H]]]]].
      destruct H as [-> [Hprops [_ [Ho [_ [Hod [Hpd [Ed ->]]]]]]]].
      assert (Hs1 : structured (VObject VObjectPrototype props) = true).
      { destruct Hprops as [-> | [_ ->]]; [exact Hs |].
        apply structured_putOwn; [| exact Hs].
        apply structuredEntry_directory; [exact Hk | reflexivity]. }
      pose proof Hs1 as Hs2. rewrite structured_obj in Hs2.
      apply andb_prop in Hs2. destruct Hs2 as [_ Hall].
      pose proof (structuredEntries_ownProp part _ props Hall Ho) as He.
      destruct (structuredEntry_own_directory part eprops d He Hod)
        as [-> Hsd].
      apply structured_putOwn; [| exact Hs1].
      change (putOwn "directory" d' [("directory", d)])
        with [("directory", d')].
      apply (structuredEntry_directory part d' Hk).
      apply (IH d d' Hpd Hsd Hn'); [discriminate | exact Ed].
Qed.

Lemma reduceFrom_addRoute_structured (routes : list ApiRoute.t) :
  forall index acc acc',
    plain acc = true -> structured acc = true ->
    noProtoKeys routes = true ->
    reduceFrom addRoute index routes acc = Some acc' ->
    structured acc' = true.
Proof.
  induction routes as [| route rest IH]; intros index acc acc' Hp Hs Hn E.
  - injection E as <-. exact Hs.
  - cbn [noProtoKeys forallb] in Hn. apply andb_prop in Hn.
    destruct Hn as [Hn1 Hn2].
    cbn [reduceFrom] in E. apply bind_Some in E.
    destruct E as [acc1 [E1 E2]].
    apply (IH (S index) acc1 acc'); [| | exact Hn2 | exact E2].
    + exact (addRoute_plain acc acc1 route index Hp Hn1 E1).
    + unfold addRoute in E1.
      destruct (negb (isEmpty (routeMethods route))).
      * exact (forEachPart_structured _ _ acc acc1 Hp Hs Hn1
                 (pathParts_not_nil route) E1).
      * injection E1 as <-. exact Hs.
Qed.

(** A reduce that writes one file per element under a key other than
    [__proto__]. *)
Lemma reduceFrom_files_structured {A : Type} (key : A -> nat -> string)
    (contents : A -> string) (l : list A) :
  (forall x i, String.eqb (key x i) protoKey = false) ->
  forall index acc acc',
    structured acc = true ->
    reduceFrom (fun acc x i => setProp acc (key x i) (fileEntry (contents x)))
               index l acc = Some acc' ->
    structured acc' = true.
Proof.
  intros Hk. induction l as [| x rest IH]; intros index acc acc' Hs E.
  - injection E as <-. exact Hs.
  - cbn [reduceFrom] in E. apply bind_Some in E.
    destruct E as [acc1 [E1 E2]].
    apply (IH (S index) acc1 acc'); [| exact E2].
    destruct acc as [| | | | proto props]; try discriminate.
    destruct proto; try discriminate.
    unfold setProp in E1. rewrite Hk in E1.
    assert (acc1 = VObject VObjectPrototype
                     (putOwn (key x index) (fileEntry (contents x)) props))
      as ->.
    { destruct (ownProp (key x index) props); congruence. }
    apply structured_putOwn; [| exact Hs].
    apply structuredEntry_file. apply Hk.
Qed.

End StructureFacts.

(* ===================================================================== *)
(** * From the tree of the handler to the mounted file system *)
(* ===================================================================== *)

Module WireFacts.
Import Str Js JsFacts Json Schema Generate GenerateFacts FilesFacts Wire.
Import Client Notions OrderFacts ClientFacts StructureFacts AssemblyMore.

(** Induction over a value and the values inside it. *)
Lemma value_deep_ind (P : value -> Prop) :
  P VUndefined -> (forall s, P (VString s)) -> P VObjectPrototype ->
  (forall n, P (VFunction n)) ->
  (forall proto props,
      P proto -> Forall (fun kv => P (snd kv)) props ->
      P (VObject proto props)) ->
  forall v, P v.
Proof.
  intros Hu Hs Hp Hf Ho. fix IH 1. intros [| s | | n | proto props].
  - exact Hu.
  - apply Hs.
  - exact Hp.
  - apply Hf.
  - apply Ho; [apply IH |].
    induction props as [| [k v] rest IHl]; constructor.
    + apply IH.
    + exact IHl.
Qed.

Lemma roundTrip_entries (props : list (string * value)) :
  Forall (fun kv => forall k d,
              snd kv = VObject VObjectPrototype [(k, d)] -> wires d) props ->
  forallb (structuredEntry structured) props = true ->
  exists members,
    present (map (fun kv => (fst kv, roundTrip (snd kv))) props) = members
    /\ map fst members = map fst props
    /\ forallb (structureEntry canonical) members = true.
Proof.
  induction 1 as [| [name e] rest Hx _ IH]; intros Hs.
  - exists []. repeat split.
  - cbn [forallb] in Hs. apply andb_prop in Hs. destruct Hs as [He Hs].
    destruct (IH Hs) as [members [E1 [E2 E3]]].
    unfold structuredEntry in He. cbn [fst snd] in He.
    apply andb_prop in He. destruct He as [Hp He].
    destruct e as [| | | | proto eprops]; try discriminate.
    destruct proto; try discriminate.
    destruct eprops as [| [k d] [| ? ?]]; try discriminate.
    apply orb_prop in He. destruct He as [He | He];
      apply andb_prop in He; destruct He as [Hk Hb];
      apply String.eqb_eq in Hk; subst k.
    + destruct d as [| | | | dproto dprops]; try discriminate.
      destruct dproto; try discriminate.
      destruct dprops as [| [c [| s | | |]] [| ? ?]]; try discriminate.
      cbn [isContents] in Hb. apply String.eqb_eq in Hb. subst c.
      exists ((name, JObject [("file", JObject [("contents", JString s)])])
                :: members).
      split; [| split].
      * cbn [map fst snd]. rewrite <- E1. reflexivity.
      * cbn [map fst]. rewrite E2. reflexivity.
      * cbn [forallb]. rewrite E3. unfold structureEntry. cbn [fst snd].
        rewrite Hp. reflexivity.
    + destruct (Hx "directory" d eq_refl Hb) as [dm [Ew Ec]].
      exists ((name, JObject [("directory", JObject dm)]) :: members).
      split; [| split].
      * cbn [map fst snd]. rewrite <- E1.
        cbn [roundTrip map fst snd]. rewrite Ew. reflexivity.
      * cbn [map fst]. rewrite E2. reflexivity.
      * cbn [forallb]. rewrite E3. unfold structureEntry. cbn [fst snd].
        rewrite Hp, Ec. reflexivity.
Qed.

Lemma roundTrip_structured_strong (v : value) :
  wires v
  /\ (forall k d, v = VObject VObjectPrototype [(k, d)] -> wires d).
Proof.
  induction v as [| s | | n | proto props _ IH] using value_deep_ind;
    try (split; [unfold wires; discriminate | discriminate]).
  split.
  - intros Hs. destruct proto; try discriminate.
    rewrite structured_obj in Hs. apply andb_prop in Hs.
    destruct Hs as [Hd Hall].
    destruct (roundTrip_entries props) as [members [E1 [E2 E3]]].
    + apply (Forall_impl _ (P := fun kv => wires (snd kv) /\
               (forall k d, snd kv = VObject VObjectPrototype [(k, d)]
                            -> wires d)));
        [| exact IH].
      intros kv [_ H]. exact H.
    + exact Hall.
    + exists (propertyOrder members). split.
      * cbn [roundTrip]. rewrite E1. reflexivity.
      * cbn [canonical].
        rewrite distinct_propertyOrder by (rewrite E2; exact Hd).
        rewrite forallb_propertyOrder by exact E3. reflexivity.
  - intros k d Heq. injection Heq as -> ->.
    inversion IH as [| ? ? [Hd _] _]. exact Hd.
Qed.

Lemma roundTrip_structured (v : value) : wires v.
Proof. exact (proj1 (roundTrip_structured_strong v)). Qed.

Lemma reduce_addUtil_structured (utils : list string) (utilsDir : value) :
  reduce addUtil utils (obj []) = Some utilsDir ->
  structured utilsDir = true.
Proof.
  apply (reduceFrom_files_structured (fun _ index => utilName index)
           (fun util => util) utils); [| reflexivity].
  intros _ i. apply utilName_not_proto.
Qed.

Lemma reduce_addComponent_structured (components : list Component.t)
    (componentsDir : value) :
  reduce addComponent components (obj []) = Some componentsDir ->
  structured componentsDir = true.
Proof.
  apply (reduceFrom_files_structured
           (fun c _ => Component.name c ++ ".tsx") Component.code components);
    [| reflexivity].
  intros c _. apply tsx_not_proto.
Qed.

Lemma layout_structured (name : string) (g : GeneratedCode.t)
    (utilsDir apiDir componentsDir : value) :
  structured utilsDir = true -> structured apiDir = true ->
  structured componentsDir = true ->
  structured (layout name g utilsDir apiDir componentsDir) = true.
Proof.
  intros Hu Ha Hc. unfold layout, obj, dirEntry, fileEntry, obj.
  cbn. rewrite Hu, Ha, Hc. reflexivity.
Qed.

Lemma files_structured (name : string) (g : GeneratedCode.t) (tree : value) :
  Generate.files name g = Some tree ->
  noProtoKeys (GeneratedCode.apiRoutes g) = true ->
  structured tree = true.
Proof.
  intros E Hn.
  destruct (files_inv name g tree E) as [u [a [c [Eu [Ea [Ec ->]]]]]].
  apply layout_structured.
  - exact (reduce_addUtil_structured _ u Eu).
  - apply (reduceFrom_addRoute_structured (GeneratedCode.apiRoutes g)
             0 (obj []) a); [reflexivity | reflexivity | exact Hn | exact Ea].
  - exact (reduce_addComponent_structured _ c Ec).
Qed.

Lemma convertMembers_null (convert : json -> option fileSystem)
    (name : string) (members : list (string * json)) :
  In (name, JNull) members ->
  forall result, convertMembers convert members result = None.
Proof.
  induction members as [| [k content] rest IH]; intros Hin result.
  - destruct Hin.
  - cbn [convertMembers]. destruct Hin as [Heq | Hin].
    + injection Heq as -> ->. reflexivity.
    + destruct (convertEntry k content _ result); [| reflexivity].
      apply IH. exact Hin.
Qed.

End WireFacts.

(* ===================================================================== *)
(** * Validation, element by element *)
(* ===================================================================== *)

Module ValidationFacts.
Import Json Schema.

Lemma traverse_Forall2 {A B : Type} (f : A -> option B) (l : list A)
    (r : list B) :
  traverse f l = Some r <-> Forall2 (fun x y => f x = Some y) l r.
Proof.
  revert r. induction l as [| x rest IH]; intros r; cbn [traverse].
  - split.
    + intros H. injection H as <-. constructor.
    + intros H. inversion H. reflexivity.
  - split.
    + destruct (f x) as [y |] eqn:E; [| discriminate].
      destruct (traverse f rest) as [ys |]; [| discriminate].
      intros H. injection H as <-. constructor; [exact E |].
      apply IH. reflexivity.
    + intros H. inversion H as [| ? y ? ys Hy Hys]. subst.
      rewrite Hy. apply IH in Hys. rewrite Hys. reflexivity.
Qed.

Lemma field_array {A : Type} (item : json -> option A) (k : string)
    (m : list (string * json)) (r : list A) :
  field (zArray item) k m = Some r <->
  exists items, member k m = Some (JArray items)
                /\ Forall2 (fun j y => item j = Some y) items r.
Proof.
  unfold field. split.
  - destruct (member k m) as [[| | | | items |] |]; try discriminate.
    cbn [zArray]. intros H. exists items. split; [reflexivity |].
    apply traverse_Forall2. exact H.
  - intros [items [-> H]]. cbn [zArray]. apply traverse_Forall2. exact H.
Qed.

Lemma field_string (k : string) (m : list (string * json)) (s : string) :
  field zString k m = Some s <-> member k m = Some (JString s).
Proof.
  unfold field. split.
  - destruct (member k m) as [[| | | s' | |] |]; try discriminate.
    cbn [zString]. intros H. injection H as ->. reflexivity.
  - intros ->. reflexivity.
Qed.

End ValidationFacts.

(* ===================================================================== *)
(** * Paths that leave the ordinary *)
(* ===================================================================== *)

Module EdgeFacts.
Import Str StrFacts Js JsFacts Schema Generate GenerateFacts Notions.

(** The marker is removed where it first occurs, also inside the path. *)
Lemma replaceFirst_after (pat a rest : string) (c : ascii) :
  all (fun x => negb (Ascii.eqb x c)) a = true ->
  replaceFirst (String c pat) "" (a ++ String c pat ++ rest) = a ++ rest.
Proof.
  induction a as [| x a' IH]; intros Ha.
  - exact (RouteMore.replaceFirst_prefix (String c pat) rest).
  - cbn [all] in Ha. apply andb_prop in Ha. destruct Ha as [Hx Ha'].
    apply negb_true_iff in Hx.
    change (String x a' ++ String c pat ++ rest)
      with (String x (a' ++ String c pat ++ rest)).
    cbn [replaceFirst stripPrefix]. rewrite Ascii.eqb_sym, Hx.
    change (String x a' ++ rest) with (String x (a' ++ rest)).
    f_equal. exact (IH Ha').
Qed.

Lemma methods_not_proto (part : string) :
  inList part objectPrototypeMethods = true ->
  String.eqb part protoKey = false.
Proof.
  intros H. destruct (String.eqb_spec part protoKey) as [-> | _];
    [discriminate H | reflexivity].
Qed.

(** A part that names what every object inherits, and is no own
    property, leads the walk to [undefined]. *)
Lemma forEachPart_inherited (methods part part2 : string)
    (rest : list string) (props : list (string * value)) :
  ownProp part props = None ->
  inList part objectPrototypeMethods = true \/ part = protoKey ->
  forEachPart methods (part :: part2 :: rest) (VObject VObjectPrototype props)
  = None.
Proof.
  intros Ho Hi. rewrite forEachPart_cons2. unfold getProp.
  assert (Hu : forEachPart methods (part2 :: rest) VUndefined = None)
    by (apply forEachPart_undefined; discriminate).
  destruct Hi as [Hi | ->].
  - rewrite (focus_plain props part (methods_not_proto part Hi)), Ho, Hi.
    cbn [fst bind truthy].
    rewrite (focus_plain props part (methods_not_proto part Hi)), Ho, Hi.
    cbn [focus focusChain]. rewrite Hu. reflexivity.
  - unfold focus at 1. rewrite Ho. cbn [String.eqb Ascii.eqb Bool.eqb protoKey].
    cbn [fst bind truthy]. unfold focus at 1. rewrite Ho.
    cbn [String.eqb Ascii.eqb Bool.eqb protoKey].
    cbn [focus focusChain]. rewrite directory_not_inherited.
    rewrite Hu. reflexivity.
Qed.

(** On an empty directory the walk throws when any part before the
    last names what every object inherits: the parts before it create
    empty directories, or throw themselves. *)
Lemma forEachPart_inherited_within (methods part part2 : string)
    (rest : list string) :
  inList part objectPrototypeMethods = true \/ part = protoKey ->
  forall before,
    forEachPart methods (before ++ part :: part2 :: rest)%list (obj []) = None.
Proof.
  intros Hi. induction before as [| p before' IH].
  - exact (forEachPart_inherited methods part part2 rest [] eq_refl Hi).
  - cbn [List.app].
    destruct (before' ++ part :: part2 :: rest)%list as [| x xs] eqn:E.
    { destruct before'; discriminate E. }
    destruct (inList p objectPrototypeMethods) eqn:Hm.
    { exact (forEachPart_inherited methods p x xs [] eq_refl
               (or_introl Hm)). }
    destruct (String.eqb_spec p protoKey) as [-> | Hne].
    { exact (forEachPart_inherited methods protoKey x xs [] eq_refl
               (or_intror eq_refl)). }
    assert (Hk : String.eqb p protoKey = false)
      by (apply String.eqb_neq; exact Hne).
    rewrite forEachPart_cons2. unfold getProp, obj.
    rewrite (focus_plain [] p Hk). cbn [ownProp]. rewrite Hm.
    cbn [fst bind truthy]. unfold setProp. cbn [ownProp]. rewrite Hk.
    cbn [putOwn bind].
    rewrite (WalkFacts.descend p (obj []) [(p, dirEntry (obj []))] _ Hk).
    + rewrite IH. reflexivity.
    + cbn [ownProp]. rewrite String.eqb_refl. reflexivity.
Qed.

Lemma ordinary_noProtoKey (parts : list string) :
  forallb ordinaryPart parts = true -> noProtoKey parts = true.
Proof.
  unfold noProtoKey. induction parts as [| part rest IH]; cbn [forallb].
  - reflexivity.
  - intros H. apply andb_prop in H. destruct H as [H1 H2].
    destruct (WalkFacts.ordinaryPart_inv part H1) as [_ [Hk _]].
    rewrite Hk, (IH H2). reflexivity.
Qed.

Lemma ordinary_noProtoKeys (routes : list ApiRoute.t) :
  forallb ordinaryRoute routes = true -> noProtoKeys routes = true.
Proof.
  unfold noProtoKeys. induction routes as [| route rest IH]; cbn [forallb].
  - reflexivity.
  - intros H. apply andb_prop in H. destruct H as [H1 H2].
    rewrite (ordinary_noProtoKey _ H1), (IH H2). reflexivity.
Qed.

End EdgeFacts.

(* ===================================================================== *)
(** * Properties of the handler *)
(* ===================================================================== *)

(** C5.  The endpoint fails closed: when the parsed content of the
    model response does not conform to [GeneratedCodeSchema], the
    response is the error and nothing else; and every response is
    either that error, with status 500, or, with status 200, the
    complete structure assembled from a content that conforms: its
    five entries, with one file for every utility in [utils] and
    nothing else there, with the file of every component name in
    [components], and under [app/api] the fold of all routes, in which
    every route with a method that no later route overwrites has its
    handler file. *)
Theorem generation_fails_closed (JSON_parse : string -> option json)
    (stringifies : json -> bool) (responds : value -> bool) (w : World) :
  let errorOnly :=
    {| status := 500;
       body := VObject VObjectPrototype
                 [("error",
                   VString "Failed to generate code. Please try again.")] |} in
  (forall text parsed,
      completion w = Message (Some text) ->
      JSON_parse text = Some parsed ->
      GeneratedCodeSchema parsed = None ->
      POST JSON_parse stringifies responds w = errorOnly)
  /\ (POST JSON_parse stringifies responds w = errorOnly
      \/ exists text parsed generatedCode spec name utilsEntries apiDir
                componentsDir,
           completion w = Message (Some text)
           /\ JSON_parse text = Some parsed
           /\ GeneratedCodeSchema parsed = Some generatedCode
           /\ destructureSpec (requestBody w) = Some spec
           /\ specName spec = Some name
           /\ POST JSON_parse stringifies responds w
              = {| status := 200;
                   body :=
                     VObject VObjectPrototype
                       [ ("package.json", fileOf (packageJson name));
                         ("types",
                          directoryOf
                            [("index.ts",
                              fileOf (GeneratedCode.types generatedCode))]);
                         ("utils", directoryOf utilsEntries);
                         ("app",
                          directoryOf
                            [ ("api",
                               VObject VObjectPrototype
                                 [("directory", apiDir)]);
                              ("page.tsx",
                               fileOf
                                 (pageSource name
                                    (GeneratedCode.components
                                       generatedCode))) ]);
                         ("components",
                          VObject VObjectPrototype
                            [("directory", componentsDir)]) ] |}
           /\ List.length utilsEntries
              = List.length (GeneratedCode.utils generatedCode)
           /\ (forall i util,
                  nth_error (GeneratedCode.utils generatedCode) i = Some util ->
                  ownProp ("util" ++ Str.ofNat (i + 1) ++ ".ts") utilsEntries
                  = Some (fileOf util))
           /\ (forall component,
                  In component (GeneratedCode.components generatedCode) ->
                  exists last,
                    In last (GeneratedCode.components generatedCode)
                    /\ Component.name last = Component.name component
                    /\ ownOf componentsDir (Component.name component ++ ".tsx")
                       = Some (fileOf (Component.code last)))
           /\ reduce addRoute (GeneratedCode.apiRoutes generatedCode)
                 (VObject VObjectPrototype [])
              = Some apiDir
           /\ (forall before route after,
                  GeneratedCode.apiRoutes generatedCode
                  = (before ++ route :: after)%list ->
                  noProtoKeys (GeneratedCode.apiRoutes generatedCode) = true ->
                  ApiRoute.methods route <> [] ->
                  forallb (sparesPath (pathParts route)) after = true ->
                  entryAt apiDir (pathParts route) "route.ts"
                  = Some (routeFileOf
                            (Str.join (lineFeed ++ lineFeed)
                               (map (fun m =>
                                       handlerOf (fst m)
                                         (ApiMethod.code (snd m)))
                                    (ApiRoute.methods route)))))).
Proof.
  intros errorOnly. split.
  - intros text parsed Hc Hp Hs. unfold POST, tryBlock.
    destruct (destructureSpec (requestBody w)) as [spec |]; [|reflexivity].
    cbn [bind].
    destruct (match spec with
              | Some j => if stringifies j then Some tt else None
              | None => Some tt
              end); [|reflexivity].
    cbn [bind]. rewrite Hc.
    destruct (Str.isEmpty text); [reflexivity|].
    cbn [bind]. rewrite Hp. cbn [bind]. rewrite Hs. reflexivity.
  - unfold POST.
    destruct (tryBlock JSON_parse stringifies responds w) as [tree|] eqn:E;
      [right|left; reflexivity].
    unfold tryBlock in E.
    apply GenerateFacts.bind_Some in E as (spec & Hspec & E).
    apply GenerateFacts.bind_Some in E as (u0 & _ & E).
    apply GenerateFacts.bind_Some in E as (content & Hcontent & E).
    apply GenerateFacts.bind_Some in E as (parsed & Hparsed & E).
    apply GenerateFacts.bind_Some in E as (g & Hg & E).
    apply GenerateFacts.bind_Some in E as (name & Hname & E).
    apply GenerateFacts.bind_Some in E as (tree' & Hfiles & E).
    destruct (responds tree'); [|discriminate]. injection E as <-.
    apply FilesFacts.files_inv in Hfiles as (u & a & c & Hu & Ha & Hc & ->).
    unfold reduce in Hu.
    rewrite (AssemblyMore.reduceFrom_addUtil
               (GeneratedCode.utils g) 0 []) in Hu by reflexivity.
    injection Hu as <-. cbn [List.app].
    destruct (AssemblyMore.reduceFrom_addComponent
                (GeneratedCode.components g) 0 []) as [cprops [Er Hl]].
    unfold reduce in Hc. rewrite Er in Hc. injection Hc as <-.
    exists content, parsed, g, spec, name,
      (Notions.numbered 0 (GeneratedCode.utils g)), a,
      (VObject VObjectPrototype cprops).
    split.
    { destruct (completion w) as [|[text|]]; try discriminate.
      destruct (Str.isEmpty text); [discriminate|].
      injection Hcontent as ->. reflexivity. }
    split; [exact Hparsed|]. split; [exact Hg|]. split; [exact Hspec|].
    split; [exact Hname|]. split; [reflexivity|].
    split; [apply AssemblyMore.numbered_length|].
    split.
    { intros i util Hi.
      exact (AssemblyMore.numbered_lookup _ 0 i util Hi). }
    split.
    { intros component Hin.
      destruct (AssemblyMore.lastNamed_In (Component.name component)
                  (GeneratedCode.components g) component Hin eq_refl)
        as [last [Hlast [Hin' Hn]]].
      exists last. split; [exact Hin'|]. split; [exact Hn|].
      cbn [ownOf]. rewrite (Hl (Component.name component)), Hlast.
      reflexivity. }
    split; [exact Ha|].
    intros before route after Hroutes Hn Hm Hs.
    rewrite Hroutes in Ha, Hn.
    rewrite (GenerateFacts.reduce_addRoute_layout _ _ _ _ Ha Hn);
      [reflexivity| |exact Hs].
    rewrite GenerateFacts.routeMethods_empty.
    destruct (ApiRoute.methods route); [congruence|reflexivity].
Qed.

Lemma generation_fails_closed_witness :
  let w :=
    {| requestBody :=
         Some (JObject [("spec", JObject [("name", JString "Todo App")])]);
       completion := Message (Some "{ components: 3 }") |} in
  let parse := fun _ : string => Some (JObject [("components", JNumber "3")]) in
  POST parse (fun _ => true) (fun _ => true) w
  = {| status := 500;
       body := VObject VObjectPrototype
                 [("error",
                   VString "Failed to generate code. Please try again.")] |}.
Proof.
  intros w parse.
  apply (proj1 (generation_fails_closed parse (fun _ => true) (fun _ => true) w)
               "{ components: 3 }" (JObject [("components", JNumber "3")]));
    reflexivity.
Defined.

(* ===================================================================== *)
(** * Further properties of the generation endpoint *)
(* ===================================================================== *)

Import Wire Notions.

(** X1.  The rewrite leaves no parameter segment behind: no non-empty run
    of word characters between braces occurs in its result, and the
    paths it returns unchanged are exactly those in which no position
    starts such a segment. *)
Theorem sanitizeRoutePath_leaves_no_parameter (p : string) :
  ~ ParamSegment (sanitizeRoutePath p)
  /\ (sanitizeRoutePath p = p <-> hasParam p = false).
Proof.
  unfold sanitizeRoutePath. split.
  - apply RouteMore.replaceParams_clean.
  - rewrite RouteMore.hasParam_false. split.
    + intros E Hp. exact (RouteMore.replaceParams_changes p Hp E).
    + apply RouteFacts.replaceParams_unchanged.
Qed.

(** X2.  The parts of a route path are never none and hold no slash;
    joined by slashes they give back the sanitized path, and a leading
    [/api/] is not among them: for a path [/api/rest] they are the
    parts of the sanitized [rest]. *)
Theorem pathParts_rejoin (route : ApiRoute.t) :
  pathParts route <> []
  /\ forallb noSlash (pathParts route) = true
  /\ Str.join "/" (pathParts route)
     = sanitizeRoutePath (replaceFirst "/api/" "" (ApiRoute.path route))
  /\ (forall rest,
         ApiRoute.path route = "/api/" ++ rest ->
         pathParts route = split slash (sanitizeRoutePath rest)).
Proof.
  split; [apply GenerateFacts.pathParts_not_nil |].
  split; [apply RouteMore.split_noSlash |].
  split; [apply RouteMore.split_join |].
  intros rest E. unfold pathParts. rewrite E.
  rewrite (RouteMore.replaceFirst_prefix "/api/" rest). reflexivity.
Qed.

(** X3.  The directory [utils] holds exactly one file per utility, in
    the order of the list: the utility at index [i] is the contents of
    [util<i+1>.ts], and there is no other entry. *)
Theorem utilities_are_numbered (name : string) (g : GeneratedCode.t)
    (tree : value) :
  Generate.files name g = Some tree ->
  directoryAt tree ["utils"]
  = Some (obj (numbered 0 (GeneratedCode.utils g)))
  /\ List.length (numbered 0 (GeneratedCode.utils g))
     = List.length (GeneratedCode.utils g)
  /\ (forall i util,
         nth_error (GeneratedCode.utils g) i = Some util ->
         entryAt tree ["utils"] (utilName i) = Some (fileEntry util)).
Proof.
  intros E.
  destruct (FilesFacts.files_inv name g tree E)
    as [u [a [c [Eu [_ [_ ->]]]]]].
  unfold reduce in Eu.
  rewrite (AssemblyMore.reduceFrom_addUtil (GeneratedCode.utils g) 0 [])
    in Eu by reflexivity.
  injection Eu as <-. cbn [List.app].
  split; [reflexivity |].
  split; [apply AssemblyMore.numbered_length |].
  intros i util Hi.
  change (entryAt _ ["utils"] (utilName i))
    with (ownProp (utilName (0 + i)) (numbered 0 (GeneratedCode.utils g))).
  exact (AssemblyMore.numbered_lookup _ 0 i util Hi).
Qed.

Lemma utilities_are_numbered_witness :
  let g := GeneratedCode.make [] [] "" ["export const a = 1"; "export const b = 2"] in
  exists tree,
    Generate.files "Shop" g = Some tree
    /\ entryAt tree ["utils"] "util2.ts"
       = Some (fileEntry "export const b = 2").
Proof.
  intros g.
  destruct (Generate.files "Shop" g) as [tree |] eqn:E;
    [| vm_compute in E; discriminate].
  exists tree. split; [reflexivity |].
  exact (proj2 (proj2 (utilities_are_numbered "Shop" g tree E))
           1 "export const b = 2" eq_refl).
Defined.

(** X4.  The directory [components] holds, under [<name>.tsx], the code
    of the last component of the list that has this name, and no such
    entry when no component has it: of two components with one name
    the earlier one is lost. *)
Theorem components_last_wins (name : string) (g : GeneratedCode.t)
    (tree : value) :
  Generate.files name g = Some tree ->
  forall component,
    entryAt tree ["components"] (component ++ ".tsx")
    = option_map (fun c => fileEntry (Component.code c))
        (lastNamed component (GeneratedCode.components g)).
Proof.
  intros E component.
  destruct (FilesFacts.files_inv name g tree E)
    as [u [a [c [_ [_ [Ec ->]]]]]].
  destruct (AssemblyMore.reduceFrom_addComponent
              (GeneratedCode.components g) 0 [])
    as [props [Er Hl]].
  unfold reduce in Ec. rewrite Er in Ec. injection Ec as <-.
  change (entryAt _ ["components"] (component ++ ".tsx"))
    with (ownProp (component ++ ".tsx") props).
  rewrite (Hl component).
  destruct (lastNamed component (GeneratedCode.components g)); reflexivity.
Qed.

Lemma components_last_wins_witness :
  let g :=
    GeneratedCode.make
      [ Component.make "Card" "first" "" [];
        Component.make "List" "list" "" [];
        Component.make "Card" "second" "" [] ] [] "" [] in
  exists tree,
    Generate.files "Shop" g = Some tree
    /\ entryAt tree ["components"] "Card.tsx" = Some (fileEntry "second").
Proof.
  intros g.
  destruct (Generate.files "Shop" g) as [tree |] eqn:E;
    [| vm_compute in E; discriminate].
  exists tree. split; [reflexivity |].
  exact (components_last_wins "Shop" g tree E "Card").
Defined.

(** X5.  For a specification name of code units below 256, the package
    name holds no white-space character and no character that
    [toLowerCase] changes, and deriving the package name again from it
    changes nothing. *)
Theorem packageName_normal_form (specName : string) :
  Str.all (fun c => negb (isWhiteSpace c) && Ascii.eqb (lowerChar c) c)
          (packageName specName) = true
  /\ packageName (packageName specName) = packageName specName.
Proof.
  destruct (AssemblyMore.packageName_normal specName) as [Hsafe Hidem].
  split; [| exact Hidem].
  apply (StrFacts.all_impl packageSafe); [| exact Hsafe].
  intros c. destruct c as [[] [] [] [] [] [] [] []];
    intros H; try reflexivity; discriminate H.
Qed.

(** X6.  When the model's answer validates, the request names the
    application, and no part of any route path is [__proto__],
    [route.ts] or the name of a method objects inherit, the walk over
    the paths throws nowhere and the whole tree is assembled: below
    [app/api] every entry is a directory, or a handler file under the
    name [route.ts].  Where the serialisation of the specification
    returns, the endpoint then answers 200 with this tree if the
    serialisation of the tree returns, and with the 500 body if it
    throws. *)
Theorem ordinary_routes_are_served (JSON_parse : string -> option json)
    (stringifies : json -> bool) (responds : value -> bool)
    (w : World) (text : string) (parsed : json) (g : GeneratedCode.t)
    (spec : option json) (name : string) :
  completion w = Message (Some text) ->
  Str.isEmpty text = false ->
  JSON_parse text = Some parsed ->
  GeneratedCodeSchema parsed = Some g ->
  destructureSpec (requestBody w) = Some spec ->
  specName spec = Some name ->
  (forall j, spec = Some j -> stringifies j = true) ->
  forallb ordinaryRoute (GeneratedCode.apiRoutes g) = true ->
  exists tree apiDir,
    Generate.files name g = Some tree
    /\ POST JSON_parse stringifies responds w
       = (if responds tree then success tree else failure)
    /\ directoryAt tree ["app"; "api"] = Some apiDir
    /\ routeTree apiDir = true.
Proof.
  intros Hc Ht Hp Hg Hs Hn Hj Ho.
  destruct (WalkFacts.reduceFrom_addRoute_total
              (GeneratedCode.apiRoutes g) 0 (obj []) eq_refl Ho)
    as [apiDir [Ea Hr]].
  destruct (FilesFacts.files_intro name g apiDir Ea)
    as [u [c [_ [_ Ef]]]].
  exists (layout name g u apiDir c), apiDir.
  split; [exact Ef |]. split; [| split].
  - unfold POST, tryBlock. rewrite Hs. cbn [bind].
    destruct spec as [j |]; [| discriminate Hn].
    rewrite (Hj j eq_refl). cbn [bind]. rewrite Hc, Ht. cbn [bind].
    rewrite Hp. cbn [bind]. rewrite Hg. cbn [bind].
    rewrite Hn. cbn [bind]. rewrite Ef. cbn [bind].
    destruct (responds (layout name g u apiDir c)); reflexivity.
  - apply FilesFacts.layout_api_directory.
  - exact Hr.
Qed.

Lemma ordinary_routes_are_served_witness :
  let doc :=
    JObject
      [ ("components", JArray []);
        ("apiRoutes",
         JArray
           [ JObject
               [ ("path", JString "/api/users/{id}");
                 ("methods",
                  JObject [("GET",
                            JObject [ ("code", JString "return one");
                                      ("description", JString "read") ])]) ];
             JObject
               [ ("path", JString "/api/users");
                 ("methods",
                  JObject [("GET",
                            JObject [ ("code", JString "return all");
                                      ("description", JString "list") ])]) ] ]);
        ("types", JString "");
        ("utils", JArray []) ] in
  let w :=
    {| requestBody :=
         Some (JObject [("spec", JObject [("name", JString "Todo App")])]);
       completion := Message (Some "{}") |} in
  exists tree apiDir,
    Generate.files "Todo App"
      (GeneratedCode.make []
         [ ApiRoute.make "/api/users/{id}"
             [("GET", ApiMethod.make "return one" "read")];
           ApiRoute.make "/api/users"
             [("GET", ApiMethod.make "return all" "list")] ] "" [])
    = Some tree
    /\ POST (fun _ => Some doc) (fun _ => true) (fun _ => true) w
       = success tree
    /\ directoryAt tree ["app"; "api"] = Some apiDir
    /\ routeTree apiDir = true.
Proof.
  intros doc w.
  apply (ordinary_routes_are_served (fun _ => Some doc)
           (fun _ => true) (fun _ => true) w "{}" doc
           (GeneratedCode.make []
              [ ApiRoute.make "/api/users/{id}"
                  [("GET", ApiMethod.make "return one" "read")];
                ApiRoute.make "/api/users"
                  [("GET", ApiMethod.make "return all" "list")] ] "" [])
           (Some (JObject [("name", JString "Todo App")])) "Todo App");
    reflexivity.
Defined.

(** X7.  The route folded in last owns its directory: after the reduce
    the directory at its path holds the handler file and nothing
    else, so every directory an earlier route created below this path
    is gone from the tree. *)
Theorem last_route_owns_its_directory (name : string) (g : GeneratedCode.t)
    (before : list ApiRoute.t) (route : ApiRoute.t) (tree : value) :
  GeneratedCode.apiRoutes g = (before ++ [route])%list ->
  Generate.files name g = Some tree ->
  noProtoKeys (GeneratedCode.apiRoutes g) = true ->
  ApiRoute.methods route <> [] ->
  directoryAt tree ("app" :: "api" :: pathParts route)
  = Some (obj [("route.ts",
                fileEntry (routeSource (routeMethods route)))])
  /\ (forall part rest,
         directoryAt tree
           ("app" :: "api" :: pathParts route ++ part :: rest)%list = None).
Proof.
  intros Hr E Hn Hm.
  destruct (FilesFacts.files_inv name g tree E)
    as [u [a [c [_ [Ea [_ ->]]]]]].
  assert (Hat : forall parts,
             directoryAt (layout name g u a c) ("app" :: "api" :: parts)
             = directoryAt a parts).
  { intros parts.
    change ("app" :: "api" :: parts) with (["app"; "api"] ++ parts)%list.
    rewrite WalkFacts.directoryAt_app, FilesFacts.layout_api_directory.
    reflexivity. }
  rewrite Hr in Ea, Hn. unfold reduce in Ea.
  rewrite GenerateFacts.reduceFrom_app in Ea.
  apply GenerateFacts.bind_Some in Ea. destruct Ea as [acc [E1 E2]].
  unfold noProtoKeys in Hn. rewrite forallb_app in Hn.
  apply andb_prop in Hn. destruct Hn as [Hn1 Hn2].
  cbn [forallb] in Hn2. rewrite andb_true_r in Hn2.
  pose proof (GenerateFacts.reduceFrom_addRoute_plain before 0 (obj []) acc
                eq_refl Hn1 E1) as Hp.
  cbn [reduceFrom] in E2. apply GenerateFacts.bind_Some in E2.
  destruct E2 as [acc' [E2 E3]]. injection E3 as <-.
  unfold addRoute in E2. rewrite GenerateFacts.routeMethods_empty in E2.
  destruct (ApiRoute.methods route) as [| m ms] eqn:Em; [contradiction |].
  cbn [negb] in E2.
  destruct (GenerateFacts.forEachPart_lands _ _ acc acc' Hp Hn2
              (GenerateFacts.pathParts_not_nil route) E2) as [_ Hd].
  split.
  - rewrite Hat. exact Hd.
  - intros part rest. rewrite Hat, WalkFacts.directoryAt_app, Hd.
    apply WalkFacts.routeDirectory_leaf.
Qed.

Lemma last_route_owns_its_directory_witness :
  let inner :=
    ApiRoute.make "/api/users/{id}"
      [("GET", ApiMethod.make "return one" "read")] in
  let outer :=
    ApiRoute.make "/api/users" [("GET", ApiMethod.make "return all" "list")] in
  let g := GeneratedCode.make [] [inner; outer] "" [] in
  exists tree,
    Generate.files "Shop" g = Some tree
    /\ directoryAt tree ["app"; "api"; "users"; "[id]"] = None.
Proof.
  intros inner outer g.
  destruct (Generate.files "Shop" g) as [tree |] eqn:E;
    [| vm_compute in E; discriminate].
  exists tree. split; [reflexivity |].
  apply (proj2 (last_route_owns_its_directory "Shop" g [inner] outer tree
                  eq_refl E eq_refl ltac:(discriminate)) "[id]" []).
Defined.

(** X8.  The marker [/api/] is removed where it first occurs, not only
    at the head of the path: for a path [a/api/rest] whose head [a]
    holds no slash, the parts are those of the sanitized [a] followed
    at once by [rest], so the head and the first segment of [rest]
    become one part. *)
Theorem api_marker_is_removed_anywhere (a rest : string)
    (methods : list (string * ApiMethod.t)) :
  noSlash a = true ->
  pathParts (ApiRoute.make (a ++ "/api/" ++ rest) methods)
  = split slash (sanitizeRoutePath (a ++ rest)).
Proof.
  intros Ha. unfold pathParts. cbn [ApiRoute.path].
  rewrite (EdgeFacts.replaceFirst_after "api/" a rest "/"%char Ha).
  reflexivity.
Qed.

Lemma api_marker_is_removed_anywhere_witness :
  pathParts (ApiRoute.make "v1/api/users/{id}" []) = ["v1users"; "[id]"].
Proof.
  exact (api_marker_is_removed_anywhere "v1" "users/{id}" [] eq_refl).
Defined.

(** X9.  A route with a method whose path has, anywhere before its last
    part, a part that every object inherits (a method name of
    [Object.prototype], or [__proto__]) fails the whole generation
    when it comes first: the walk reads the inherited value in place
    of a directory and throws on the next part, and the endpoint
    answers with the 500 body although the answer of the model
    validated. *)
Theorem inherited_name_fails_generation (JSON_parse : string -> option json)
    (stringifies : json -> bool) (responds : value -> bool)
    (w : World) (text : string) (parsed : json) (g : GeneratedCode.t)
    (route : ApiRoute.t) (others : list ApiRoute.t)
    (before : list string) (part part2 : string) (rest : list string) :
  completion w = Message (Some text) ->
  JSON_parse text = Some parsed ->
  GeneratedCodeSchema parsed = Some g ->
  GeneratedCode.apiRoutes g = route :: others ->
  ApiRoute.methods route <> [] ->
  pathParts route = (before ++ part :: part2 :: rest)%list ->
  inList part objectPrototypeMethods = true \/ part = protoKey ->
  (forall name, Generate.files name g = None)
  /\ POST JSON_parse stringifies responds w = failure.
Proof.
  intros Hc Hp Hg Hr Hm Hparts Hi.
  assert (Hf : forall name, Generate.files name g = None).
  { intros name. unfold Generate.files.
    destruct (reduce addUtil (GeneratedCode.utils g) (obj []));
      [| reflexivity].
    cbn [bind]. rewrite Hr. unfold reduce. cbn [reduceFrom].
    unfold addRoute at 1. rewrite GenerateFacts.routeMethods_empty.
    destruct (ApiRoute.methods route); [contradiction |].
    cbn [negb]. rewrite Hparts.
    rewrite (EdgeFacts.forEachPart_inherited_within _ part part2 rest Hi
               before).
    reflexivity. }
  split; [exact Hf |].
  unfold POST, tryBlock.
  destruct (destructureSpec (requestBody w)) as [spec |]; [| reflexivity].
  cbn [bind].
  destruct (match spec with
            | Some j => if stringifies j then Some tt else None
            | None => Some tt
            end); [| reflexivity].
  cbn [bind]. rewrite Hc.
  destruct (Str.isEmpty text); [reflexivity |]. cbn [bind].
  rewrite Hp. cbn [bind]. rewrite Hg. cbn [bind].
  destruct (specName spec) as [name |]; [| reflexivity].
  cbn [bind]. rewrite Hf. reflexivity.
Qed.

Lemma inherited_name_fails_generation_witness :
  let doc :=
    JObject
      [ ("components", JArray []);
        ("apiRoutes",
         JArray
           [ JObject
               [ ("path", JString "/api/a/constructor/{id}");
                 ("methods",
                  JObject [("GET",
                            JObject [ ("code", JString "return one");
                                      ("description", JString "read") ])]) ] ]);
        ("types", JString "");
        ("utils", JArray []) ] in
  let w :=
    {| requestBody :=
         Some (JObject [("spec", JObject [("name", JString "Todo App")])]);
       completion := Message (Some "{}") |} in
  POST (fun _ => Some doc) (fun _ => true) (fun _ => true) w = failure.
Proof.
  intros doc w.
  apply (inherited_name_fails_generation (fun _ => Some doc)
           (fun _ => true) (fun _ => true) w "{}" doc
           (GeneratedCode.make []
              [ ApiRoute.make "/api/a/constructor/{id}"
                  [("GET", ApiMethod.make "return one" "read")] ] "" [])
           (ApiRoute.make "/api/a/constructor/{id}"
              [("GET", ApiMethod.make "return one" "read")])
           [] ["a"] "constructor" "[id]" []);
    try reflexivity.
  - discriminate.
  - left. reflexivity.
Defined.

(* ===================================================================== *)
(** * Further properties of the schemas and of the client library *)
(* ===================================================================== *)

(** X10.  [GeneratedCodeSchema] validates element by element and keeps
    the order: it accepts an object exactly when its four declared
    members are there, [types] is a string, and every item of the
    three arrays is accepted by the schema of its kind; the result
    lists the validated items one for one.  One item that fails, at
    any index, fails the whole document. *)
Theorem GeneratedCodeSchema_elementwise (m : list (string * json))
    (g : GeneratedCode.t) :
  GeneratedCodeSchema (JObject m) = Some g <->
  exists cs rs us,
    member "components" m = Some (JArray cs)
    /\ member "apiRoutes" m = Some (JArray rs)
    /\ member "types" m = Some (JString (GeneratedCode.types g))
    /\ member "utils" m = Some (JArray us)
    /\ Forall2 (fun j c => ComponentSchema j = Some c)
               cs (GeneratedCode.components g)
    /\ Forall2 (fun j r => ApiRouteSchema j = Some r)
               rs (GeneratedCode.apiRoutes g)
    /\ Forall2 (fun j u => j = JString u) us (GeneratedCode.utils g).
Proof.
  assert (Hstr : forall us l,
             Forall2 (fun j u => zString j = Some u) us l
             <-> Forall2 (fun j (u : string) => j = JString u) us l).
  { intros us l. split; intros H; induction H; constructor; auto.
    - destruct x; try discriminate. cbn in H. congruence.
    - subst. reflexivity. }
  unfold GeneratedCodeSchema. split.
  - destruct (field (zArray ComponentSchema) "components" m) as [cs' |] eqn:Ec;
      [| discriminate].
    destruct (field (zArray ApiRouteSchema) "apiRoutes" m) as [rs' |] eqn:Er;
      [| discriminate].
    destruct (field zString "types" m) as [ty |] eqn:Et; [| discriminate].
    destruct (field (zArray zString) "utils" m) as [us' |] eqn:Eu;
      [| discriminate].
    intros H. injection H as <-. cbn.
    apply ValidationFacts.field_array in Ec, Er, Eu.
    apply ValidationFacts.field_string in Et.
    destruct Ec as [cs [Ec1 Ec2]]. destruct Er as [rs [Er1 Er2]].
    destruct Eu as [us [Eu1 Eu2]].
    exists cs, rs, us. repeat split; try assumption.
    apply Hstr. exact Eu2.
  - intros [cs [rs [us [Ec [Er [Et [Eu [Hc [Hr Hu]]]]]]]]].
    rewrite (proj2 (ValidationFacts.field_array ComponentSchema
                      "components" m (GeneratedCode.components g)))
      by (exists cs; auto).
    rewrite (proj2 (ValidationFacts.field_array ApiRouteSchema
                      "apiRoutes" m (GeneratedCode.apiRoutes g)))
      by (exists rs; auto).
    rewrite (proj2 (ValidationFacts.field_string "types" m _) Et).
    rewrite (proj2 (ValidationFacts.field_array zString
                      "utils" m (GeneratedCode.utils g)))
      by (exists us; split; [exact Eu | apply Hstr; exact Hu]).
    destruct g. reflexivity.
Qed.

(** X11.  The methods of a validated route are those of the document, in
    the order of the document, each one validated, without the key
    [__proto__]: no handler is ever exported under that name. *)
Theorem ApiRouteSchema_methods (j : json) (route : ApiRoute.t) :
  ApiRouteSchema j = Some route ->
  exists m ms,
    j = JObject m
    /\ member "path" m = Some (JString (ApiRoute.path route))
    /\ member "methods" m = Some (JObject ms)
    /\ map fst (ApiRoute.methods route)
       = filter (fun k => negb (String.eqb k protoKey)) (map fst ms)
    /\ noProto (ApiRoute.methods route) = true
    /\ (forall name method,
           In (name, method) (ApiRoute.methods route) ->
           exists v, In (name, v) ms /\ ApiMethodSchema v = Some method).
Proof.
  destruct j as [| | | | | m]; try discriminate.
  unfold ApiRouteSchema.
  destruct (field zString "path" m) as [p |] eqn:Ep; [| discriminate].
  destruct (field (zRecord ApiMethodSchema) "methods" m) as [r |] eqn:Em;
    [| discriminate].
  intros H. injection H as <-. cbn [ApiRoute.path ApiRoute.methods].
  apply ValidationFacts.field_string in Ep.
  apply SchemaFacts.field_inv in Em. destruct Em as [v [Ev Ez]].
  destruct v as [| | | | | ms]; try discriminate.
  exists m, ms. split; [reflexivity |]. split; [exact Ep |].
  split; [exact Ev |]. split; [| split].
  - unfold zRecord in Ez.
    destruct (traverse _ ms) as [l |] eqn:El; [| discriminate].
    cbn [option_map] in Ez. injection Ez as <-.
    rewrite (SchemaFacts.map_fst_filter
               (fun k => negb (String.eqb k protoKey))).
    rewrite (SchemaFacts.traverse_keys ApiMethodSchema ms l El).
    reflexivity.
  - exact (SpecFacts.zRecord_noProto ApiMethodSchema (JObject ms) r Ez).
  - intros name method Hin.
    destruct (SchemaFacts.zRecord_In ApiMethodSchema (JObject ms) r
                name method Ez Hin) as [ms' [v [Heq [Hv Hs]]]].
    injection Heq as <-. exists v. split; assumption.
Qed.

Lemma ApiRouteSchema_methods_witness :
  let get := JObject [("code", JString "return 1"); ("description", JString "")] in
  let j :=
    JObject [ ("path", JString "/api/a");
              ("methods", JObject [("__proto__", get); ("GET", get)]) ] in
  exists route,
    ApiRouteSchema j = Some route
    /\ map fst (ApiRoute.methods route) = ["GET"].
Proof.
  intros get j.
  destruct (ApiRouteSchema j) as [route |] eqn:E;
    [| vm_compute in E; discriminate].
  exists route. split; [reflexivity |].
  destruct (ApiRouteSchema_methods j route E)
    as [m [ms [Hj [_ [Hm [Hk _]]]]]].
  injection Hj as <-. cbn in Hm. injection Hm as <-. exact Hk.
Defined.

(** X12.  The module of the client library exports a client exactly when
    the key is set to a non-empty text, and then the client carries
    this key; a key set to the empty text fails the load like a
    missing one, for the route module as well. *)
Theorem api_key_guard {Handler : Type} (POST : OpenAI.Client -> Handler)
    (env : OpenAI.Env) :
  (OpenAI.evaluate env
   = OpenAI.Threw "Missing OPENAI_API_KEY environment variable"
   <-> env "OPENAI_API_KEY" = None \/ env "OPENAI_API_KEY" = Some "")
  /\ (env "OPENAI_API_KEY" = Some "" ->
      OpenAI.evaluateRoute POST env
      = OpenAI.Threw "Missing OPENAI_API_KEY environment variable")
  /\ (forall key,
         env "OPENAI_API_KEY" = Some key -> key <> "" ->
         OpenAI.evaluate env = OpenAI.Exports {| OpenAI.apiKey := key |}
         /\ OpenAI.evaluateRoute POST env
            = OpenAI.Exports (POST {| OpenAI.apiKey := key |})).
Proof.
  unfold OpenAI.evaluateRoute, OpenAI.evaluate, OpenAI.missing.
  destruct (env "OPENAI_API_KEY") as [[| c t] |].
  - split; [split; auto |]. split; [reflexivity |].
    intros key H Hne. injection H as <-. contradiction.
  - split; [split; [discriminate | intros [H | H]; discriminate] |].
    split; [discriminate |].
    intros key H _. injection H as <-. split; reflexivity.
  - split; [split; auto |]. split; [discriminate |].
    intros key H. discriminate.
Qed.

(* ===================================================================== *)
(** * Properties of the specification endpoint *)
(* ===================================================================== *)

(** X13.  The specification endpoint fails closed.  It answers with the
    fixed 500 body, or with the very value [SpecSchema] returned for
    the parsed answer of the model.  A body that cannot be read or is
    [null], and a prompt that is an object with a member [toString],
    which no template literal can turn into text, give the 500 body
    whatever the model would have answered. *)
Theorem specification_endpoint_fails_closed
    (JSON_parse : string -> option json) (w : SpecEndpoint.World) :
  (SpecEndpoint.POST JSON_parse w = SpecEndpoint.failure
   \/ exists text parsed spec,
        SpecEndpoint.completion w = Message (Some text)
        /\ JSON_parse text = Some parsed
        /\ SpecSchema parsed = Some spec
        /\ SpecEndpoint.POST JSON_parse w = SpecEndpoint.success spec)
  /\ (SpecEndpoint.requestBody w = None
      \/ SpecEndpoint.requestBody w = Some JNull ->
      SpecEndpoint.POST JSON_parse w = SpecEndpoint.failure)
  /\ (forall members inner v,
         SpecEndpoint.requestBody w = Some (JObject members) ->
         member "prompt" members = Some (JObject inner) ->
         member "toString" inner = Some v ->
         SpecEndpoint.POST JSON_parse w = SpecEndpoint.failure).
Proof.
  split; [| split].
  - unfold SpecEndpoint.POST.
    destruct (SpecEndpoint.tryBlock JSON_parse w) as [spec |] eqn:E;
      [| left; reflexivity].
    right.
    destruct (SpecFacts.tryBlock_inv JSON_parse w spec E)
      as [prompt [content [text [parsed [_ [_ [Hc [_ [Hp Hs]]]]]]]]].
    exists text, parsed, spec. repeat split; assumption.
  - unfold SpecEndpoint.POST, SpecEndpoint.tryBlock.
    intros [-> | ->]; reflexivity.
  - intros members inner v Hb Hm Ht.
    unfold SpecEndpoint.POST, SpecEndpoint.tryBlock.
    rewrite Hb. cbn [SpecEndpoint.destructurePrompt prop]. rewrite Hm.
    cbn [bind]. unfold SpecEndpoint.userContent.
    cbn [truthyOpt truthyJson SpecEndpoint.toText]. rewrite Ht.
    reflexivity.
Qed.

(** X14.  What the specification endpoint sends with status 200 is a
    specification again: [SpecSchema] accepts the response body and
    returns the same fields, the keys of the two records in property
    order; and the body has the text [name] the generation endpoint
    reads from it. *)
Theorem specification_response_validates_again
    (JSON_parse : string -> option json) (w : SpecEndpoint.World) :
  SpecEndpoint.status (SpecEndpoint.POST JSON_parse w) = 200 ->
  exists spec,
    SpecEndpoint.POST JSON_parse w = SpecEndpoint.success spec
    /\ SpecSchema (SpecEndpoint.payload (SpecEndpoint.POST JSON_parse w))
       = Some (Spec.make (Spec.name spec) (Spec.description spec)
                 (Spec.frontend spec) (ordered (Spec.api spec))
                 (ordered (Spec.dataModel spec)) (Spec.features spec))
    /\ specName (Some (SpecEndpoint.payload (SpecEndpoint.POST JSON_parse w)))
       = Some (Spec.name spec).
Proof.
  unfold SpecEndpoint.POST.
  destruct (SpecEndpoint.tryBlock JSON_parse w) as [spec |] eqn:E;
    [| discriminate].
  intros _. exists spec. split; [reflexivity |].
  destruct (SpecFacts.tryBlock_inv JSON_parse w spec E)
    as [prompt [content [text [parsed [_ [_ [_ [_ [_ Hs]]]]]]]]].
  destruct (SpecFacts.SpecSchema_inv parsed spec Hs)
    as [m [_ [_ [_ [_ [Ha [Hd _]]]]]]].
  apply SpecFacts.field_Some in Ha, Hd.
  destruct Ha as [va Ha]. destruct Hd as [vd Hd].
  split; [| reflexivity].
  cbn [SpecEndpoint.payload SpecEndpoint.success].
  apply SpecFacts.SpecSchema_specToJson.
  - exact (SpecFacts.zRecord_noProto _ va _ Ha).
  - exact (SpecFacts.zRecord_inner_noProto va _ Ha).
  - exact (SpecFacts.zRecord_noProto _ vd _ Hd).
  - exact (SpecFacts.zRecord_inner_noProto vd _ Hd).
Qed.

Lemma specification_response_validates_again_witness :
  let doc :=
    JObject
      [ ("name", JString "Todo"); ("description", JString "A list");
        ("frontend", JArray [JString "TodoList"]);
        ("api",
         JObject [ ("/api/todos",
                    JObject [("GET", JString "all"); ("__proto__", JString "x")]);
                   ("7", JObject []) ]);
        ("dataModel", JObject []);
        ("features", JArray []);
        ("pages", JArray []) ] in
  let w :=
    {| SpecEndpoint.requestBody := Some (JObject []);
       SpecEndpoint.completion := Message (Some "{}") |} in
  exists spec,
    SpecEndpoint.POST (fun _ => Some doc) w = SpecEndpoint.success spec
    /\ SpecSchema (SpecEndpoint.payload (SpecEndpoint.POST (fun _ => Some doc) w))
       = Some (Spec.make (Spec.name spec) (Spec.description spec)
                 (Spec.frontend spec) (ordered (Spec.api spec))
                 (ordered (Spec.dataModel spec)) (Spec.features spec))
    /\ specName
         (Some (SpecEndpoint.payload (SpecEndpoint.POST (fun _ => Some doc) w)))
       = Some (Spec.name spec).
Proof.
  intros doc w.
  apply (specification_response_validates_again (fun _ => Some doc) w).
  reflexivity.
Defined.

(* ===================================================================== *)
(** * Properties of the client page *)
(* ===================================================================== *)

(** X15.  On a file structure in which every entry is exactly a file
    with its contents or a directory of such entries, under distinct
    names other than [__proto__], the conversion throws nowhere and
    returns the same structure: the same entries in the same order,
    and a result whose prototype was not replaced. *)
Theorem convertToWebContainerFS_keeps_structure (structure : json) :
  canonical structure = true ->
  exists entries,
    Client.convertToWebContainerFS structure = Some (None, entries)
    /\ Client.structureOf (None, entries) = structure.
Proof. apply ClientFacts.convert_canonical. Qed.

Lemma convertToWebContainerFS_keeps_structure_witness :
  let structure :=
    JObject
      [ ("package.json",
         JObject [("file", JObject [("contents", JString "{}")])]);
        ("app",
         JObject
           [("directory",
             JObject
               [ ("page.tsx",
                  JObject [("file", JObject [("contents", JString "x")])]);
                 ("api", JObject [("directory", JObject [])]) ])]) ] in
  exists entries,
    Client.convertToWebContainerFS structure = Some (None, entries)
    /\ Client.structureOf (None, entries) = structure.
Proof.
  intros structure.
  apply (convertToWebContainerFS_keeps_structure structure). reflexivity.
Defined.

(** X16.  A tree the generation endpoint has assembled and serialised
    reaches the container unchanged: where the serialisation of the
    tree returns, the client receives it as a structure that the
    conversion returns entry for entry, and with a container that
    boots and mounts, [initializeWebContainer] mounts exactly this
    structure, shows the environment and reports no error. *)
Theorem generated_tree_is_mounted_unchanged (responds : value -> bool)
    (name : string) (g : GeneratedCode.t) (tree : value) :
  Generate.files name g = Some tree ->
  noProtoKeys (GeneratedCode.apiRoutes g) = true ->
  responds tree = true ->
  exists structure entries,
    wire responds tree = Some structure
    /\ Client.convertToWebContainerFS structure = Some (None, entries)
    /\ Client.structureOf (None, entries) = structure
    /\ (forall mount s,
           Client.files s = structure ->
           mount (None, entries) = true ->
           Client.initializeWebContainer true mount s
           = {| Client.spec := Client.spec s;
                Client.files := structure;
                Client.loading := false;
                Client.error := None;
                Client.instance := true;
                Client.mounts := (None, entries) :: Client.mounts s;
                Client.showDevEnv := true |}).
Proof.
  intros E Hn Hr.
  destruct (WireFacts.roundTrip_structured tree
              (WireFacts.files_structured name g tree E Hn))
    as [members [Ew Hc]].
  destruct (ClientFacts.convert_canonical (JObject members) Hc)
    as [entries [Ec Es]].
  exists (JObject members), entries.
  split; [unfold wire; rewrite Hr; exact Ew |].
  split; [exact Ec |]. split; [exact Es |].
  intros mount s Hf Hm. unfold Client.initializeWebContainer.
  rewrite Hf. cbn [truthyJson negb]. rewrite andb_false_r.
  rewrite Ec, Hm. reflexivity.
Qed.

Lemma generated_tree_is_mounted_unchanged_witness :
  let g :=
    GeneratedCode.make
      [Component.make "TodoList" "export default 1" "" []]
      [ ApiRoute.make "/api/todos/{id}"
          [("GET", ApiMethod.make "return one" "read")];
        ApiRoute.make "/api/10" [("GET", ApiMethod.make "return ten" "")];
        ApiRoute.make "/api/9" [("GET", ApiMethod.make "return nine" "")] ]
      "export type Todo = {}" ["export const a = 1"] in
  exists tree structure entries,
    Generate.files "Todo App" g = Some tree
    /\ wire (fun _ => true) tree = Some structure
    /\ Client.convertToWebContainerFS structure = Some (None, entries)
    /\ Client.structureOf (None, entries) = structure.
Proof.
  intros g.
  destruct (Generate.files "Todo App" g) as [tree |] eqn:E;
    [| vm_compute in E; discriminate].
  destruct (generated_tree_is_mounted_unchanged (fun _ => true)
              "Todo App" g tree E eq_refl eq_refl)
    as [structure [entries [Ew [Ec [Es _]]]]].
  exists tree, structure, entries. repeat split; assumption.
Defined.

(** X17.  One [null] entry among the files fails the initialisation:
    whether or not the container boots, the error of the
    initialisation is set, nothing is mounted and the environment is
    not shown. *)
Theorem null_entry_fails_initialization (boot : bool)
    (mount : Client.fileSystem -> bool) (s : Client.State)
    (members : list (string * json)) (name : string) :
  Client.files s = JObject members ->
  In (name, JNull) members ->
  Client.initializeWebContainer boot mount s
  = {| Client.spec := Client.spec s;
       Client.files := Client.files s;
       Client.loading := false;
       Client.error := Some Client.initializeFailed;
       Client.instance := Client.instance s || boot;
       Client.mounts := Client.mounts s;
       Client.showDevEnv := Client.showDevEnv s |}.
Proof.
  intros Hf Hin. unfold Client.initializeWebContainer.
  rewrite Hf. cbn [truthyJson negb].
  rewrite ClientFacts.convert_object.
  rewrite (WireFacts.convertMembers_null _ name members Hin).
  destruct (Client.instance s), boot; reflexivity.
Qed.

Lemma null_entry_fails_initialization_witness :
  let s :=
    {| Client.spec := JNull;
       Client.files :=
         JObject [ ("a", JObject [("file", JObject [("contents", JString "x")])]);
                   ("b", JNull) ];
       Client.loading := false; Client.error := None;
       Client.instance := false; Client.mounts := [];
       Client.showDevEnv := false |} in
  Client.error (Client.initializeWebContainer true (fun _ => true) s)
  = Some Client.initializeFailed.
Proof.
  intros s.
  rewrite (null_entry_fails_initialization true (fun _ => true) s
             [ ("a", JObject [("file", JObject [("contents", JString "x")])]);
               ("b", JNull) ] "b" eq_refl (or_intror (or_introl eq_refl))).
  reflexivity.
Defined.

(** X18.  The client does not look at the status of a response.  When
    the specification endpoint answers with its 500 body,
    [handlePromptSubmit] keeps this body as the specification and
    sends it on; the generation endpoint, sent this body as the
    specification, answers with its own 500 body whatever the model
    returns; and when that answer arrives the handler has reported no
    error. *)
Theorem failed_specification_is_passed_on
    (parseSpec parseCode : string -> option json)
    (stringifies : json -> bool) (responds : value -> bool)
    (wSpec : SpecEndpoint.World) (wCode : World)
    (fetchSpec fetchGenerate : json -> option json)
    (prompt : string) (received : json) (s : Client.State) :
  SpecEndpoint.status (SpecEndpoint.POST parseSpec wSpec) = 500 ->
  fetchSpec (JObject [("prompt", JString prompt)])
  = Some (SpecEndpoint.payload (SpecEndpoint.POST parseSpec wSpec)) ->
  requestBody wCode
  = Some (JObject [("spec",
                    SpecEndpoint.payload (SpecEndpoint.POST parseSpec wSpec))]) ->
  fetchGenerate
    (JObject [("spec",
               SpecEndpoint.payload (SpecEndpoint.POST parseSpec wSpec))])
  = Some received ->
  POST parseCode stringifies responds wCode = failure
  /\ Client.spec (Client.handlePromptSubmit fetchSpec fetchGenerate prompt s)
     = JObject [("error",
                 JString "Failed to generate specification. Please try again.")]
  /\ Client.error (Client.handlePromptSubmit fetchSpec fetchGenerate prompt s)
     = None.
Proof.
  intros Hst Hfs Hb Hfg.
  assert (Hsp : SpecEndpoint.POST parseSpec wSpec = SpecEndpoint.failure).
  { unfold SpecEndpoint.POST in *.
    destruct (SpecEndpoint.tryBlock parseSpec wSpec);
      [discriminate Hst | reflexivity]. }
  rewrite Hsp in Hfs, Hb, Hfg.
  split; [| split].
  - unfold POST, tryBlock. rewrite Hb.
    cbn [destructureSpec SpecEndpoint.payload SpecEndpoint.failure member
         String.eqb Ascii.eqb Bool.eqb bind].
    destruct (stringifies _); [| reflexivity]. cbn [bind].
    destruct (completion wCode) as [| [text |]]; try reflexivity.
    destruct (Str.isEmpty text); [reflexivity |]. cbn [bind].
    destruct (parseCode text) as [parsed |]; [| reflexivity]. cbn [bind].
    destruct (GeneratedCodeSchema parsed); reflexivity.
  - unfold Client.handlePromptSubmit. rewrite Hfs, Hfg. reflexivity.
  - unfold Client.handlePromptSubmit. rewrite Hfs, Hfg. reflexivity.
Qed.

Lemma failed_specification_is_passed_on_witness :
  let wSpec :=
    {| SpecEndpoint.requestBody := Some (JObject [("prompt", JString "a shop")]);
       SpecEndpoint.completion := CallFailed |} in
  let sent := SpecEndpoint.payload (SpecEndpoint.POST (fun _ => None) wSpec) in
  let wCode :=
    {| requestBody := Some (JObject [("spec", sent)]);
       completion := Message (Some "{}") |} in
  POST (fun _ => Some (JObject [])) (fun _ => true) (fun _ => true) wCode
  = failure
  /\ Client.error
       (Client.handlePromptSubmit
          (fun _ => Some sent)
          (fun _ => Some (JObject [("error", JString "Failed to generate code. Please try again.")]))
          "a shop" Client.initialState)
     = None.
Proof.
  intros wSpec sent wCode.
  destruct (failed_specification_is_passed_on
              (fun _ => None) (fun _ => Some (JObject []))
              (fun _ => true) (fun _ => true) wSpec wCode
              (fun _ => Some sent)
              (fun _ => Some (JObject [("error", JString "Failed to generate code. Please try again.")]))
              "a shop"
              (JObject [("error", JString "Failed to generate code. Please try again.")])
              Client.initialState
              eq_refl eq_refl eq_refl eq_refl)
    as [Hp [_ He]].
  split; [exact Hp | exact He].
Defined.

(** X19.  From the prompt to the container.  When the specification
    endpoint answers 200, the generation endpoint is sent this answer,
    the answer of the model validates, all route paths are ordinary,
    and the serialisations of the specification and of the assembled
    tree return, then [handlePromptSubmit] stores the specification
    and, as the files, the assembled tree as the client receives it,
    with no error; and [initializeWebContainer], with a container that
    boots and mounts, mounts this tree entry for entry. *)
Theorem prompt_reaches_the_container
    (parseSpec parseCode : string -> option json)
    (stringifies : json -> bool) (responds : value -> bool)
    (wSpec : SpecEndpoint.World) (wCode : World)
    (fetchSpec fetchGenerate : json -> option json)
    (prompt text : string) (parsed : json) (g : GeneratedCode.t)
    (s : Client.State) :
  SpecEndpoint.status (SpecEndpoint.POST parseSpec wSpec) = 200 ->
  fetchSpec (JObject [("prompt", JString prompt)])
  = Some (SpecEndpoint.payload (SpecEndpoint.POST parseSpec wSpec)) ->
  requestBody wCode
  = Some (JObject [("spec",
                    SpecEndpoint.payload (SpecEndpoint.POST parseSpec wSpec))]) ->
  stringifies (SpecEndpoint.payload (SpecEndpoint.POST parseSpec wSpec))
  = true ->
  completion wCode = Message (Some text) ->
  Str.isEmpty text = false ->
  parseCode text = Some parsed ->
  GeneratedCodeSchema parsed = Some g ->
  forallb ordinaryRoute (GeneratedCode.apiRoutes g) = true ->
  (forall name tree, Generate.files name g = Some tree ->
                     responds tree = true) ->
  fetchGenerate
    (JObject [("spec",
               SpecEndpoint.payload (SpecEndpoint.POST parseSpec wSpec))])
  = wire responds (body (POST parseCode stringifies responds wCode)) ->
  exists spec tree structure entries,
    SpecEndpoint.POST parseSpec wSpec = SpecEndpoint.success spec
    /\ Generate.files (Spec.name spec) g = Some tree
    /\ POST parseCode stringifies responds wCode = success tree
    /\ wire responds tree = Some structure
    /\ Client.structureOf (None, entries) = structure
    /\ Client.handlePromptSubmit fetchSpec fetchGenerate prompt s
       = {| Client.spec := SpecEndpoint.specToJson spec;
            Client.files := structure;
            Client.loading := false;
            Client.error := None;
            Client.instance := Client.instance s;
            Client.mounts := Client.mounts s;
            Client.showDevEnv := Client.showDevEnv s |}
    /\ (forall mount,
           mount (None, entries) = true ->
           Client.initializeWebContainer true mount
             (Client.handlePromptSubmit fetchSpec fetchGenerate prompt s)
           = {| Client.spec := SpecEndpoint.specToJson spec;
                Client.files := structure;
                Client.loading := false;
                Client.error := None;
                Client.instance := true;
                Client.mounts := (None, entries) :: Client.mounts s;
                Client.showDevEnv := true |}).
Proof.
  intros Hst Hfs Hb Hsf Hc Ht Hp Hg Ho Hresp Hfg.
  assert (Hsp : exists spec,
             SpecEndpoint.POST parseSpec wSpec = SpecEndpoint.success spec).
  { unfold SpecEndpoint.POST in *.
    destruct (SpecEndpoint.tryBlock parseSpec wSpec) as [spec |];
      [exists spec; reflexivity | discriminate Hst]. }
  destruct Hsp as [spec Hsp]. rewrite Hsp in Hfs, Hb, Hfg, Hsf.
  destruct (WalkFacts.reduceFrom_addRoute_total
              (GeneratedCode.apiRoutes g) 0 (obj []) eq_refl Ho)
    as [apiDir [Ea _]].
  destruct (FilesFacts.files_intro (Spec.name spec) g apiDir Ea)
    as [u [c [_ [_ Ef]]]].
  set (tree := layout (Spec.name spec) g u apiDir c) in *.
  pose proof (Hresp (Spec.name spec) tree Ef) as Hr.
  assert (Hcode : POST parseCode stringifies responds wCode = success tree).
  { unfold POST, tryBlock. rewrite Hb.
    cbn [destructureSpec member String.eqb Ascii.eqb Bool.eqb bind].
    rewrite Hsf. cbn [bind]. rewrite Hc, Ht. cbn [bind].
    rewrite Hp. cbn [bind]. rewrite Hg. cbn [bind].
    change (specName (Some (SpecEndpoint.payload (SpecEndpoint.success spec))))
      with (Some (Spec.name spec)).
    cbn [bind]. rewrite Ef. cbn [bind]. rewrite Hr. reflexivity. }
  rewrite Hcode in Hfg. cbn [body success] in Hfg.
  destruct (WireFacts.roundTrip_structured tree
              (WireFacts.files_structured (Spec.name spec) g tree Ef
                 (EdgeFacts.ordinary_noProtoKeys _ Ho)))
    as [members [Ew Hcan]].
  assert (Ewire : wire responds tree = Some (JObject members))
    by (unfold wire; rewrite Hr; exact Ew).
  destruct (ClientFacts.convert_canonical (JObject members) Hcan)
    as [entries [Ec Es]].
  assert (Hs1 : Client.handlePromptSubmit fetchSpec fetchGenerate prompt s
                = {| Client.spec := SpecEndpoint.specToJson spec;
                     Client.files := JObject members;
                     Client.loading := false;
                     Client.error := None;
                     Client.instance := Client.instance s;
                     Client.mounts := Client.mounts s;
                     Client.showDevEnv := Client.showDevEnv s |}).
  { unfold Client.handlePromptSubmit. rewrite Hfs, Hfg, Ewire. reflexivity. }
  exists spec, tree, (JObject members), entries.
  split; [exact Hsp |]. split; [exact Ef |]. split; [exact Hcode |].
  split; [exact Ewire |]. split; [exact Es |]. split; [exact Hs1 |].
  intros mount Hm. rewrite Hs1. unfold Client.initializeWebContainer.
  cbn [Client.files Client.spec Client.instance Client.mounts
       Client.showDevEnv truthyJson negb].
  rewrite andb_false_r, Ec, Hm. reflexivity.
Qed.

Lemma prompt_reaches_the_container_witness :
  let docSpec :=
    JObject
      [ ("name", JString "Todo App"); ("description", JString "A list");
        ("frontend", JArray [JString "TodoList"]);
        ("api", JObject [("/api/todos", JObject [("GET", JString "all")])]);
        ("dataModel", JObject []);
        ("features", JArray []) ] in
  let docCode :=
    JObject
      [ ("components", JArray []);
        ("apiRoutes",
         JArray
           [ JObject
               [ ("path", JString "/api/todos");
                 ("methods",
                  JObject [("GET",
                            JObject [ ("code", JString "return all");
                                      ("description", JString "list") ])]) ] ]);
        ("types", JString "");
        ("utils", JArray []) ] in
  let wSpec :=
    {| SpecEndpoint.requestBody := Some (JObject [("prompt", JString "todos")]);
       SpecEndpoint.completion := Message (Some "{}") |} in
  let sent := SpecEndpoint.payload (SpecEndpoint.POST (fun _ => Some docSpec) wSpec) in
  let wCode :=
    {| requestBody := Some (JObject [("spec", sent)]);
       completion := Message (Some "{}") |} in
  let answer :=
    wire (fun _ => true)
      (body (POST (fun _ => Some docCode) (fun _ => true) (fun _ => true)
                  wCode)) in
  let s1 :=
    Client.handlePromptSubmit (fun _ => Some sent) (fun _ => answer)
      "todos" Client.initialState in
  exists structure entries,
    Client.files s1 = structure
    /\ Client.structureOf (None, entries) = structure
    /\ Client.mounts (Client.initializeWebContainer true (fun _ => true) s1)
       = [(None, entries)].
Proof.
  intros docSpec docCode wSpec sent wCode answer s1.
  destruct (prompt_reaches_the_container
              (fun _ => Some docSpec) (fun _ => Some docCode)
              (fun _ => true) (fun _ => true) wSpec wCode
              (fun _ => Some sent) (fun _ => answer)
              "todos" "{}" docCode
              (GeneratedCode.make []
                 [ ApiRoute.make "/api/todos"
                     [("GET", ApiMethod.make "return all" "list")] ] "" [])
              Client.initialState
              eq_refl eq_refl eq_refl eq_refl eq_refl eq_refl eq_refl
              eq_refl eq_refl (fun _ _ _ => eq_refl) eq_refl)
    as [spec [tree [structure [entries [_ [_ [_ [_ [Hs [H1 H2]]]]]]]]]].
  exists structure, entries. split; [| split].
  - exact (f_equal Client.files H1).
  - exact Hs.
  - exact (f_equal Client.mounts (H2 (fun _ => true) eq_refl)).
Defined.

(** X20.  Whenever the tree is assembled and no path part is
    [__proto__], a route with at least one method that no later route
    overwrites (no later route with a method has a path that is a
    prefix of its path, or its path followed by [route.ts]) has, in
    the nested directories its path names below [app/api], the file
    [route.ts], whose text is the import line followed by one
    exported handler per method, in the order of the methods,
    separated by blank lines. *)
Theorem spared_route_keeps_its_handlers (name : string)
    (g : GeneratedCode.t) (before : list ApiRoute.t) (route : ApiRoute.t)
    (after : list ApiRoute.t) (tree : value) :
  GeneratedCode.apiRoutes g = (before ++ route :: after)%list ->
  Generate.files name g = Some tree ->
  noProtoKeys (GeneratedCode.apiRoutes g) = true ->
  ApiRoute.methods route <> [] ->
  forallb (sparesPath (pathParts route)) after = true ->
  entryAt tree ("app" :: "api" :: pathParts route) "route.ts"
  = Some (routeFileOf
            (Str.join (lineFeed ++ lineFeed)
               (map (fun m => handlerOf (fst m) (ApiMethod.code (snd m)))
                    (ApiRoute.methods route)))).
Proof.
  intros Hroutes Hf Hn Hm Hs.
  apply FilesFacts.files_inv in Hf as (u & a & c & _ & Ha & _ & ->).
  rewrite FilesFacts.layout_api. rewrite Hroutes in Ha, Hn.
  rewrite (GenerateFacts.reduce_addRoute_layout _ _ _ _ Ha Hn);
    [reflexivity | | exact Hs].
  rewrite GenerateFacts.routeMethods_empty.
  destruct (ApiRoute.methods route); [congruence | reflexivity].
Qed.

Lemma spared_route_keeps_its_handlers_witness :
  let users :=
    ApiRoute.make "/api/users/{id}"
      [ ("GET", ApiMethod.make "return a" "read");
        ("DELETE", ApiMethod.make "return b" "remove") ] in
  let g :=
    GeneratedCode.make []
      [ ApiRoute.make "/api/users" [("GET", ApiMethod.make "return c" "list")];
        users;
        ApiRoute.make "/api/users/{id}" [];
        ApiRoute.make "/api/posts" [("GET", ApiMethod.make "return d" "list")] ]
      "" [] in
  exists tree,
    Generate.files "Shop" g = Some tree
    /\ entryAt tree ["app"; "api"; "users"; "[id]"] "route.ts"
       = Some (routeFileOf
                 (handlerOf "GET" "return a" ++ lineFeed ++ lineFeed
                    ++ handlerOf "DELETE" "return b")).
Proof.
  intros users g.
  destruct (Generate.files "Shop" g) as [tree |] eqn:E;
    [| vm_compute in E; discriminate].
  exists tree. split; [reflexivity |].
  apply (spared_route_keeps_its_handlers "Shop" g
           [ApiRoute.make "/api/users" [("GET", ApiMethod.make "return c" "list")]]
           users
           [ApiRoute.make "/api/users/{id}" [];
            ApiRoute.make "/api/posts" [("GET", ApiMethod.make "return d" "list")]]
           tree).
  - reflexivity.
  - exact E.
  - reflexivity.
  - discriminate.
  - reflexivity.
Defined.
